(* ===== verification/_CoqProject ===== *)
-Q . S2P
Prelude.v
Http.v
Json.v
JwtLib.v
Registry.v
Challenge.v
Claims.v
Verification.v
Provider.v
Config.v
AuthProvider.v
Server.v
Plugin.v
Scenario.v
