(* ===== verification/Prelude.v ===== *)
(** * A verification development for xentara-simple-sample-web-service

    The program is a Xentara plugin (C++, [src/src/]) that runs an
    HTTPS server answering [GET] requests with a greeting once the
    request carries a valid OpenID Connect bearer token (a JWT).

    ** The program and how its parts interact

    - [Plugin]/[ServiceProvider] register the element class
      [Server::Class]; the runtime creates a [Server] and drives it
      through [loadConfig], [prepare], the request callbacks and
      [cleanup].
    - [Server] reads its port, certificate and [authentication] block;
      the block creates an [OpenIdAuthenticationProvider], which reads
      realm, scopes, issuer, audience, claim constraints and a
      [verification] block.
    - [AbstractTokenVerification::load] turns the [verification] block
      into a [SimpleTokenVerification] (one key file, an algorithm from
      [TokenVerifierFactory]) or a [JwksTokenVerification] (a key set).
    - At [prepare] the provider initializes its verifier and builds its
      [WWW-Authenticate] header; then every request goes through
      [OpenIdAuthenticationProvider::checkAuthentication] (header loop,
      [decodeJwt], [checkDate], [checkAudience], [checkIssuer],
      [checkSignature], [checkClaims]) before the method check, and any
      exception becomes a response ([HttpError] or [507]).
    - jwt-cpp (decoding, signature algorithms, JWKS parsing) and the
      Xentara JSON decoder are libraries the sources call.

    ** Files (library [-Q . S2P], in dependency order)

    - [Prelude]: the result type [res] (a thrown exception is [Err]),
      its notations [let*]/[do*], string and decimal helpers, the
      [find_first] loop over JSON objects, 64-bit wrap-around
      ([to_uint64]), the hint databases [jwt] and [jwt_rw].
    - [Http]: [HttpError] ([HttpError.hpp]) with the strings it owns
      (the [what()] text, [_responseCode], [_responseData]; the
      [string_view] [_extraHeaderFiels] is never read and, for the 400
      errors, dangles, so it is left out), the exception type [exn],
      [Server::sendResponse] and the [catch] clauses ([respond_exn]); a
      client-side parser [parse_response] and [wf_response].
    - [Json]: picojson values, the decoded token and its claim
      accessors, and the decoder accessors ([asString], ...).
    - [JwtLib]: the algorithms, the jwt-cpp interface as the class
      [JwtLibrary] (decode, key check, signature check, time claims,
      JWKS) with its laws, [jwt::verifier::verify] as [lib_verify]
      returning a [std::error_code] (category and [int] value, with
      jwt-cpp's values), and a toy instance [toy_jwt_with] for the
      examples.
    - [Registry]: [TokenVerifierFactory] ([kFactories], [factory]),
      the abstract class as the typeclass [TokenVerifierFactory] and
      [ConcreteTokenVerifierFactory<Algorithm>] (its [create]) as its
      instance.
    - [Challenge]: [getScopeError], [getRealmError], [makeRealm] (the
      index loop, with fuel, and as the transition system
      [makeRealm_step]) and [buildAuthenticationHeader].
    - [Claims]: [loadClaims], [checkClaims], [checkClaim],
      [checkClaimValue]; the [unordered_map] of [unordered_set]s is a
      [gmap] of [gset]s.
    - [Verification]: both verifiers ([loadConfig], [initialize],
      [verify]), [AbstractTokenVerification::load], and the interface
      the provider needs as the class [TokenVerifier] with the
      instances of the two verifiers and of their union.
    - [Provider]: the provider's fields and its request-time checks,
      proved for any [TokenVerifier].
    - [Config]: [OpenIdAuthenticationProvider::loadConfig] and
      [initialize].
    - [AuthProvider]: the abstract class [AbstractAuthenticationProvider]
      as a typeclass of its three virtual methods, the laws the server
      relies on ([AuthenticationProviderLaws]), and the OpenID provider
      as the instance [openid_provider].
    - [Server]: [Server::loadConfig], [loadAuthenticationProvider],
      [prepare], [beginRequestHandler], [cleanup], the log and static
      handlers, and the life cycle as the step relation [step] with
      [reachable] traces (the life cycle is Xentara's, outside [src/];
      [step] is modelled from the specification, and a request step
      leaves the server as it is, since [beginRequestHandler] updates
      no member). The server calls its provider through
      [AuthProvider]'s class, as the C++ calls it through
      [std::unique_ptr<AbstractAuthenticationProvider>].
    - [Plugin]: [Plugin], [ServiceProvider] and
      [createMicroservice].
    - [Scenario]: the specification's configuration scenarios (issuer
      ["acme"], audience ["api"], a key file for [HS256] or [RS256]),
      run through [loadConfig], [initialize] and [checkAuthentication]
      for every [JwtLibrary].

    State is passed explicitly: a C++ member update is a new record
    value; a loop over a JSON object is a [Fixpoint] over the member
    list; a throw is [Err]. File contents are a function [filesystem]
    from paths to texts.

    ** What the theorems show

    - The contract of [checkAuthentication] (a refinement: it succeeds
      exactly on [accepted] requests), that an accepted token names the
      configured algorithm and is signed with the configured key unless
      the signature failure has the value of [token_expired], its error
      answers per case (header loop,
      expiry, not-before, audience), and the exact meaning of the claim
      check whatever the map's iteration order.
    - Server invariants by rule induction on [reachable]: in every
      running state the provider is loaded and initialized;
      authentication comes before the method check; every
      response is a well-formed HTTP response (a type property); the
      server starts exactly when its key loads and the port opens
      (liveness); [loadConfig] accepts exactly one [authentication]
      member.
    - The request handler proved against the provider interface alone:
      for any provider keeping [AuthenticationProviderLaws] it answers
      200 exactly the accepted [GET] requests, 405 the other accepted
      ones, and the provider's exception otherwise; the server theorems
      about the OpenID provider use these lemmas through its instance.
      The answer does not depend on the order of the header fields:
      [checkAuthentication] is a [Proper] morphism from header lists up
      to permutation ([≡ₚ]), and setoid rewriting carries that to
      [beginRequestHandler].
    - The specification's scenarios, across configuration, registry,
      verifier and checks: the signed token is accepted, the token not
      signed with the key is answered 401 ["Jwt verification failed"];
      with an [RS256] key, a forged token is accepted when jwt-cpp
      reports the failure as [verifyfinal_failed].
    - The verifiers: what [verify] accepts (exactly, as an iff, with
      the error-code comparison by value), what [initialize] stores
      (the first key of a key id is kept), and what [load] accepts.
    - The registration: the runtime environment creates a [Server]
      exactly for the class the plugin registers.
    - The helpers: [makeRealm] terminates and equals quoted-string
      escaping, the built header reads back to the configuration, the
      character checks accept exactly what they say, and the registry
      answers like a first-wins scan of its table.
    - Findings: [RS384] is unreachable (the table lists ["RS256"]
      twice); Ed25519 and Ed448 keys of a key set are never usable
      (jwt-cpp calls them ["EdDSA"]); [0x7E] is rejected instead of DEL;
      a negative [exp] never expires (uint64 wrap); an array [aud]
      never matches; a key without ["alg"] aborts initialization; the
      challenge is sent in the body, not as a header field; the
      [error_code] parameters stand outside the challenge (in the body
      of the 400 answers); the verifiers compare [errorCode.value()]
      without its category, so [verifyfinal_failed] (14), the failure
      of an RSA signature, passes as [token_expired] (14); a second
      [verification] member of the provider silently replaces the
      first (the last member of a name wins).

    ** Bounds and fuel

    - [makeRealm_loop] takes the length of its argument as fuel: every
      turn consumes one character of the original string, so that fuel
      is enough ([makeRealm_escape], for any larger fuel too), and
      [makeRealm_loop_terminates] shows the loop ends without fuel.
    - [parse_fields] takes the length of its text as fuel; each turn
      consumes at least one line.
    - Integers: [now], [nbf] and [exp] are [Z]; the conversions to
      [std::uint64_t] are [to_uint64] (mod [2^64]); the port is a [Z] in
      the [uint16] range.

    ** Not modelled

    - jwt-cpp's cryptography, base64 decoding and JSON parsing: abstract
      operations of [JwtLibrary] with the laws the proofs use.
    - The Xentara runtime, its JSON decoder (beyond the typed accessors
      and the unknown-parameter error) and error locations; libhttp
      ([httplib_start] is a parameter, [httplib_write] the returned
      text); reading the clock ([now] is a parameter).
    - The pure virtual destructors of the three abstract classes and
      object lifetimes ([std::unique_ptr]): the model has no memory.
    - Concurrency: libhttp may call the handler from several threads;
      the handler only reads the server state, which the model shows
      is unchanged by requests. *)

(** ** Prelude: shared notation, results, strings, integers

    This file holds what every component file shares:
    - [res E A], the result of code that can throw: [Ok a] or [Err e],
      with a bind written [let* x := c in k] in [res_scope];
    - the character and string constants the C++ code writes as
      literals ([dq] for a double quote, [bs] for a backslash, [crlf]);
    - [starts_with] (C++ [std::string_view::starts_with]) and
      [str_drop] ([substr(n)]);
    - [dec_of_nat], the decimal rendering that [utils::string::cat] and
      [std::to_string] give an unsigned integer, with its parser;
    - [find_first], the "iterate the object and stop at the first
      matching key" loop the code writes over JSON objects, and its
      agreement with a [gmap] lookup;
    - the two's-complement conversions of C++ 64-bit integers;
    - the hint database [jwt] and the tactic [res_simpl]. *)

From Stdlib Require Import ZArith String Ascii DecimalString DecimalNat.
From stdpp Require Import base list gmap strings.

(** ** Results *)

Inductive res (E A : Type) : Type :=
| Ok (a : A)
| Err (e : E).
Arguments Ok {E A} a.
Arguments Err {E A} e.

Definition res_bind {E A B} (c : res E A) (k : A -> res E B) : res E B :=
  match c with
  | Ok a => k a
  | Err e => Err e
  end.

Definition res_map_err {E E' A} (f : E -> E') (c : res E A) : res E' A :=
  match c with
  | Ok a => Ok a
  | Err e => Err (f e)
  end.

Definition is_ok {E A} (c : res E A) : bool :=
  match c with Ok _ => true | Err _ => false end.

Declare Scope res_scope.
Delimit Scope res_scope with res.
Notation "'let*' x ':=' c 'in' k" := (res_bind c (fun x => k))
  (at level 100, x name, c at next level, right associativity) : res_scope.
Notation "'do*' c 'in' k" := (res_bind c (fun _ => k))
  (at level 100, c at next level, right associativity) : res_scope.
Open Scope res_scope.

Lemma res_bind_Ok_inv {E A B} (c : res E A) (k : A -> res E B) b :
  res_bind c k = Ok b -> exists a, c = Ok a /\ k a = Ok b.
Proof. destruct c; simpl; [eauto | discriminate]. Qed.

Lemma res_bind_Err_inv {E A B} (c : res E A) (k : A -> res E B) e :
  res_bind c k = Err e -> c = Err e \/ exists a, c = Ok a /\ k a = Err e.
Proof. destruct c as [a|e0]; simpl; intros H; [right; exists a; split; [reflexivity | exact H] | left; congruence]. Qed.

Lemma res_bind_Ok_iff {E A B} (c : res E A) (k : A -> res E B) b :
  res_bind c k = Ok b <-> exists a, c = Ok a /\ k a = Ok b.
Proof. split; [apply res_bind_Ok_inv | intros (a & -> & H); exact H]. Qed.

Lemma res_seq_Ok_iff {E B} (c : res E unit) (k : res E B) b :
  res_bind c (fun _ => k) = Ok b <-> c = Ok tt /\ k = Ok b.
Proof. rewrite res_bind_Ok_iff. split; [intros ([] & ? & ?) | intros [? ?]; exists tt]; auto. Qed.

Lemma res_bind_Ok {E A B} (a : A) (k : A -> res E B) :
  res_bind (Ok a) k = k a.
Proof. reflexivity. Qed.

Lemma res_bind_Err {E A B} (e : E) (k : A -> res E B) :
  res_bind (Err e) k = Err e.
Proof. reflexivity. Qed.

(** [f] applied to every element in order, stopping at the first error. *)
Fixpoint res_mapM {E A B} (f : A -> res E B) (l : list A) : res E (list B) :=
  match l with
  | [] => Ok []
  | x :: l' => res_bind (f x) (fun y => res_bind (res_mapM f l') (fun ys => Ok (y :: ys)))
  end.

Lemma res_mapM_Ok {E A B} (f : A -> res E B) l ys :
  res_mapM f l = Ok ys <-> Forall2 (fun x y => f x = Ok y) l ys.
Proof.
  revert ys. induction l as [|x l IH]; intros ys; simpl.
  - split; [intros [= <-]; constructor | intros H; inversion H; done].
  - split.
    + intros H. destruct (f x) as [y|] eqn:Hf; simpl in H; [|discriminate].
      destruct (res_mapM f l) as [ys'|] eqn:Hl; simpl in H; [|discriminate].
      injection H as <-. constructor; [done|]. by apply IH.
    + intros H. inversion H as [|? y ? ys' Hf Hl]; subst.
      rewrite Hf. simpl. apply IH in Hl. by rewrite Hl.
Qed.

Create HintDb jwt.
Create Rewrite HintDb jwt_rw.
#[export] Hint Rewrite @res_bind_Ok @res_bind_Err : jwt_rw.

(** [res_simpl] splits every [res_bind c k = Ok _] hypothesis into the
    result of [c] and of the continuation. *)
Ltac res_simpl :=
  repeat match goal with
  | H : res_bind ?c _ = Ok _ |- _ =>
      let a := fresh "a" in let Hc := fresh "Hc" in
      apply res_bind_Ok_inv in H as (a & Hc & H)
  | H : Ok _ = Ok _ |- _ => injection H as H
  | H : Ok _ = Err _ |- _ => discriminate H
  | H : Err _ = Ok _ |- _ => discriminate H
  end.

(** ** Characters and literals *)

Local Open Scope string_scope.
(** stdpp stops [simpl] on [String.append]; the proofs here compute
    with it. *)
#[local] Arguments String.append : simpl nomatch.

Lemma append_cons c (s1 s2 : string) : String c s1 ++ s2 = String c (s1 ++ s2).
Proof. reflexivity. Qed.

Lemma append_empty (s : string) : "" ++ s = s.
Proof. reflexivity. Qed.

Definition chr (n : nat) : ascii := ascii_of_nat n.
Definition dq_chr : ascii := chr 34.
Definition bs_chr : ascii := chr 92.
Definition dq : string := String dq_chr EmptyString.
Definition bs : string := String bs_chr EmptyString.
Definition crlf : string := String (chr 13) (String (chr 10) EmptyString).

(** [int(character)] for a C++ [char8_t], an unsigned byte. *)
Definition code (c : ascii) : nat := nat_of_ascii c.

Lemma code_lt_256 c : code c < 256.
Proof. unfold code. apply nat_ascii_bounded. Qed.

Lemma code_inj c1 c2 : code c1 = code c2 -> c1 = c2.
Proof.
  unfold code. intros H.
  rewrite <- (ascii_nat_embedding c1), <- (ascii_nat_embedding c2), H.
  reflexivity.
Qed.

(** ** Prefixes and suffixes *)

(** [std::string_view::starts_with]. *)
Fixpoint starts_with (p s : string) : bool :=
  match p, s with
  | EmptyString, _ => true
  | String c p', String d s' => if ascii_dec c d then starts_with p' s' else false
  | String _ _, EmptyString => false
  end.

(** [s.substr(n)]: the characters of [s] from index [n] on. *)
Fixpoint str_drop (n : nat) (s : string) : string :=
  match n, s with
  | O, _ => s
  | S n', String _ s' => str_drop n' s'
  | S _, EmptyString => EmptyString
  end.

Lemma starts_with_spec p s :
  starts_with p s = true <-> exists r, s = p ++ r.
Proof.
  revert s. induction p as [|c p IH]; intros s; simpl.
  - split; eauto.
  - destruct s as [|d s].
    + split; [discriminate | intros [r Hr]; discriminate].
    + destruct (ascii_dec c d) as [->|Hne].
      * rewrite IH. split; intros [r Hr]; exists r; simpl in *; congruence.
      * split; [discriminate | intros [r Hr]; injection Hr as Hcd; congruence].
Qed.

Lemma str_drop_app p r : str_drop (String.length p) (p ++ r) = r.
Proof. induction p; simpl; auto. Qed.

Lemma starts_with_app p r : starts_with p (p ++ r) = true.
Proof. apply starts_with_spec. eauto. Qed.

#[export] Hint Rewrite str_drop_app starts_with_app : jwt_rw.

(** [s.substr(0, n)]. *)
Fixpoint str_take (n : nat) (s : string) : string :=
  match n, s with
  | O, _ => EmptyString
  | S n', String c s' => String c (str_take n' s')
  | S _, EmptyString => EmptyString
  end.

(** [s.insert(i, t)]. *)
Definition str_insert (i : nat) (t s : string) : string :=
  str_take i s ++ t ++ str_drop i s.

Lemma str_take_app p r : str_take (String.length p) (p ++ r) = p.
Proof. induction p; simpl; congruence. Qed.

Lemma str_insert_app i p t r :
  i = String.length p -> str_insert i t (p ++ r) = p ++ t ++ r.
Proof. intros ->. unfold str_insert. by rewrite str_take_app, str_drop_app. Qed.

Lemma get_app_length p c r : String.get (String.length p) (p ++ String c r) = Some c.
Proof. induction p; simpl; auto. Qed.

Lemma length_append (s1 s2 : string) :
  String.length (s1 ++ s2) = String.length s1 + String.length s2.
Proof. induction s1; simpl; auto. Qed.

Lemma length_str_take i s : (i <= String.length s)%nat -> String.length (str_take i s) = i.
Proof. revert s. induction i as [|i IH]; intros [|c s]; simpl; intros H; try lia. f_equal. apply IH. lia. Qed.

Lemma length_str_drop i s : String.length (str_drop i s) = String.length s - i.
Proof. revert s. induction i as [|i IH]; intros [|c s]; simpl; try lia. apply IH. Qed.

Lemma length_str_insert i t s :
  (i <= String.length s)%nat -> String.length (str_insert i t s) = String.length s + String.length t.
Proof.
  intros Hi. unfold str_insert. rewrite !length_append, length_str_take, length_str_drop by exact Hi. lia.
Qed.

Lemma append_assoc (s1 s2 s3 : string) : s1 ++ s2 ++ s3 = (s1 ++ s2) ++ s3.
Proof. induction s1; simpl; congruence. Qed.

Lemma append_nil_r (s : string) : s ++ "" = s.
Proof. induction s; simpl; congruence. Qed.

#[export] Hint Rewrite append_cons append_empty str_take_app get_app_length length_append append_nil_r : jwt_rw.

(** ** Decimal rendering of unsigned integers *)

Definition dec_of_nat (n : nat) : string :=
  NilEmpty.string_of_uint (Nat.to_uint n).

Definition nat_of_dec (s : string) : option nat :=
  match NilEmpty.uint_of_string s with
  | Some d => Some (Nat.of_uint d)
  | None => None
  end.

Lemma nat_of_dec_of_nat n : nat_of_dec (dec_of_nat n) = Some n.
Proof.
  unfold nat_of_dec, dec_of_nat. rewrite NilEmpty.usu, Unsigned.of_to.
  reflexivity.
Qed.

Lemma dec_of_nat_inj n m : dec_of_nat n = dec_of_nat m -> n = m.
Proof.
  intros H. apply (f_equal nat_of_dec) in H.
  rewrite !nat_of_dec_of_nat in H. congruence.
Qed.

#[export] Hint Rewrite nat_of_dec_of_nat : jwt_rw.

(** ** Objects iterated by key *)

(** The loop [for (auto &&[key, value] : obj) if (key == k) return ...]
    over an object stored as a list of members in iteration order. *)
Fixpoint find_first {A} (k : string) (l : list (string * A)) : option A :=
  match l with
  | [] => None
  | (k', v) :: l' => if String.eqb k' k then Some v else find_first k l'
  end.

(** The loop finds what a map built from the members finds, because
    [list_to_map] also keeps the first occurrence of a key. *)
Lemma find_first_list_to_map {A} k (l : list (string * A)) :
  find_first k l = (list_to_map l : gmap string A) !! k.
Proof.
  induction l as [|[k' v] l IH]; simpl; [by rewrite lookup_empty|].
  destruct (String.eqb_spec k' k) as [->|Hne].
  - by rewrite lookup_insert_eq.
  - rewrite lookup_insert_ne; congruence.
Qed.

Lemma find_first_Some_elem {A} k (l : list (string * A)) v :
  find_first k l = Some v -> (k, v) ∈ l.
Proof.
  induction l as [|[k' v'] l IH]; simpl; [discriminate|].
  destruct (String.eqb_spec k' k) as [->|]; intros H.
  - injection H as ->. left.
  - right. auto.
Qed.

Lemma find_first_None {A} k (l : list (string * A)) :
  find_first k l = None <-> k ∉ l.*1.
Proof.
  induction l as [|[k' v'] l IH]; simpl.
  - split; [intros _; apply not_elem_of_nil | done].
  - destruct (String.eqb_spec k' k) as [->|Hne].
    + split; [discriminate | intros H; exfalso; apply H; left].
    + rewrite IH, elem_of_cons. naive_solver.
Qed.

(** Members with pairwise distinct keys (a [std::map]) give the same
    answer in any iteration order. *)
Lemma find_first_perm {A} k (l1 l2 : list (string * A)) :
  NoDup l1.*1 -> l1 ≡ₚ l2 -> find_first k l1 = find_first k l2.
Proof.
  intros Hnd Hp. rewrite !find_first_list_to_map.
  f_equal. by apply list_to_map_proper.
Qed.

(** ** Two's-complement integers *)

Definition two64 : Z := 18446744073709551616.
Definition two63 : Z := 9223372036854775808.

(** The values of [std::int64_t] and [std::uint64_t]. *)
Definition in_int64 (z : Z) : Prop := (- two63 <= z < two63)%Z.
Definition in_uint64 (z : Z) : Prop := (0 <= z < two64)%Z.

(** The conversion [static_cast<std::uint64_t>(z)] and the usual
    arithmetic conversion of a signed operand compared with an unsigned
    one: reduction modulo 2^64. *)
Definition to_uint64 (z : Z) : Z := (z mod two64)%Z.

Lemma to_uint64_range z : in_uint64 (to_uint64 z).
Proof. unfold in_uint64, to_uint64, two64. split; [apply Z.mod_pos_bound | apply Z.mod_pos_bound]; lia. Qed.

Lemma to_uint64_nonneg z : in_uint64 z -> to_uint64 z = z.
Proof. unfold in_uint64, to_uint64. intros. by apply Z.mod_small. Qed.

Lemma to_uint64_neg z : in_int64 z -> (z < 0)%Z -> to_uint64 z = (z + two64)%Z.
Proof.
  unfold in_int64, to_uint64, two63, two64. intros [Hlo _] Hneg.
  rewrite <- (Z.mod_add z 1) by lia.
  apply Z.mod_small. lia.
Qed.

#[export] Hint Resolve to_uint64_range : jwt.
