(* ===== verification/Http.v ===== *)
(** * Http: HTTP errors, exceptions and the response text

    Models [src/src/HttpError.hpp] (the exception a request handler
    throws to answer with an HTTP status) and the two functions of
    [src/src/Server.cpp] that turn an exception into bytes on the wire:
    the [catch] clauses of [Server::beginRequestHandler] and
    [Server::sendResponse]. C++ exceptions are values of [exn]: an
    [HttpError] or any other [std::exception], of which only [what()]
    is observable. *)

From Stdlib Require Import String Ascii.
From stdpp Require Import base list strings.
From S2P Require Import Prelude.

Local Open Scope string_scope.

(** ** HttpError *)

(** The object [HttpError] holds: the [std::runtime_error] base with
    its [what()] text, the owned strings [_responseCode] and
    [_responseData]. Its third member, [_extraHeaderFiels], is a
    [std::string_view] of the constructor's argument: it views the
    provider's [_wwwAuthernicateHeader] at most throw sites, but at the
    ["400 Bad Request"] sites of [checkAuthentication] the argument is
    a temporary built by [cat], and the view dangles once the
    constructor returns. Its accessor [extraHeaderFiels()] is never
    called, and the member is not modelled; what the extra fields
    contribute is copied into [_responseData] by the constructor. *)
Record HttpError := HttpErrorObj {
  _responseCode : string;
  _responseData : string;
  _what : string
}.

(** [HttpError(responseCode, message, extraHeaderFiels)]: the base is
    [std::runtime_error(cat("HTTP error ", responseCode, ": ", message))],
    [_responseCode(responseCode)] and
    [_responseData(cat(message, " \r\n", extraHeaderFiels, "\r\n"))]. *)
Definition mkHttpError (responseCode message extraHeaderFiels : string) : HttpError :=
  HttpErrorObj responseCode (message ++ " " ++ crlf ++ extraHeaderFiels ++ crlf)
    ("HTTP error " ++ responseCode ++ ": " ++ message).

Definition responseCode (e : HttpError) : string := _responseCode e.

Definition responseData (e : HttpError) : string := _responseData e.

(** [std::runtime_error::what()] of an [HttpError]. *)
Definition http_what (e : HttpError) : string := _what e.

(** ** Exceptions *)

Inductive exn :=
| HttpErr (e : HttpError)
| StdErr (what : string).

(** [std::exception::what()] of an exception. *)
Definition what (x : exn) : string :=
  match x with
  | HttpErr e => http_what e
  | StdErr w => w
  end.

(** ** Responses *)

(** [Server::sendResponse(connection, responseCode, responseData,
    extraHeaderFiels)]: the bytes written to the connection. *)
Definition sendResponse (code data extra : string) : string :=
  "HTTP/1.1 " ++ code ++ crlf ++ extra ++ "Content-Length: "
    ++ dec_of_nat (String.length data) ++ crlf
    ++ "Content-Type: text/plain" ++ crlf ++ crlf
    ++ (if String.eqb data "" then "" else data).

(** The [catch] clauses of [Server::beginRequestHandler]: an
    [HttpError] answers with its code and data, any other exception
    with [507] and its message. Neither passes extra header fields. *)
Definition respond_exn (x : exn) : string :=
  match x with
  | HttpErr e => sendResponse (responseCode e) (responseData e) ""
  | StdErr w => sendResponse "507 Internal Server Error" w ""
  end.

(** ** Reading a response back

    What an HTTP client does with the bytes: the status line up to the
    first CRLF, then header fields [name: value] one per line up to an
    empty line, then the body. *)

Definition cr_chr : ascii := chr 13.
Definition lf_chr : ascii := chr 10.

(** The line up to the first CRLF, and the rest after it. *)
Fixpoint split_crlf (s : string) : option (string * string) :=
  match s with
  | EmptyString => None
  | String c s' =>
      match s' with
      | String d rest =>
          if Ascii.eqb c cr_chr && Ascii.eqb d lf_chr then Some ("", rest)
          else match split_crlf s' with
               | Some (l, r) => Some (String c l, r)
               | None => None
               end
      | EmptyString => None
      end
  end.

(** A header field line [name: value]. *)
Fixpoint split_field (line : string) : option (string * string) :=
  match line with
  | EmptyString => None
  | String c s' =>
      if Ascii.eqb c ":" then
        match s' with String " " v => Some ("", v) | _ => None end
      else match split_field s' with
           | Some (n, v) => Some (String c n, v)
           | None => None
           end
  end.

(** The header fields up to the empty line, and the body; the fuel is
    the length of the text, one line at least per turn. *)
Fixpoint parse_fields (fuel : nat) (s : string) : option (list (string * string) * string) :=
  match fuel with
  | O => None
  | S fuel' =>
      match split_crlf s with
      | None => None
      | Some (line, rest) =>
          if String.eqb line "" then Some ([], rest)
          else match split_field line with
               | None => None
               | Some field =>
                   match parse_fields fuel' rest with
                   | Some (fields, body) => Some (field :: fields, body)
                   | None => None
                   end
               end
      end
  end.

Definition parse_response (s : string) : option (string * list (string * string) * string) :=
  match split_crlf s with
  | None => None
  | Some (status, rest) =>
      if starts_with "HTTP/1.1 " status then
        match parse_fields (String.length rest) rest with
        | Some (fields, body) => Some (str_drop 9 status, fields, body)
        | None => None
        end
      else None
  end.

(** A text without a carriage return. *)
Fixpoint no_cr (s : string) : bool :=
  match s with
  | EmptyString => true
  | String c s' => negb (Ascii.eqb c cr_chr) && no_cr s'
  end.

(** A well-formed response: a status line, exactly the header fields
    [Content-Length] and [Content-Type], and a body of the length the
    first announces. *)
Definition wf_response (r : string) : Prop :=
  exists code len body,
    parse_response r = Some (code, [("Content-Length", len); ("Content-Type", "text/plain")], body) /\
    nat_of_dec len = Some (String.length body).

(** An exception whose response code can stand in a status line. *)
Definition exn_ok (x : exn) : Prop :=
  match x with
  | HttpErr e => no_cr (responseCode e) = true
  | StdErr _ => True
  end.

(** ** Lemmas *)

#[local] Arguments String.append : simpl nomatch.

Lemma no_cr_app a b : no_cr (a ++ b) = no_cr a && no_cr b.
Proof. induction a as [|c a IH]; simpl; [done|]. rewrite IH. by destruct (Ascii.eqb c cr_chr), (no_cr a). Qed.

Lemma no_cr_dec_of_nat n : no_cr (dec_of_nat n) = true.
Proof. unfold dec_of_nat. induction (Nat.to_uint n); simpl; auto. Qed.

Lemma split_crlf_app l r : no_cr l = true -> split_crlf (l ++ crlf ++ r) = Some (l, r).
Proof.
  induction l as [|c l IH]; intros Hl; [reflexivity|].
  simpl in Hl. apply andb_prop in Hl as [Hc Hl]. apply negb_true_iff in Hc.
  rewrite append_cons. cbn [split_crlf].
  destruct (l ++ crlf ++ r) as [|d rest] eqn:E.
  { apply (f_equal String.length) in E. rewrite !length_append in E. simpl in E. lia. }
  rewrite Hc. cbn [andb]. rewrite IH by exact Hl. reflexivity.
Qed.

(** The header fields [sendResponse] writes without extra fields, read
    back, with the body after them. *)
Lemma parse_fields_sendResponse f len data :
  no_cr len = true ->
  parse_fields (S (S (S f)))
    ("Content-Length: " ++ len ++ crlf ++ "Content-Type: text/plain" ++ crlf ++ crlf ++ data)
  = Some ([("Content-Length", len); ("Content-Type", "text/plain")], data).
Proof.
  intros Hlen. cbn [parse_fields].
  rewrite (append_assoc "Content-Length: " len), split_crlf_app by (rewrite no_cr_app, Hlen; reflexivity).
  rewrite split_crlf_app by reflexivity.
  reflexivity.
Qed.

Lemma parse_sendResponse code data :
  no_cr code = true ->
  parse_response (sendResponse code data "")
  = Some (code, [("Content-Length", dec_of_nat (String.length data)); ("Content-Type", "text/plain")], data).
Proof.
  intros Hcode. unfold sendResponse, parse_response.
  replace (if String.eqb data "" then "" else data) with data
    by (destruct (String.eqb_spec data ""); congruence).
  rewrite (append_assoc "HTTP/1.1 " code), split_crlf_app by (rewrite no_cr_app, Hcode; reflexivity).
  rewrite starts_with_app, append_empty.
  set (rest := "Content-Length: " ++ _).
  assert (Hlen : exists f, String.length rest = S (S (S f))).
  { unfold rest. rewrite length_append. simpl. eexists. reflexivity. }
  destruct Hlen as [f ->]. unfold rest.
  rewrite parse_fields_sendResponse by apply no_cr_dec_of_nat.
  change 9%nat with (String.length "HTTP/1.1 "). rewrite str_drop_app. reflexivity.
Qed.

Lemma sendResponse_wf code data : no_cr code = true -> wf_response (sendResponse code data "").
Proof.
  intros Hc. exists code, (dec_of_nat (String.length data)), data.
  rewrite parse_sendResponse by exact Hc. split; [reflexivity | apply nat_of_dec_of_nat].
Qed.

Lemma respond_exn_wf x : exn_ok x -> wf_response (respond_exn x).
Proof. destruct x; simpl; intros Hx; apply sendResponse_wf; [exact Hx | reflexivity]. Qed.

(** ** Theorems *)

(** C39: a client reads the bytes [sendResponse] writes without extra
    header fields back as the status code, exactly the two header
    fields [Content-Length] and [Content-Type], and the data as the
    body, whose length [Content-Length] announces. *)
Theorem sendResponse_roundtrip code data :
  no_cr code = true ->
  exists len,
    parse_response (sendResponse code data "")
      = Some (code, [("Content-Length", len); ("Content-Type", "text/plain")], data) /\
    nat_of_dec len = Some (String.length data).
Proof.
  intros Hcode. exists (dec_of_nat (String.length data)).
  rewrite parse_sendResponse by exact Hcode. split; [reflexivity | apply nat_of_dec_of_nat].
Qed.

(** The witness of [sendResponse_roundtrip]: the greeting. *)
Lemma sendResponse_roundtrip_witness :
  no_cr "200 OK" = true /\
  exists len,
    parse_response (sendResponse "200 OK" "Hello from Xentara!" "")
      = Some ("200 OK", [("Content-Length", len); ("Content-Type", "text/plain")], "Hello from Xentara!") /\
    nat_of_dec len = Some 19%nat.
Proof.
  split; [reflexivity|]. exact (sendResponse_roundtrip "200 OK" "Hello from Xentara!" eq_refl).
Defined.
