(* ===== verification/Json.v ===== *)
(** * Json: picojson values and the decoded token of jwt-cpp

    jwt-cpp (with its picojson traits) is a library the sources call;
    this file models the part of its data and accessors the code of
    [src/src/OpenIdAuthenticationProvider.cpp] and the two verifiers
    use: a JSON value ([picojson::value], of which a claim's [to_json()]
    is a copy), its [to_str()], [is<T>()] tests and the throwing
    accessors [as_int()] and [as_string()], and the decoded token with
    its header and payload objects. A [std::map] object is a list of
    members in iteration order with pairwise distinct keys
    ([wf_object]). A double is identified by the text [to_str()] prints
    for it; integers are [int64] (jwt-cpp builds picojson with
    [PICOJSON_USE_INT64]). *)

From Stdlib Require Import ZArith String Ascii.
From stdpp Require Import base list gmap strings.
From S2P Require Import Prelude Http.

Local Open Scope string_scope.
#[local] Set Warnings "-register-all".

(** ** Values *)

Inductive value :=
| VNull
| VBool (b : bool)
| VInt64 (z : Z)
| VNumber (repr : string)
| VString (s : string)
| VArray (a : list value)
| VObject (o : list (string * value)).

(** The members of a [std::map<std::string, value>]: distinct keys. *)
Definition wf_object {A} (o : list (string * A)) : Prop := NoDup o.*1.

(** Signed decimal, as [snprintf("%" PRId64)] prints it. *)
Definition dec_of_Z (z : Z) : string :=
  if (z <? 0)%Z then "-" ++ dec_of_nat (Z.to_nat (- z)) else dec_of_nat (Z.to_nat z).

(** [picojson::value::to_str()]: a string is returned as it is, any
    other value as a fixed word or its number text. *)
Definition to_str (v : value) : string :=
  match v with
  | VNull => "null"
  | VBool b => if b then "true" else "false"
  | VInt64 z => dec_of_Z z
  | VNumber r => r
  | VString s => s
  | VArray _ => "array"
  | VObject _ => "object"
  end.

(** [value.is<std::string>()] and [value.is<picojson::array>()]. *)
Definition is_string (v : value) : bool :=
  match v with VString _ => true | _ => false end.

Definition is_array (v : value) : bool :=
  match v with VArray _ => true | _ => false end.

(** The exceptions jwt-cpp throws from a claim accessor. *)
Definition bad_cast : exn := StdErr "std::bad_cast".
Definition claim_not_present : exn := StdErr "claim not found".

(** [basic_claim::as_int()]: the [int64] of an integer claim; any other
    value throws [std::bad_cast]. *)
Definition as_int (v : value) : res exn Z :=
  match v with
  | VInt64 z => Ok z
  | _ => Err bad_cast
  end.

(** [basic_claim::as_string()]. *)
Definition as_string (v : value) : res exn string :=
  match v with
  | VString s => Ok s
  | _ => Err bad_cast
  end.

(** ** The decoded token *)

(** [jwt::decoded_jwt]: the header and payload objects and the raw
    parts of the compact serialization the signature covers. *)
Record token := mkToken {
  tok_header : list (string * value);
  tok_payload : list (string * value);
  tok_header_base64 : string;
  tok_payload_base64 : string;
  tok_signature : string
}.

Definition wf_token (t : token) : Prop :=
  wf_object (tok_header t) /\ wf_object (tok_payload t).

#[export] Instance wf_object_dec {A} (o : list (string * A)) : Decision (wf_object o).
Proof. unfold wf_object. apply _. Defined.

#[export] Instance wf_token_dec (t : token) : Decision (wf_token t).
Proof. unfold wf_token. apply _. Defined.

(** [get_payload_claims()] iterates the payload object. *)
Definition get_payload_claims (t : token) : list (string * value) := tok_payload t.

(** [has_payload_claim(name)]. *)
Definition has_payload_claim (t : token) (name : string) : bool :=
  match find_first name (tok_payload t) with Some _ => true | None => false end.

(** [get_payload_claim(name)]: throws when the claim is absent. *)
Definition get_payload_claim (t : token) (name : string) : res exn value :=
  match find_first name (tok_payload t) with
  | Some v => Ok v
  | None => Err claim_not_present
  end.

Definition get_header_claim (t : token) (name : string) : res exn value :=
  match find_first name (tok_header t) with
  | Some v => Ok v
  | None => Err claim_not_present
  end.

(** [get_key_id()] and [get_algorithm()]: the ["kid"] and ["alg"]
    header claims as strings. *)
Definition get_key_id (t : token) : res exn string :=
  res_bind (get_header_claim t "kid") as_string.

Definition get_algorithm (t : token) : res exn string :=
  res_bind (get_header_claim t "alg") as_string.

(** The bytes the signature is computed over:
    [header_base64 + "." + payload_base64]. *)
Definition signed_data (t : token) : string :=
  tok_header_base64 t ++ "." ++ tok_payload_base64 t.

(** ** The configuration decoder

    Xentara's [utils::json::decoder] reads the configuration document
    (a JSON object, members in document order, repeated keys kept) and
    throws a configuration error when a member has the wrong type.
    Configuration errors are their messages. *)

Definition config_error := string.

Definition asString (v : value) : res config_error string :=
  match v with VString s => Ok s | _ => Err "expected a string" end.

Definition asArray (v : value) : res config_error (list value) :=
  match v with VArray a => Ok a | _ => Err "expected an array" end.

Definition asObject (v : value) : res config_error (list (string * value)) :=
  match v with VObject o => Ok o | _ => Err "expected an object" end.

(** [config::throwUnknownParameterError(key)]. *)
Definition unknownParameterError (key : string) : config_error :=
  "unknown parameter " ++ dq ++ key ++ dq.

(** ** Lemmas *)

Lemma to_str_string s : to_str (VString s) = s.
Proof. reflexivity. Qed.

Lemma as_int_Ok v z : as_int v = Ok z <-> v = VInt64 z.
Proof. destruct v; simpl; split; intros H; congruence. Qed.

Lemma get_payload_claim_Ok t name v :
  get_payload_claim t name = Ok v <-> find_first name (tok_payload t) = Some v.
Proof.
  unfold get_payload_claim. destruct (find_first _ _); split; congruence.
Qed.

Lemma has_payload_claim_true t name :
  has_payload_claim t name = true <-> exists v, find_first name (tok_payload t) = Some v.
Proof.
  unfold has_payload_claim. destruct (find_first _ _) as [v|]; split; try by eauto.
  intros [v Hv]; discriminate.
Qed.

#[export] Hint Rewrite to_str_string : jwt_rw.
