(* ===== verification/JwtLib.v ===== *)
(** * JwtLib: the interface of jwt-cpp the verifiers rely on

    jwt-cpp is a library the sources only call. What the repository's
    code needs from it is stated here as a typeclass [JwtLibrary]:
    decoding a compact token, constructing an algorithm object from a
    key (which throws on a malformed key), the cryptographic signature
    check, the default time-claim checks of [jwt::verify()], JWKS
    parsing and the DER-to-PEM conversion. The laws are what jwt-cpp
    documents and the proofs of the other files use. The verifier
    object [jwt::verify().allow_algorithm(alg)] and its [verify(token,
    error_code)] are written out from jwt-cpp's code: the token's
    ["alg"] header must name the allowed algorithm, then the signature
    is checked, and only then the time claims, which can only report
    [token_expired]. Its result is a [std::error_code]: a category
    ([token_verification_error] or [signature_verification_error]) and
    an [int] value, with the values of jwt-cpp's enumerations
    ([token_verification_error::ok] = 0, [wrong_algorithm] = 10,
    [token_expired] = 14; [signature_verification_error::
    invalid_signature] = 10, [verifyfinal_failed] = 14). Which value a
    failed signature check reports depends on the algorithm
    ([signature_error]): the HMAC algorithms report
    [invalid_signature], the RSA ones of jwt-cpp [verifyfinal_failed].
    A toy instance [toy_jwt_with] discharges the laws and runs the
    examples. *)

From Stdlib Require Import ZArith String Ascii.
From stdpp Require Import base list gmap strings.
From S2P Require Import Prelude Http Json.

Local Open Scope string_scope.

(** ** Algorithms *)

(** The algorithm classes of [jwt::algorithm] the sources instantiate. *)
Inductive algorithm :=
| RS256 | RS384 | RS512
| HS256 | HS384 | HS512
| ES256 | ES256K | ES384 | ES512
| PS256 | PS384 | PS512
| ED25519 | ED448.

#[export] Instance algorithm_eq_dec : EqDecision algorithm.
Proof. solve_decision. Defined.

(** [Algorithm::name()], the name the verifier registers it under and
    compares with the token's ["alg"] header. Both Edwards curves are
    named ["EdDSA"] by jwt-cpp. *)
Definition alg_name (a : algorithm) : string :=
  match a with
  | RS256 => "RS256" | RS384 => "RS384" | RS512 => "RS512"
  | HS256 => "HS256" | HS384 => "HS384" | HS512 => "HS512"
  | ES256 => "ES256" | ES256K => "ES256K" | ES384 => "ES384" | ES512 => "ES512"
  | PS256 => "PS256" | PS384 => "PS384" | PS512 => "PS512"
  | ED25519 => "EdDSA" | ED448 => "EdDSA"
  end.

(** [std::error_code]: a category and an integer [value()]. jwt-cpp
    reports codes of two categories, [token_verification_error] and
    [signature_verification_error]; their values overlap, and the
    verifiers of [src/src] compare [value()] alone. *)
Inductive error_category := token_verification_category | signature_verification_category.

#[export] Instance error_category_eq_dec : EqDecision error_category.
Proof. solve_decision. Defined.

Record error_code := mkErrorCode {
  ec_category : error_category;
  ec_value : Z
}.

(** The codes of [jwt::error::token_verification_error] that
    [verify] reports: [ok = 0], [wrong_algorithm = 10],
    [token_expired = 14]. *)
Definition tve_ok : error_code := mkErrorCode token_verification_category 0.
Definition tve_wrong_algorithm : error_code := mkErrorCode token_verification_category 10.
Definition tve_token_expired : error_code := mkErrorCode token_verification_category 14.

(** [jwt::error::signature_verification_error::invalid_signature = 10]
    and [verifyfinal_failed = 14]: the second has the value of
    [token_expired]. *)
Definition sve_invalid_signature : Z := 10.
Definition sve_verifyfinal_failed : Z := 14.

(** ** The library *)

Class JwtLibrary := {
  (** [jwt::decode]: [None] when it throws. Its objects are
      [std::map]s, so their keys are distinct. *)
  jwt_decode : string -> option token;
  jwt_decode_wf s t : jwt_decode s = Some t -> wf_token t;
  (** The constructor [Algorithm(key)] succeeds. *)
  key_valid : algorithm -> string -> bool;
  (** The algorithm's [verify(data, signature)] with the given key. *)
  signature_valid : algorithm -> string -> string -> string -> bool;
  (** The value of the [signature_verification_error] the algorithm's
      [verify] reports for a signature that does not verify: never
      [ok]; [invalid_signature] for the HMAC algorithms
      ([hmacsha::verify]). jwt-cpp's RSA [verify] reports
      [verifyfinal_failed]. *)
  signature_error : algorithm -> Z;
  signature_error_nonzero a : signature_error a <> 0%Z;
  signature_error_hmac a :
    a = HS256 \/ a = HS384 \/ a = HS512 -> signature_error a = sve_invalid_signature;
  (** [std::error_code::message()]. *)
  error_message : error_code -> string;
  (** The default claim checks of [jwt::verify()] at time [now]
      ([exp], [iat], [nbf]), which report [token_expired] or nothing. *)
  time_claims_check : Z -> token -> res exn error_code;
  time_claims_check_codes now t c :
    time_claims_check now t = Ok c -> c = tve_ok \/ c = tve_token_expired;
  (** [jwt::parse_jwks]: the key objects of a JWKS document. *)
  parse_jwks : string -> res exn (list (list (string * value)));
  (** [jwt::helper::convert_base64_der_to_pem]. *)
  convert_base64_der_to_pem : string -> res exn string
}.

Section Verifier.
Context `{JwtLibrary}.

(** [jwt::verify().allow_algorithm(Algorithm(key))]: a verifier that
    allows exactly one algorithm object. *)
Record verifier := mkVerifier {
  ver_alg : algorithm;
  ver_key : string
}.

(** [verifier::verify(token, error_code)]: the error code it sets. A
    throw of an accessor is an [Err]. *)
Definition lib_verify (v : verifier) (now : Z) (t : token) : res exn error_code :=
  let* alg := get_algorithm t in
  if String.eqb alg (alg_name (ver_alg v)) then
    if signature_valid (ver_alg v) (ver_key v) (signed_data t) (tok_signature t)
    then time_claims_check now t
    else Ok (mkErrorCode signature_verification_category (signature_error (ver_alg v)))
  else Ok tve_wrong_algorithm.

(** What a code of [verify] whose value is that of [ok] or
    [token_expired] establishes: the token names the verifier's
    algorithm, and its signature verifies with the key, or it does not
    and the algorithm reports that failure with the value of
    [token_expired]. *)
Definition signature_passes (v : verifier) (t : token) : Prop :=
  get_algorithm t = Ok (alg_name (ver_alg v)) /\
  (signature_valid (ver_alg v) (ver_key v) (signed_data t) (tok_signature t) = true \/
   signature_error (ver_alg v) = ec_value tve_token_expired).

End Verifier.

(** ** A toy instance *)

(** A signature is valid when it is the key followed by the signed data
    (an HMAC stand-in); a key is malformed when it is empty; a token is
    expired when its ["exp"] is an integer before [now]. A signature
    failure is reported as jwt-cpp does: [verifyfinal_failed] by the
    RSA and RSA-PSS algorithms, [invalid_signature] by the others. *)
Definition toy_time_check (now : Z) (t : token) : res exn error_code :=
  match find_first "exp" (tok_payload t) with
  | Some (VInt64 e) => Ok (if (now >? e)%Z then tve_token_expired else tve_ok)
  | Some _ => Err bad_cast
  | None => Ok tve_ok
  end.

Definition toy_signature_error (a : algorithm) : Z :=
  match a with
  | RS256 | RS384 | RS512 | PS256 | PS384 | PS512 => sve_verifyfinal_failed
  | _ => sve_invalid_signature
  end.

Lemma toy_signature_error_nonzero a : toy_signature_error a <> 0%Z.
Proof. by destruct a. Qed.

Lemma toy_signature_error_hmac a :
  a = HS256 \/ a = HS384 \/ a = HS512 -> toy_signature_error a = sve_invalid_signature.
Proof. intros [H|[H|H]]; subst; reflexivity. Qed.

Lemma toy_time_check_codes now t c :
  toy_time_check now t = Ok c -> c = tve_ok \/ c = tve_token_expired.
Proof.
  unfold toy_time_check.
  destruct (find_first _ _) as [[]|]; intros Hc; try discriminate;
    injection Hc as <-; try destruct (_ >? _)%Z; auto.
Qed.

(** The library with a table of decodable tokens and of JWKS
    documents, as a test harness would set it up. *)
Definition toy_decode (tokens : list (string * token)) (s : string) : option token :=
  match find_first s tokens with
  | Some t => if decide (wf_token t) then Some t else None
  | None => None
  end.

Lemma toy_decode_wf tokens s t : toy_decode tokens s = Some t -> wf_token t.
Proof.
  unfold toy_decode. destruct (find_first s tokens) as [t'|]; [|discriminate].
  case_decide; [intros [= <-]; done | discriminate].
Qed.

Definition toy_jwt_with (tokens : list (string * token))
    (jwks : list (string * list (list (string * value)))) : JwtLibrary := {|
  jwt_decode := toy_decode tokens;
  jwt_decode_wf := toy_decode_wf tokens;
  key_valid a k := negb (String.eqb k "");
  signature_valid a k data sig := String.eqb sig (k ++ data);
  signature_error := toy_signature_error;
  signature_error_nonzero := toy_signature_error_nonzero;
  signature_error_hmac := toy_signature_error_hmac;
  error_message ec := "verification error";
  time_claims_check := toy_time_check;
  time_claims_check_codes := toy_time_check_codes;
  parse_jwks s := match find_first s jwks with
                  | Some ks => Ok ks
                  | None => Err (StdErr "invalid json")
                  end;
  convert_base64_der_to_pem s := Ok s
|}.
