(* ===== verification/Registry.v ===== *)
(** * Registry: the algorithm registry [TokenVerifierFactory]

    Models [src/src/TokenVerifierFactory.hpp] and
    [src/src/TokenVerifierFactory.cpp]: the fifteen factory objects
    [kRS256] ... [kED448] (one per [algorithm]), the static table
    [kFactories] built from an initializer list, the lookup
    [TokenVerifierFactory::factory(name)], the abstract class
    [TokenVerifierFactory] as the typeclass of the same name and its
    implementation [ConcreteTokenVerifierFactory<Algorithm>] (whose
    [create(key)] is [create]) as an instance; the verifiers call
    [create] through the class.

    The initializer list names ["RS256"] twice, the second time for
    [kRS384]. A [std::unordered_map] built from an initializer list
    inserts the entries in order and an insertion of a key already
    present does nothing, so the first entry wins: [unordered_map_of]
    writes this out, and the theorems show what it means for the
    table: ["RS384"] is unknown, and the factory [kRS384] is unreachable
    by any name. *)

From Stdlib Require Import ZArith String Ascii.
From stdpp Require Import base list gmap strings.
From S2P Require Import Prelude Http Json JwtLib.

Local Open Scope string_scope.

(** ** The table *)

(** [std::unordered_map(std::initializer_list)]: entries inserted in
    order; an entry whose key is present is dropped. *)
Definition unordered_map_of {A} (l : list (string * A)) : gmap string A :=
  foldl (fun m '(k, v) => match m !! k with
                          | Some _ => m
                          | None => <[k := v]> m
                          end) ∅ l.

(** The initializer list of [TokenVerifierFactory::kFactories], entry
    for entry; [algorithm] names the factory object [kXX]. *)
Definition kFactories_init : list (string * algorithm) := [
  ("RS256", RS256); ("RS256", RS384); ("RS512", RS512);
  ("HS256", HS256); ("HS384", HS384); ("HS512", HS512);
  ("ES256", ES256); ("ES256K", ES256K); ("ES384", ES384); ("ES512", ES512);
  ("PS256", PS256); ("PS384", PS384); ("PS512", PS512);
  ("ED25519", ED25519); ("ED448", ED448)].

Definition kFactories : gmap string algorithm := unordered_map_of kFactories_init.

(** [TokenVerifierFactory::factory(algorithmName)]: the factory
    registered under the name, or [nullptr]. *)
Definition factory (algorithmName : string) : option algorithm :=
  kFactories !! algorithmName.

(** The abstract class [TokenVerifierFactory]: a factory object
    creates a verifier from a key. The verifiers hold a
    [std::reference_wrapper<const TokenVerifierFactory>] and call
    [create] through it. *)
Class TokenVerifierFactory (F : Type) := {
  factory_create : F -> string -> res exn verifier
}.

(** [ConcreteTokenVerifierFactory<Algorithm>::create(key)]:
    [jwt::verify().allow_algorithm(Algorithm(key))]; the algorithm's
    constructor throws on a malformed key. *)
Definition create `{JwtLibrary} (a : algorithm) (key : string) : res exn verifier :=
  if key_valid a key then Ok (mkVerifier a key)
  else Err (StdErr "failed to load key").

(** The template [ConcreteTokenVerifierFactory<Algorithm>]: the factory
    objects [kRS256] ... [kED448] are its instances, one per
    [algorithm], so a factory object is identified by its algorithm. *)
#[export] Instance ConcreteTokenVerifierFactory `{JwtLibrary} : TokenVerifierFactory algorithm := {
  factory_create := create
}.

(** ** Lemmas *)

Lemma unordered_map_of_acc {A} (l : list (string * A)) (m : gmap string A) k :
  foldl (fun m '(k, v) => match m !! k with
                          | Some _ => m
                          | None => <[k := v]> m
                          end) m l !! k
  = match m !! k with Some v => Some v | None => find_first k l end.
Proof.
  revert m. induction l as [|[k' v] l IH]; intros m; simpl.
  - by destruct (m !! k).
  - rewrite IH. destruct (m !! k') as [v'|] eqn:Hk'.
    + destruct (String.eqb_spec k' k) as [->|]; [by rewrite Hk'|done].
    + destruct (String.eqb_spec k' k) as [->|Hne].
      * by rewrite lookup_insert_eq, Hk'.
      * by rewrite lookup_insert_ne.
Qed.

Lemma create_Ok `{JwtLibrary} a key v :
  create a key = Ok v <-> key_valid a key = true /\ v = mkVerifier a key.
Proof.
  unfold create. destruct (key_valid a key); split.
  - intros Hc. injection Hc as <-. auto.
  - intros [_ ->]. reflexivity.
  - discriminate.
  - intros [? _]. discriminate.
Qed.

(** The table built from the initializer list answers a lookup as a
    scan of the list that stops at the first entry with that name: for
    a name listed twice, the first factory wins. *)
Lemma factory_spec algorithmName :
  factory algorithmName = find_first algorithmName kFactories_init.
Proof. unfold factory, kFactories, unordered_map_of. by rewrite unordered_map_of_acc, lookup_empty. Qed.

(** ** Theorems *)

(** C33: every factory of the table is reachable by some name except
    [kRS384], which no name reaches: ["RS384"] is unknown and ["RS256"]
    gives [kRS256]. *)
Theorem factory_reachable a :
  (exists algorithmName, factory algorithmName = Some a) <-> a <> RS384.
Proof.
  setoid_rewrite factory_spec. split.
  - intros [n Hn] ->. apply find_first_Some_elem in Hn as Hin. unfold kFactories_init in Hin.
    repeat (apply elem_of_cons in Hin as [Hin|Hin];
            [injection Hin; intros; subst; first [discriminate | vm_compute in Hn; congruence]|]).
    by apply not_elem_of_nil in Hin.
  - intros Hne. destruct a; try done.
    all: match goal with
         | |- exists n, find_first n _ = Some ?a =>
             first [exists (alg_name a); reflexivity
                   | exists "ED25519"; reflexivity
                   | exists "ED448"; reflexivity]
         end.
Qed.

(** C34: a name that jwt-cpp gives an algorithm (the ["alg"] a JWKS key
    or a token carries) finds that algorithm's factory, except for
    [RS384] and the two Edwards curves (jwt-cpp names them ["EdDSA"],
    the table ["ED25519"] and ["ED448"]). *)
Theorem factory_alg_name a :
  factory (alg_name a) = Some a <-> a <> RS384 /\ a <> ED25519 /\ a <> ED448.
Proof.
  rewrite factory_spec.
  destruct a; vm_compute; split; intros H; try done; naive_solver.
Qed.
