(* ===== verification/Challenge.v ===== *)
(** * Challenge: realm and scope checks and the WWW-Authenticate header

    Models the challenge-building part of
    [src/src/OpenIdAuthenticationProvider.cpp]:
    [getScopeError] and [getRealmError] (the load-time checks of the
    configured scopes and realm), [makeRealm] (which escapes every
    backslash and double quote of the realm with a backslash, by an
    index loop that inserts into the string it walks) and
    [buildAuthenticationHeader].

    [makeRealm_loop] is the index loop with fuel; it is shown equal to
    the structural [escape] once the fuel covers the string, which
    [makeRealm] provides. [parse_challenge] reads a header back the way
    an HTTP client reads [auth-param]s (a quoted string with backslash
    escapes, then the scope words); the round-trip theorem shows that
    it recovers the configured realm and scopes. *)

From Stdlib Require Import String Ascii.
From stdpp Require Import base list gmap strings relations.
From S2P Require Import Prelude.

Local Open Scope string_scope.
#[local] Arguments String.append : simpl nomatch.

(** ** Validation *)

Definition msg_empty_scope : string := "can not be empty string".
Definition msg_non_visible : string := "non visible characters not allowed".
Definition msg_space : string :=
  "space charracter (" ++ dq ++ " " ++ dq ++ ") is not allowed".
Definition msg_quote : string :=
  "quote charracter (" ++ dq ++ dq ++ dq ++ ") is not allowed".
Definition msg_backslash : string :=
  "backshlash character (" ++ dq ++ bs ++ dq ++ ") is not allowed".
Definition msg_realm_non_visible : string := "non visible characters are not allowed".

(** The [for (auto &&character : string)] loop of both checks: the
    first character with an error decides the message. *)
Fixpoint first_error (check : ascii -> option string) (s : string) : option string :=
  match s with
  | EmptyString => None
  | String c s' =>
      match check c with
      | Some m => Some m
      | None => first_error check s'
      end
  end.

(** The body of the loop of [getScopeError]. *)
Definition scope_char_error (c : ascii) : option string :=
  if (code c <? 32)%nat then Some msg_non_visible
  else if (code c =? 126)%nat then Some msg_non_visible
  else if (code c =? 32)%nat then Some msg_space
  else if (code c =? 34)%nat then Some msg_quote
  else if (code c =? 92)%nat then Some msg_backslash
  else None.

Definition getScopeError (s : string) : option string :=
  if String.eqb s "" then Some msg_empty_scope
  else first_error scope_char_error s.

(** The body of the loop of [getRealmError]. *)
Definition realm_char_error (c : ascii) : option string :=
  if ((code c <? 32) && negb (code c =? 9))%nat then Some msg_realm_non_visible
  else if (code c =? 126)%nat then Some msg_realm_non_visible
  else None.

Definition getRealmError (s : string) : option string :=
  first_error realm_char_error s.

(** ** Escaping the realm *)

Definition needs_escape (c : ascii) : bool :=
  bool_decide (c = bs_chr) || bool_decide (c = dq_chr).

(** The loop of [makeRealm]: at index [i], a backslash or quote gets a
    backslash inserted before it and the index skips both. *)
Fixpoint makeRealm_loop (fuel i : nat) (realmString : string) : string :=
  match fuel with
  | O => realmString
  | S fuel' =>
      if (String.length realmString <=? i)%nat then realmString
      else match String.get i realmString with
           | Some character =>
               if needs_escape character
               then makeRealm_loop fuel' (S (S i)) (str_insert i bs realmString)
               else makeRealm_loop fuel' (S i) realmString
           | None => realmString
           end
  end.

(** Every turn of the loop consumes one character of the argument, so
    its length is enough fuel. *)
Definition makeRealm (s : string) : string :=
  makeRealm_loop (String.length s) 0 s.

(** The same loop as a transition system on its state
    [(i, realmString)]: [makeRealm_guard] is the condition
    [realmString.size() > i], [makeRealm_body] one turn of the body with
    the [++i] of the [for]. [at(i)] is in range under the guard; out of
    range it would throw [std::out_of_range], which the guard rules out. *)
Definition makeRealm_guard (st : nat * string) : bool :=
  let '(i, realmString) := st in (i <? String.length realmString)%nat.

Definition makeRealm_body (st : nat * string) : nat * string :=
  let '(i, realmString) := st in
  match String.get i realmString with
  | Some character =>
      if needs_escape character then (S (S i), str_insert i bs realmString)
      else (S i, realmString)
  | None => (S i, realmString)
  end.

Definition makeRealm_step (st st' : nat * string) : Prop :=
  makeRealm_guard st = true /\ st' = makeRealm_body st.

(** The reference definition: quoted-string escaping. *)
Fixpoint escape (s : string) : string :=
  match s with
  | EmptyString => EmptyString
  | String c s' =>
      if needs_escape c then String bs_chr (String c (escape s'))
      else String c (escape s')
  end.

(** ** The header *)

(** The scopes, each after a space, as the [for] loop writes them. *)
Definition scopes_text (scopes : list string) : string :=
  foldr (fun scope acc => " " ++ scope ++ acc) "" scopes.

(** [buildAuthenticationHeader], for a realm already passed through
    [makeRealm] and the scopes in the set's iteration order. *)
Definition buildAuthenticationHeader (realm : option string) (scopes : list string) : string :=
  "WWW-Authenticate: Bearer"
    ++ (match realm with
        | Some r => " realm=" ++ dq ++ r ++ dq
        | None => ""
        end)
    ++ " scope=" ++ dq ++ "openid" ++ dq
    ++ scopes_text scopes
    ++ crlf.

(** ** Reading a header back *)

Definition strip_prefix (p s : string) : option string :=
  if starts_with p s then Some (str_drop (String.length p) s) else None.

(** A quoted string's content up to the closing quote, with its
    backslash escapes undone, and the text after it. *)
Fixpoint parse_quoted (s : string) : option (string * string) :=
  match s with
  | EmptyString => None
  | String c s' =>
      if ascii_dec c dq_chr then Some (EmptyString, s')
      else if ascii_dec c bs_chr then
        match s' with
        | EmptyString => None
        | String d s'' =>
            match parse_quoted s'' with
            | Some (x, rest) => Some (String d x, rest)
            | None => None
            end
        end
      else
        match parse_quoted s' with
        | Some (x, rest) => Some (String c x, rest)
        | None => None
        end
  end.

Fixpoint split_on (sep : ascii) (s : string) : list string :=
  match s with
  | EmptyString => [EmptyString]
  | String c s' =>
      if ascii_dec c sep then EmptyString :: split_on sep s'
      else match split_on sep s' with
           | w :: ws => String c w :: ws
           | [] => [String c EmptyString]
           end
  end.

(** The text before a final CR LF. *)
Fixpoint strip_crlf_end (s : string) : option string :=
  match s with
  | EmptyString => None
  | String c s' =>
      if String.eqb s crlf then Some EmptyString
      else match strip_crlf_end s' with
           | Some b => Some (String c b)
           | None => None
           end
  end.

Definition parse_realm (s : string) : option (option string * string) :=
  match strip_prefix (" realm=" ++ dq) s with
  | Some s' =>
      match parse_quoted s' with
      | Some (r, rest) => Some (Some r, rest)
      | None => None
      end
  | None => Some (None, s)
  end.

Definition parse_challenge (h : string) : option (option string * list string) :=
  match strip_prefix "WWW-Authenticate: Bearer" h with
  | None => None
  | Some h1 =>
      match parse_realm h1 with
      | None => None
      | Some (realm, h2) =>
          match strip_prefix (" scope=" ++ dq ++ "openid" ++ dq) h2 with
          | None => None
          | Some h3 =>
              match strip_crlf_end h3 with
              | None => None
              | Some body =>
                  match split_on (chr 32) body with
                  | EmptyString :: l => Some (realm, l)
                  | _ => None
                  end
              end
          end
      end
  end.

(** ** Validation: what the checks accept *)

(** A character a scope may hold: visible ASCII or a byte of a UTF-8
    sequence, and neither space, quote, backslash nor [0x7E]. *)
Definition scope_char_ok (c : ascii) : Prop :=
  (33 <= code c /\ code c <> 34 /\ code c <> 92 /\ code c <> 126)%nat.

(** A character a realm may hold: not a control character other than
    tab, and not [0x7E]. *)
Definition realm_char_ok (c : ascii) : Prop :=
  ((32 <= code c \/ code c = 9) /\ code c <> 126)%nat.

Lemma first_error_None check s :
  first_error check s = None <-> Forall (fun c => check c = None) (list_ascii_of_string s).
Proof.
  induction s as [|c s IH]; simpl; [split; auto|].
  rewrite Forall_cons, <- IH. destruct (check c); naive_solver.
Qed.

Lemma scope_char_error_None c : scope_char_error c = None <-> scope_char_ok c.
Proof.
  unfold scope_char_error, scope_char_ok.
  destruct (Nat.ltb_spec (code c) 32); [split; [discriminate | lia]|].
  destruct (Nat.eqb_spec (code c) 126); [split; [discriminate | lia]|].
  destruct (Nat.eqb_spec (code c) 32); [split; [discriminate | lia]|].
  destruct (Nat.eqb_spec (code c) 34); [split; [discriminate | lia]|].
  destruct (Nat.eqb_spec (code c) 92); [split; [discriminate | lia]|].
  split; [lia | done].
Qed.

Lemma realm_char_error_None c : realm_char_error c = None <-> realm_char_ok c.
Proof.
  unfold realm_char_error, realm_char_ok.
  destruct (Nat.ltb_spec (code c) 32), (Nat.eqb_spec (code c) 9); simpl;
    try (split; [discriminate | lia]);
    (destruct (Nat.eqb_spec (code c) 126); [split; [discriminate | lia] | split; [lia | done]]).
Qed.

(** ** Escaping: the loop computes [escape] *)

Lemma makeRealm_loop_app rest : forall pre fuel,
  (String.length rest <= fuel)%nat ->
  makeRealm_loop fuel (String.length pre) (pre ++ rest) = pre ++ escape rest.
Proof.
  induction rest as [|c rest IH]; intros pre fuel Hfuel.
  - destruct fuel; simpl; [done|].
    rewrite length_append; simpl.
    by rewrite (proj2 (Nat.leb_le _ _)) by lia.
  - destruct fuel as [|fuel]; simpl in Hfuel; [lia|]. simpl.
    rewrite length_append; simpl.
    rewrite (proj2 (Nat.leb_gt _ _)) by lia.
    rewrite get_app_length.
    destruct (needs_escape c).
    + rewrite str_insert_app by done.
      pose proof (IH (pre ++ String bs_chr (String c "")) fuel ltac:(lia)) as H.
      rewrite length_append in H; simpl in H.
      replace (String.length pre + 2)%nat with (S (S (String.length pre))) in H by lia.
      rewrite <- !append_assoc in H. simpl in H. exact H.
    + pose proof (IH (pre ++ String c "") fuel ltac:(lia)) as H.
      rewrite length_append in H; simpl in H.
      replace (String.length pre + 1)%nat with (S (String.length pre)) in H by lia.
      rewrite <- !append_assoc in H. simpl in H. exact H.
Qed.

(** The loop as a transition system: each turn lowers the number of
    characters left to visit, and the run from index 0 visits every
    character once. *)
Lemma makeRealm_step_measure st st' :
  makeRealm_step st st' ->
  (String.length st'.2 - st'.1 < String.length st.2 - st.1)%nat.
Proof.
  destruct st as [i r]. intros [Hg ->]. simpl in Hg. apply Nat.ltb_lt in Hg. simpl.
  destruct (String.get i r) as [c|]; [destruct (needs_escape c)|]; simpl; [|lia|lia].
  rewrite length_str_insert by lia. simpl. lia.
Qed.

Lemma makeRealm_run rest : forall pre,
  rtc makeRealm_step (String.length pre, pre ++ rest)
    (String.length (pre ++ escape rest), pre ++ escape rest).
Proof.
  induction rest as [|c rest IH]; intros pre; simpl.
  { rewrite append_nil_r. apply rtc_refl. }
  eapply rtc_l.
  { split; [simpl; apply Nat.ltb_lt; rewrite length_append; simpl; lia | reflexivity]. }
  simpl. rewrite get_app_length. destruct (needs_escape c).
  - rewrite str_insert_app by done.
    pose proof (IH (pre ++ String bs_chr (String c ""))) as H.
    rewrite length_append in H; simpl in H. rewrite <- !append_assoc in H. simpl in H.
    replace (String.length pre + 2)%nat with (S (S (String.length pre))) in H by lia. exact H.
  - pose proof (IH (pre ++ String c "")) as H.
    rewrite length_append in H; simpl in H. rewrite <- !append_assoc in H. simpl in H.
    replace (String.length pre + 1)%nat with (S (String.length pre)) in H by lia. exact H.
Qed.

(** ** Reading back *)

Lemma dq_ne_bs : dq_chr <> bs_chr.
Proof. discriminate. Qed.

Lemma parse_quoted_escape r rest :
  parse_quoted (escape r ++ dq ++ rest) = Some (r, rest).
Proof.
  induction r as [|c r IH]; [reflexivity|]. unfold dq in *.
  rewrite append_cons, append_empty in IH. cbn [escape]. unfold needs_escape.
  destruct (decide (c = bs_chr)) as [->|Hbs].
  { rewrite bool_decide_true by done. simpl. by rewrite IH. }
  destruct (decide (c = dq_chr)) as [->|Hdq].
  { rewrite bool_decide_false by apply dq_ne_bs. rewrite bool_decide_true by done.
    simpl. by rewrite IH. }
  rewrite !bool_decide_false by done. simpl.
  destruct (ascii_dec c dq_chr); [done|]. destruct (ascii_dec c bs_chr); [done|].
  by rewrite IH.
Qed.

Lemma strip_crlf_end_app b : strip_crlf_end (b ++ crlf) = Some b.
Proof.
  induction b as [|c b IH]; [reflexivity|]. rewrite append_cons. cbn [strip_crlf_end].
  rewrite IH. destruct (String.eqb_spec (String c (b ++ crlf)) crlf) as [Heq|]; [|done].
  exfalso. apply (f_equal String.length) in Heq. simpl in Heq.
  rewrite length_append in Heq. simpl in Heq. lia.
Qed.

Lemma split_on_app_nosep sep w r hd tl :
  Forall (fun c => c <> sep) (list_ascii_of_string w) ->
  split_on sep r = hd :: tl ->
  split_on sep (w ++ r) = (w ++ hd) :: tl.
Proof.
  intros Hw Hr. induction w as [|c w IH]; simpl in *; [done|].
  apply Forall_cons in Hw as [Hc Hw].
  destruct (ascii_dec c sep); [done|]. by rewrite IH.
Qed.

Lemma split_on_scopes_text (scopes : list string) :
  Forall (fun s => Forall (fun c => c <> chr 32) (list_ascii_of_string s)) scopes ->
  split_on (chr 32) (scopes_text scopes) = "" :: scopes.
Proof.
  induction scopes as [|s scopes IH]; intros Hs; [done|].
  apply Forall_cons in Hs as [Hs Hrest]. simpl.
  erewrite split_on_app_nosep by eauto. by rewrite append_nil_r.
Qed.

Lemma scope_ok_no_space s :
  getScopeError s = None -> Forall (fun c => c <> chr 32) (list_ascii_of_string s).
Proof.
  unfold getScopeError. destruct (String.eqb s ""); [discriminate|].
  rewrite first_error_None. intros H. eapply Forall_impl; [exact H|].
  intros c Hc ->. apply scope_char_error_None in Hc.
  unfold scope_char_ok in Hc. vm_compute in Hc. lia.
Qed.

Lemma strip_prefix_eq p s r : s = p ++ r -> strip_prefix p s = Some r.
Proof. intros ->. unfold strip_prefix. by rewrite starts_with_app, str_drop_app. Qed.

(** ** Theorems *)

(** C31: [getScopeError] accepts a scope exactly when it is not empty
    and every character is a byte of at least [0x21] other than the
    double quote, the backslash and [0x7E]. *)
Theorem getScopeError_None_iff s :
  getScopeError s = None <-> s <> "" /\ Forall scope_char_ok (list_ascii_of_string s).
Proof.
  unfold getScopeError.
  destruct (String.eqb_spec s "") as [->|Hne]; [split; [discriminate | naive_solver]|].
  rewrite first_error_None. split.
  - intros H. split; [done|]. eapply Forall_impl; [exact H|]. apply scope_char_error_None.
  - intros [_ H]. eapply Forall_impl; [exact H|]. apply scope_char_error_None.
Qed.

(** C32: [getRealmError] accepts a realm exactly when none of its
    characters is a control character other than tab or the byte
    [0x7E]. *)
Theorem getRealmError_None_iff s :
  getRealmError s = None <-> Forall realm_char_ok (list_ascii_of_string s).
Proof.
  unfold getRealmError. rewrite first_error_None.
  split; intros H; eapply Forall_impl; try exact H; apply realm_char_error_None.
Qed.

Lemma makeRealm_eq_escape s : makeRealm s = escape s.
Proof. unfold makeRealm. apply (makeRealm_loop_app s ""). done. Qed.

(** A client that reads the header built by
    [buildAuthenticationHeader] (the realm passed through [makeRealm],
    the scopes accepted by [getScopeError]) as a quoted realm followed
    by the scope words gets back exactly the configured realm and
    scopes. *)
Lemma challenge_roundtrip realm scopes :
  Forall (fun s => getScopeError s = None) scopes ->
  parse_challenge (buildAuthenticationHeader (option_map makeRealm realm) scopes)
    = Some (realm, scopes).
Proof.
  intros Hs.
  pose proof (split_on_scopes_text scopes (Forall_impl _ _ _ Hs scope_ok_no_space)) as Hsplit.
  set (rest := " scope=" ++ dq ++ "openid" ++ dq ++ scopes_text scopes ++ crlf).
  assert (Hrest : strip_prefix (" scope=" ++ dq ++ "openid" ++ dq) rest
                  = Some (scopes_text scopes ++ crlf))
    by (apply strip_prefix_eq; unfold rest; by rewrite <- !append_assoc).
  unfold parse_challenge, buildAuthenticationHeader. fold rest.
  rewrite (strip_prefix_eq _ _ (_ ++ rest)) by reflexivity.
  destruct realm as [r|]; simpl option_map; unfold parse_realm.
  - rewrite makeRealm_eq_escape.
    rewrite (strip_prefix_eq _ _ (escape r ++ dq ++ rest)) by (by rewrite <- !append_assoc).
    by rewrite parse_quoted_escape, Hrest, strip_crlf_end_app, Hsplit.
  - rewrite append_empty.
    assert (Hnr : strip_prefix (" realm=" ++ dq) rest = None) by reflexivity.
    by rewrite Hnr, Hrest, strip_crlf_end_app, Hsplit.
Qed.

(** Both checks reject the byte [0x7E] (the tilde, a visible
    character) and accept [0x7F] (DEL), although the comments of both
    loops say they reject "the DEL character"; an instance of
    [getScopeError_None_iff] and [getRealmError_None_iff]. *)
Example checks_reject_tilde_accept_del :
  getRealmError (String (chr 126) "") = Some msg_realm_non_visible /\
  getRealmError (String (chr 127) "") = None /\
  getScopeError (String (chr 126) "") = Some msg_non_visible /\
  getScopeError (String (chr 127) "") = None.
Proof. vm_compute. repeat split. Qed.

(** C30: the index loop of [makeRealm], which inserts into the string
    it walks, computes quoted-string escaping (a backslash before every
    backslash and double quote) with the fuel [makeRealm] gives it, the
    length of its argument, and with any larger fuel: the loop ends
    before the fuel runs out. *)
Theorem makeRealm_escape s :
  makeRealm s = escape s /\
  forall fuel, (String.length s <= fuel)%nat -> makeRealm_loop fuel 0 s = escape s.
Proof.
  split; [unfold makeRealm|intros fuel Hfuel]; apply (makeRealm_loop_app s ""); [done | exact Hfuel].
Qed.

(** C29: the [for] loop of [makeRealm], whose body inserts into the
    string it walks, terminates: no run of [makeRealm_step] is
    infinite, since every turn lowers the number of characters left to
    visit; and the run from index 0 ends, with the guard false, on the
    escaped realm. *)
Theorem makeRealm_loop_terminates :
  well_founded (fun st' st => makeRealm_step st st') /\
  forall s, rtc makeRealm_step (0%nat, s) (String.length (escape s), escape s) /\
            makeRealm_guard (String.length (escape s), escape s) = false.
Proof.
  split.
  - apply (Wf_nat.well_founded_lt_compat _ (fun st => String.length st.2 - st.1)%nat).
    intros st' st. apply makeRealm_step_measure.
  - intros s. split; [exact (makeRealm_run s "")|]. simpl. apply Nat.ltb_irrefl.
Qed.

(** The witness of [makeRealm_escape]: a realm with a quote and a
    backslash, with twice the fuel it needs. *)
Lemma makeRealm_escape_witness :
  makeRealm_loop 10 0 ("a" ++ dq ++ "b" ++ bs) = "a" ++ bs ++ dq ++ "b" ++ bs ++ bs.
Proof.
  rewrite (proj2 (makeRealm_escape _) 10) by (simpl; lia). reflexivity.
Defined.
