(* ===== verification/Claims.v ===== *)
(** * Claims: the claim constraints of the OpenID provider

    Models the claim handling of
    [src/src/OpenIdAuthenticationProvider.cpp]: the configured
    constraints [_claims] (an [std::unordered_map] from claim name to the
    [std::unordered_set] of allowed values, here a [gmap] of [gset]s),
    their loading [loadClaims], and the request-time check
    [checkClaims] with its helpers [checkClaim] and [checkClaimValue].

    [checkClaims] iterates the map and returns at the first entry that
    matches; the iteration order of an [std::unordered_map] is
    unspecified, and the model iterates [map_to_list]. The main theorem
    states the result without any order: the check passes exactly when
    no constraint is configured or some configured claim has, as its
    string value or as a string element of its array value, one of the
    allowed values ([claims_match]). *)

From Stdlib Require Import String Ascii.
From stdpp Require Import base list gmap gmap strings.
From S2P Require Import Prelude Http Json.

Local Open Scope string_scope.

Abbreviation claim_map := (gmap string (gset string)).

(** ** Request time *)

(** [checkClaimValue]: a string that is one of the allowed values. *)
Definition checkClaimValue (value : value) (allowedValues : gset string) : bool :=
  match value with
  | VString s => bool_decide (s ∈ allowedValues)
  | _ => false
  end.

(** [checkClaim]: the claim is absent ([has_payload_claim] is false),
    or its value is an array any element of which passes
    [checkClaimValue], or a single value that passes it. *)
Definition checkClaim (t : token) (claim : string) (allowedValues : gset string) : bool :=
  match find_first claim (get_payload_claims t) with
  | None => false
  | Some value =>
      match value with
      | VArray elements => existsb (fun e => checkClaimValue e allowedValues) elements
      | _ => checkClaimValue value allowedValues
      end
  end.

(** The [for (auto &&claim : _claims)] loop: [true] at the first entry
    that passes [checkClaim]. *)
Fixpoint any_claim (t : token) (entries : list (string * gset string)) : bool :=
  match entries with
  | [] => false
  | (claim, allowed) :: entries' =>
      if checkClaim t claim allowed then true else any_claim t entries'
  end.

Definition access_denied (hdr : string) : exn :=
  HttpErr (mkHttpError "403 invalid scope" "access denied" hdr).

(** [checkClaims]; [hdr] is the provider's [_wwwAuthernicateHeader]. *)
Definition checkClaims (hdr : string) (claims : claim_map) (t : token) : res exn unit :=
  if bool_decide (claims = ∅) then Ok tt
  else if any_claim t (map_to_list claims) then Ok tt
  else Err (access_denied hdr).

(** ** Load time *)

Definition msg_duplicated_claim (key : string) : config_error :=
  "dublicated items in claims not allowed : item " ++ dq ++ key ++ dq ++ " is dublicated".

(** [loadClaims]: every member of the [claims] object names a claim not
    loaded before and holds an array of strings. The map is threaded
    because a second [claims] member of the configuration adds to it. *)
Fixpoint loadClaims (jsonObject : list (string * value)) (claims : claim_map)
    : res config_error claim_map :=
  match jsonObject with
  | [] => Ok claims
  | (key, v) :: members =>
      match claims !! key with
      | Some _ => Err (msg_duplicated_claim key)
      | None =>
          let* titleArray := asArray v in
          let* titles := res_mapM asString titleArray in
          loadClaims members (<[key := list_to_set titles]> claims)
      end
  end.

(** ** Specification *)

(** The values a claim offers: the elements of an array, or itself. *)
Definition claim_values (v : value) : list value :=
  match v with
  | VArray elements => elements
  | _ => [v]
  end.

(** A configured claim matches: the token carries it and offers one of
    its allowed values as a string. *)
Definition claim_matches (t : token) (claim : string) (allowed : gset string) : Prop :=
  exists v s, find_first claim (get_payload_claims t) = Some v /\
              VString s ∈ claim_values v /\ s ∈ allowed.

Definition claims_match (claims : claim_map) (t : token) : Prop :=
  claims = ∅ \/ exists claim allowed, claims !! claim = Some allowed /\ claim_matches t claim allowed.

(** ** Lemmas *)

Lemma checkClaimValue_true v allowed :
  checkClaimValue v allowed = true <-> exists s, v = VString s /\ s ∈ allowed.
Proof.
  destruct v; simpl; try (split; [discriminate | intros (? & ? & _); discriminate]).
  rewrite bool_decide_eq_true. naive_solver.
Qed.

Lemma checkClaim_true t claim allowed :
  checkClaim t claim allowed = true <-> claim_matches t claim allowed.
Proof.
  unfold checkClaim, claim_matches.
  destruct (find_first claim (get_payload_claims t)) as [v|]; [|naive_solver].
  assert (Hv : (match v with
                | VArray elements => existsb (fun e => checkClaimValue e allowed) elements
                | _ => checkClaimValue v allowed
                end = true) <-> exists s, VString s ∈ claim_values v /\ s ∈ allowed).
  { destruct v as [| | | | s | elements | o]; simpl.
    6: { rewrite existsb_exists. setoid_rewrite checkClaimValue_true.
         setoid_rewrite <- list_elem_of_In. naive_solver. }
    all: setoid_rewrite list_elem_of_singleton; try rewrite bool_decide_eq_true; naive_solver. }
  rewrite Hv. naive_solver.
Qed.

Lemma any_claim_true t entries :
  any_claim t entries = true <->
  exists claim allowed, (claim, allowed) ∈ entries /\ claim_matches t claim allowed.
Proof.
  induction entries as [|[claim allowed] entries IH]; simpl.
  - split; [discriminate|]. intros (? & ? & Hin & _). by apply not_elem_of_nil in Hin.
  - destruct (checkClaim t claim allowed) eqn:Hc.
    + split; [intros _|done]. apply checkClaim_true in Hc. exists claim, allowed.
      split; [left|done].
    + rewrite IH. setoid_rewrite elem_of_cons. split; [naive_solver|].
      intros (c & a & [[= -> ->]|Hin] & Hm); [|naive_solver].
      apply checkClaim_true in Hm. congruence.
Qed.

Lemma asString_all_Ok (a : list value) titles :
  res_mapM asString a = Ok titles -> a = map VString titles.
Proof.
  rewrite res_mapM_Ok. induction 1 as [|x y a titles Hx _ IH]; [done|].
  destruct x; try discriminate. injection Hx as ->. by rewrite IH.
Qed.

Lemma map_VString_inj ts1 ts2 : map VString ts1 = map VString ts2 -> ts1 = ts2.
Proof.
  revert ts2. induction ts1 as [|t1 ts1 IH]; intros [|t2 ts2]; simpl; intros H;
    try discriminate; [done|].
  injection H as -> H. f_equal. auto.
Qed.

Lemma loadClaims_step key v members claims m' :
  loadClaims ((key, v) :: members) claims = Ok m' ->
  claims !! key = None /\ exists titles, v = VArray (map VString titles) /\
    loadClaims members (<[key := list_to_set titles]> claims) = Ok m'.
Proof.
  simpl. destruct (claims !! key); [discriminate|]. intros H. res_simpl.
  destruct v; try discriminate. injection Hc as <-.
  split; [done|]. exists a0. split; [f_equal; by apply asString_all_Ok | done].
Qed.

(** ** Theorems *)

Lemma checkClaims_Ok_iff hdr claims t :
  checkClaims hdr claims t = Ok tt <-> claims_match claims t.
Proof.
  unfold checkClaims, claims_match. case_bool_decide as Hempty; [naive_solver|].
  destruct (any_claim t (map_to_list claims)) eqn:Hany.
  - split; [intros _; right | done].
    apply any_claim_true in Hany as (c & a & Hin & Hm).
    apply elem_of_map_to_list in Hin. eauto.
  - split; [discriminate|].
    intros [?|(c & a & Hc & Hm)]; [done|].
    assert (any_claim t (map_to_list claims) = true) as Htrue; [|congruence].
    apply any_claim_true. exists c, a. split; [by apply elem_of_map_to_list | done].
Qed.

(** C11: [checkClaims] passes exactly when no claim constraint is
    configured or some configured claim offers one of its allowed
    values (its string value, or a string element of its array value),
    whatever the iteration order of the map; otherwise it throws
    ["403 invalid scope"] with ["access denied"]. *)
Theorem checkClaims_spec hdr claims t :
  (checkClaims hdr claims t = Ok tt <-> claims_match claims t) /\
  (checkClaims hdr claims t = Ok tt \/ checkClaims hdr claims t = Err (access_denied hdr)).
Proof.
  split; [apply checkClaims_Ok_iff|].
  unfold checkClaims. case_bool_decide; [by left|]. destruct (any_claim _ _); [by left | by right].
Qed.

(** C38: [loadClaims] succeeds only on an object whose claim names are
    pairwise distinct and not loaded before, each holding an array of
    strings; the loaded map then holds the earlier constraints and, for
    each member, the set of its strings. *)
Theorem loadClaims_Ok jsonObject claims m' :
  loadClaims jsonObject claims = Ok m' ->
  NoDup jsonObject.*1 /\ (forall k, k ∈ jsonObject.*1 -> claims !! k = None) /\
  (forall k allowed, m' !! k = Some allowed <->
     claims !! k = Some allowed \/
     exists titles, (k, VArray (map VString titles)) ∈ jsonObject /\ allowed = list_to_set titles).
Proof.
  revert claims. induction jsonObject as [|[key v] members IH]; intros claims Hl.
  - injection Hl as <-. split; [constructor|]. split; [intros k Hk; by apply not_elem_of_nil in Hk|].
    intros k allowed. setoid_rewrite elem_of_nil. naive_solver.
  - apply loadClaims_step in Hl as (Hfresh & titles & -> & Hl).
    apply IH in Hl as (Hnd & Hnew & Hmap).
    assert (key ∉ members.*1) as Hkey.
    { intros Hin. specialize (Hnew key Hin). by rewrite lookup_insert_eq in Hnew. }
    split; [simpl; by constructor|]. split.
    + intros k [->|Hk]%elem_of_cons; [done|].
      specialize (Hnew k Hk). rewrite lookup_insert_ne in Hnew; [done|]. by intros ->.
    + intros k allowed. rewrite Hmap, lookup_insert. setoid_rewrite elem_of_cons.
      case_decide as Heq; [subst k|]; split.
      * intros [[= <-]|(ts & Hin & ->)]; [naive_solver|].
        exfalso. apply Hkey. exact (list_elem_of_fmap_2 fst _ _ Hin).
      * intros [Hc|(ts & [Heq'|Hin] & ->)]; [congruence| |].
        { injection Heq' as Heq'%map_VString_inj. naive_solver. }
        exfalso. apply Hkey. exact (list_elem_of_fmap_2 fst _ _ Hin).
      * naive_solver.
      * intros [Hc|(ts & [[= -> _]|Hin] & ->)]; naive_solver.
Qed.

(** A [claims] member as the configuration writes it. *)
Definition example_claims_object : list (string * value) :=
  [("groups", VArray [VString "admin"; VString "ops"]); ("role", VArray [VString "reader"])].

Definition example_loaded_claims : claim_map :=
  match loadClaims example_claims_object ∅ with Ok m => m | Err _ => ∅ end.

(** The witness of [loadClaims_Ok]: two claims loaded into an empty
    map. *)
Lemma loadClaims_Ok_witness :
  loadClaims example_claims_object ∅ = Ok example_loaded_claims /\
  NoDup example_claims_object.*1.
Proof.
  assert (H : loadClaims example_claims_object ∅ = Ok example_loaded_claims) by reflexivity.
  split; [exact H | exact (proj1 (loadClaims_Ok _ _ _ H))].
Defined.
