(* ===== verification/Verification.v ===== *)
(** * Verification: the two token verifiers and their interface

    Models [src/src/AbstractTokenVerification.cpp] ([load], [readFile]),
    [src/src/SimpleTokenVerification.cpp] (one algorithm, one key file)
    and [src/src/JwksTokenVerification.cpp] (a key set, one verifier per
    key id). The closed set of implementations of the abstract class
    [AbstractTokenVerification] is the tagged union
    [TokenVerification]; its three virtual functions are [loadConfig]
    (folded into [load]), [initialize] and [verify].

    The interface the OpenID provider relies on is the typeclass
    [TokenVerifier]: [tv_initialize], [tv_verify] and the property
    [tv_trusted] that an accepted token has, with the law
    [tv_verify_sound]. The instances for the two verifiers and for the
    union discharge it; the provider's theorems are proved against the
    class.

    The file system is a function from a path to the file's bytes,
    [None] when the file cannot be opened. A path is absolute when it
    starts with a slash (POSIX [std::filesystem::path::is_absolute]). *)

From Stdlib Require Import ZArith String Ascii.
From stdpp Require Import base list gmap strings.
From S2P Require Import Prelude Http Json JwtLib Registry.

Local Open Scope string_scope.

Definition filesystem := string -> option string.

Definition is_absolute (p : string) : bool := starts_with "/" p.

(** [AbstractTokenVerification::readFile]: opening a missing file throws. *)
Definition readFile (fs : filesystem) (path : string) : res exn string :=
  match fs path with
  | Some text => Ok text
  | None => Err (StdErr ("could not open " ++ path))
  end.

(** The handling of the [std::error_code] of [verify] shared by both
    verifiers: [errorCode.value()] is compared with the [int] values of
    [token_verification_error::ok] and [token_expired], whatever the
    code's category; any other value throws
    [std::runtime_error(errorCode.message())]. *)
Definition check_error_code `{JwtLibrary} (ec : error_code) : res exn unit :=
  if negb (ec_value ec =? ec_value tve_ok)%Z then
    if negb (ec_value ec =? ec_value tve_token_expired)%Z then Err (StdErr (error_message ec))
    else Ok tt
  else Ok tt.

(** ** SimpleTokenVerification *)

Record SimpleTokenVerification := mkSimple {
  _keyFile : string;
  _verifierFactory : algorithm;
  _verifier : option verifier
}.

(** The constructor [SimpleTokenVerification(verifierFactory)]. *)
Definition newSimple (a : algorithm) : SimpleTokenVerification := mkSimple "" a None.

Definition msg_empty_keyFile : config_error :=
  "empty keyFile for verification in Authentication for Web Service Server".
Definition msg_relative_keyFile : config_error :=
  "invalid keyFile path : set absolute path for the keyFile for verification in Authentication for Web Service Server".
Definition msg_keyFile_not_found : config_error := "invalid keyFile path : keyFile not found".
Definition msg_missing_keyFile : config_error :=
  "missing keyFile path for verification in Authentication for Web Service Server".

(** The loop of [SimpleTokenVerification::loadConfig]. *)
Fixpoint simple_load_members (fs : filesystem) (jsonObject : list (string * value))
    (st : SimpleTokenVerification) : res config_error SimpleTokenVerification :=
  match jsonObject with
  | [] => Ok st
  | (key, v) :: members =>
      if String.eqb key "keyFile" then
        let* keyFile := asString v in
        if String.eqb keyFile "" then Err msg_empty_keyFile
        else if negb (is_absolute keyFile) then Err msg_relative_keyFile
        else match fs keyFile with
             | None => Err msg_keyFile_not_found
             | Some _ =>
                 simple_load_members fs members
                   (mkSimple keyFile (_verifierFactory st) (_verifier st))
             end
      else Err (unknownParameterError key)
  end.

(** [SimpleTokenVerification::loadConfig]. *)
Definition simple_loadConfig (fs : filesystem) (jsonObject : list (string * value))
    (st : SimpleTokenVerification) : res config_error SimpleTokenVerification :=
  let* st' := simple_load_members fs jsonObject st in
  if String.eqb (_keyFile st') "" then Err msg_missing_keyFile else Ok st'.

Section SimpleOps.
Context `{JwtLibrary}.

(** [SimpleTokenVerification::initialize]: read the key, create the
    verifier with the configured factory. *)
Definition simple_initialize (fs : filesystem) (st : SimpleTokenVerification)
    : res exn SimpleTokenVerification :=
  let* key := readFile fs (_keyFile st) in
  let* v := factory_create (_verifierFactory st) key in
  Ok (mkSimple (_keyFile st) (_verifierFactory st) (Some v)).

(** [SimpleTokenVerification::verify]. Dereferencing the empty
    [std::optional] before [initialize] is undefined behaviour; the
    model reports it as an error, and the server's invariant shows that
    it does not happen. *)
Definition simple_verify (st : SimpleTokenVerification) (now : Z) (t : token) : res exn unit :=
  match _verifier st with
  | None => Err (StdErr "verifier not initialized")
  | Some v =>
      let* ec := lib_verify v now t in
      check_error_code ec
  end.

End SimpleOps.

(** ** JwksTokenVerification *)

Record JwksTokenVerification := mkJwks {
  _jwksFile : string;
  _verifiers : gmap string verifier
}.

Definition newJwks : JwksTokenVerification := mkJwks "" ∅.

Definition msg_empty_jwksFile : config_error :=
  "empty jwksFile for verification in Authentication for Web Service Server".
Definition msg_relative_jwksFile : config_error :=
  "invalid jwksFile path : set absolute path for the keyFile for verification in Authentication for Web Service Server".
Definition msg_jwksFile_not_found : config_error := "invalid jwksFile path : keyFile not found".
Definition msg_missing_jwksFile : config_error :=
  "missing jwksFile path for verification in Authentication for Web Service Server".

(** The loop of [JwksTokenVerification::loadConfig]. *)
Fixpoint jwks_load_members (fs : filesystem) (jsonObject : list (string * value))
    (st : JwksTokenVerification) : res config_error JwksTokenVerification :=
  match jsonObject with
  | [] => Ok st
  | (key, v) :: members =>
      if String.eqb key "jwksFile" then
        let* keyFile := asString v in
        if String.eqb keyFile "" then Err msg_empty_jwksFile
        else if negb (is_absolute keyFile) then Err msg_relative_jwksFile
        else match fs keyFile with
             | None => Err msg_jwksFile_not_found
             | Some _ => jwks_load_members fs members (mkJwks keyFile (_verifiers st))
             end
      else Err (unknownParameterError key)
  end.

(** [JwksTokenVerification::loadConfig]. *)
Definition jwks_loadConfig (fs : filesystem) (jsonObject : list (string * value))
    (st : JwksTokenVerification) : res config_error JwksTokenVerification :=
  let* st' := jwks_load_members fs jsonObject st in
  if String.eqb (_jwksFile st') "" then Err msg_missing_jwksFile else Ok st'.

(** The accessors of [jwt::jwk]: a missing member throws, so does a
    member of the wrong type; [get_x5c_key_value] is the first string of
    the ["x5c"] array and throws on an empty array. *)
Definition jwk_claim (jwk : list (string * value)) (name : string) : res exn value :=
  match find_first name jwk with Some v => Ok v | None => Err claim_not_present end.

Definition jwk_get_algorithm (jwk : list (string * value)) : res exn string :=
  res_bind (jwk_claim jwk "alg") as_string.

Definition jwk_get_key_id (jwk : list (string * value)) : res exn string :=
  res_bind (jwk_claim jwk "kid") as_string.

Definition jwk_get_x5c_key_value (jwk : list (string * value)) : res exn string :=
  let* x5c := jwk_claim jwk "x5c" in
  match x5c with
  | VArray (first :: _) => as_string first
  | VArray [] => Err claim_not_present
  | _ => Err bad_cast
  end.

Section JwksOps.
Context `{JwtLibrary}.

(** One turn of the loop of [JwksTokenVerification::initialize]: a key
    whose algorithm has no factory is skipped; otherwise its
    certificate is converted and a verifier is emplaced under its key
    id ([emplace] keeps a verifier already stored under that id). *)
Definition jwks_add_key (verifiers : gmap string verifier) (jwk : list (string * value))
    : res exn (gmap string verifier) :=
  let* alg := jwk_get_algorithm jwk in
  match factory alg with
  | None => Ok verifiers
  | Some algorithmFactory =>
      let* x5c := jwk_get_x5c_key_value jwk in
      let* kid := jwk_get_key_id jwk in
      let* pem := convert_base64_der_to_pem x5c in
      let* v := factory_create algorithmFactory pem in
      match verifiers !! kid with
      | Some _ => Ok verifiers
      | None => Ok (<[kid := v]> verifiers)
      end
  end.

Fixpoint jwks_add_keys (verifiers : gmap string verifier) (jwks : list (list (string * value)))
    : res exn (gmap string verifier) :=
  match jwks with
  | [] => Ok verifiers
  | jwk :: jwks' =>
      let* verifiers' := jwks_add_key verifiers jwk in
      jwks_add_keys verifiers' jwks'
  end.

(** [JwksTokenVerification::initialize]. *)
Definition jwks_initialize (fs : filesystem) (st : JwksTokenVerification)
    : res exn JwksTokenVerification :=
  let* text := readFile fs (_jwksFile st) in
  let* jwks := parse_jwks text in
  let* verifiers := jwks_add_keys (_verifiers st) jwks in
  Ok (mkJwks (_jwksFile st) verifiers).

(** [JwksTokenVerification::verify]: the verifier of the token's key
    id; an unknown key id throws. *)
Definition jwks_verify (st : JwksTokenVerification) (now : Z) (t : token) : res exn unit :=
  let* kid := get_key_id t in
  match _verifiers st !! kid with
  | None => Err (StdErr "unknown key ID in token")
  | Some v =>
      let* ec := lib_verify v now t in
      check_error_code ec
  end.

End JwksOps.

(** ** The closed set of verifiers *)

Inductive TokenVerification :=
| TVSimple (s : SimpleTokenVerification)
| TVJwks (j : JwksTokenVerification).

Definition msg_extra_members : config_error :=
  "extra members in verification block of web service server authentication".
Definition msg_unknown_method (key : string) : config_error :=
  "unkown verification method " ++ key ++ " in web service server authentication".
Definition msg_missing_provider : config_error :=
  "missing authentication provider for authentication in web service server".

(** The loop of [AbstractTokenVerification::load]: the first member
    chooses the verifier, any further member is an error. *)
Fixpoint load_members (fs : filesystem) (jsonObject : list (string * value))
    (authentication : option TokenVerification) : res config_error (option TokenVerification) :=
  match jsonObject with
  | [] => Ok authentication
  | (key, v) :: members =>
      match authentication with
      | Some _ => Err msg_extra_members
      | None =>
          if String.eqb key "@JWKS" then
            let* jwks := asObject v in
            let* j := jwks_loadConfig fs jwks newJwks in
            load_members fs members (Some (TVJwks j))
          else if starts_with "@" key then
            let* openId := asObject v in
            match factory (str_drop 1 key) with
            | None => Err (msg_unknown_method key)
            | Some a =>
                let* s := simple_loadConfig fs openId (newSimple a) in
                load_members fs members (Some (TVSimple s))
            end
          else Err (unknownParameterError key)
      end
  end.

(** [AbstractTokenVerification::load]. *)
Definition load (fs : filesystem) (jsonObject : list (string * value))
    : res config_error TokenVerification :=
  let* authentication := load_members fs jsonObject None in
  match authentication with
  | None => Err msg_missing_provider
  | Some a => Ok a
  end.

(** ** The interface the provider uses *)

(** What the OpenID provider requires of its verifier: an [initialize]
    that can throw, a [verify] that throws to reject, and a property
    [tv_trusted] of every token [verify] accepts. *)
Class TokenVerifier (V : Type) := {
  tv_initialize : filesystem -> V -> res exn V;
  tv_verify : V -> Z -> token -> res exn unit;
  tv_trusted : V -> token -> Prop;
  tv_verify_sound v now t : tv_verify v now t = Ok tt -> tv_trusted v t
}.

Section Instances.
Context `{JwtLibrary}.

Lemma check_error_code_Ok ec :
  check_error_code ec = Ok tt <-> ec_value ec = ec_value tve_ok \/ ec_value ec = ec_value tve_token_expired.
Proof.
  unfold check_error_code.
  destruct (Z.eqb_spec (ec_value ec) (ec_value tve_ok)), (Z.eqb_spec (ec_value ec) (ec_value tve_token_expired));
    simpl; naive_solver.
Qed.

(** When [verify] followed by the check of its code returns: the token
    names the verifier's algorithm, and either its signature verifies
    with the key and the time claims can be read, or its signature does
    not verify and the algorithm reports that with the value of
    [token_expired], which the check takes for an expired token. *)
Definition verify_accepts (v : verifier) (now : Z) (t : token) : Prop :=
  get_algorithm t = Ok (alg_name (ver_alg v)) /\
  ((signature_valid (ver_alg v) (ver_key v) (signed_data t) (tok_signature t) = true /\
    is_ok (time_claims_check now t) = true) \/
   (signature_valid (ver_alg v) (ver_key v) (signed_data t) (tok_signature t) = false /\
    signature_error (ver_alg v) = ec_value tve_token_expired)).

Lemma lib_verify_accept v now t :
  res_bind (lib_verify v now t) check_error_code = Ok tt <-> verify_accepts v now t.
Proof.
  unfold lib_verify, verify_accepts.
  destruct (get_algorithm t) as [alg|] eqn:Ha; simpl; [|naive_solver].
  destruct (String.eqb_spec alg (alg_name (ver_alg v))) as [->|Hne]; simpl.
  2: { rewrite check_error_code_Ok. split; [simpl; lia | intros [Heq _]; injection Heq; congruence]. }
  destruct (signature_valid _ _ _ _); simpl.
  - destruct (time_claims_check now t) as [c|] eqn:Hc; simpl; [|naive_solver].
    rewrite check_error_code_Ok. destruct (time_claims_check_codes _ _ _ Hc) as [->| ->]; naive_solver.
  - rewrite check_error_code_Ok. pose proof (signature_error_nonzero (ver_alg v)). simpl. naive_solver.
Qed.

Lemma verify_accepts_passes v now t : verify_accepts v now t -> signature_passes v t.
Proof. unfold verify_accepts, signature_passes. naive_solver. Qed.

Definition simple_trusted (st : SimpleTokenVerification) (t : token) : Prop :=
  exists v, _verifier st = Some v /\ signature_passes v t.

Definition jwks_trusted (st : JwksTokenVerification) (t : token) : Prop :=
  exists kid v, get_key_id t = Ok kid /\ _verifiers st !! kid = Some v /\ signature_passes v t.

Lemma simple_verify_Ok st now t :
  simple_verify st now t = Ok tt <-> exists v, _verifier st = Some v /\ verify_accepts v now t.
Proof.
  unfold simple_verify. destruct (_verifier st) as [v|]; [|naive_solver].
  rewrite lib_verify_accept. naive_solver.
Qed.

Lemma jwks_verify_Ok st now t :
  jwks_verify st now t = Ok tt <->
  exists kid v, get_key_id t = Ok kid /\ _verifiers st !! kid = Some v /\ verify_accepts v now t.
Proof.
  unfold jwks_verify. destruct (get_key_id t) as [kid|] eqn:Hk; simpl; [|naive_solver].
  destruct (_verifiers st !! kid) as [v|] eqn:Hv; [|naive_solver].
  rewrite lib_verify_accept. naive_solver.
Qed.

#[export] Instance simple_token_verifier : TokenVerifier SimpleTokenVerification := {
  tv_initialize := simple_initialize;
  tv_verify := simple_verify;
  tv_trusted := simple_trusted;
  tv_verify_sound v now t Hv :=
    ltac:(apply simple_verify_Ok in Hv; firstorder eauto using verify_accepts_passes)
}.

#[export] Instance jwks_token_verifier : TokenVerifier JwksTokenVerification := {
  tv_initialize := jwks_initialize;
  tv_verify := jwks_verify;
  tv_trusted := jwks_trusted;
  tv_verify_sound v now t Hv :=
    ltac:(apply jwks_verify_Ok in Hv; firstorder eauto using verify_accepts_passes)
}.

(** The virtual calls of [AbstractTokenVerification] on the union. *)
Definition tv_union_initialize (fs : filesystem) (tv : TokenVerification) : res exn TokenVerification :=
  match tv with
  | TVSimple s => let* s' := simple_initialize fs s in Ok (TVSimple s')
  | TVJwks j => let* j' := jwks_initialize fs j in Ok (TVJwks j')
  end.

Definition tv_union_verify (tv : TokenVerification) (now : Z) (t : token) : res exn unit :=
  match tv with
  | TVSimple s => simple_verify s now t
  | TVJwks j => jwks_verify j now t
  end.

Definition tv_union_trusted (tv : TokenVerification) (t : token) : Prop :=
  match tv with
  | TVSimple s => simple_trusted s t
  | TVJwks j => jwks_trusted j t
  end.

#[export] Instance union_token_verifier : TokenVerifier TokenVerification := {
  tv_initialize := tv_union_initialize;
  tv_verify := tv_union_verify;
  tv_trusted := tv_union_trusted;
  tv_verify_sound v now t Hv :=
    ltac:(destruct v; simpl in *;
          [apply simple_verify_Ok in Hv | apply jwks_verify_Ok in Hv];
          firstorder eauto using verify_accepts_passes)
}.

End Instances.

(** ** Theorems *)

Section VerifierTheorems.
Context `{JwtLibrary}.

(** C17: [SimpleTokenVerification::verify] accepts a token exactly when
    the verifier has been created, the token names its algorithm, and
    either the token is signed with its key and jwt-cpp can read its
    time claims, or the signature does not verify and the algorithm
    reports that with the value [14] of [token_expired]
    ([signature_verification_error::verifyfinal_failed] of the RSA
    algorithms), which the value comparison lets through. The token's
    key id plays no part, and [token_expired] is not a rejection. *)
Theorem simple_verify_spec st now t :
  simple_verify st now t = Ok tt <->
  exists v, _verifier st = Some v /\ get_algorithm t = Ok (alg_name (ver_alg v)) /\
    ((signature_valid (ver_alg v) (ver_key v) (signed_data t) (tok_signature t) = true /\
      is_ok (time_claims_check now t) = true) \/
     (signature_valid (ver_alg v) (ver_key v) (signed_data t) (tok_signature t) = false /\
      signature_error (ver_alg v) = ec_value tve_token_expired)).
Proof. rewrite simple_verify_Ok. unfold verify_accepts. naive_solver. Qed.

(** C18: [JwksTokenVerification::verify] accepts a token exactly when
    its key id has a verifier in the set, the token names that
    verifier's algorithm, and either its key signs the token (with
    readable time claims) or the signature fails with an error whose
    value equals [token_expired]'s; a token without a key id, or whose
    key id is not in the set, is rejected whatever its signature. *)
Theorem jwks_verify_spec st now t :
  jwks_verify st now t = Ok tt <->
  exists kid v, get_key_id t = Ok kid /\ _verifiers st !! kid = Some v /\
    get_algorithm t = Ok (alg_name (ver_alg v)) /\
    ((signature_valid (ver_alg v) (ver_key v) (signed_data t) (tok_signature t) = true /\
      is_ok (time_claims_check now t) = true) \/
     (signature_valid (ver_alg v) (ver_key v) (signed_data t) (tok_signature t) = false /\
      signature_error (ver_alg v) = ec_value tve_token_expired)).
Proof. rewrite jwks_verify_Ok. unfold verify_accepts. naive_solver. Qed.

(** C35: a token whose key id is absent from the loaded key set is
    rejected by [JwksTokenVerification::verify] with ["unknown key ID in
    token"], whatever its signature: no other key is tried. *)
Theorem jwks_verify_unknown_kid st now t kid :
  get_key_id t = Ok kid -> _verifiers st !! kid = None ->
  jwks_verify st now t = Err (StdErr "unknown key ID in token").
Proof. intros Hk Hv. unfold jwks_verify. by rewrite Hk; simpl; rewrite Hv. Qed.

Lemma jwks_add_key_sound m jwk m' :
  jwks_add_key m jwk = Ok m' ->
  forall kid v, m' !! kid = Some v ->
  m !! kid = Some v \/
  (jwk_get_key_id jwk = Ok kid /\
   exists alg, jwk_get_algorithm jwk = Ok alg /\ factory alg = Some (ver_alg v)).
Proof.
  unfold jwks_add_key. intros Hadd kid v Hkid.
  destruct (jwk_get_algorithm jwk) as [alg|] eqn:Ha; [|discriminate].
  rewrite res_bind_Ok in Hadd.
  destruct (factory alg) as [af|] eqn:Hf; [|injection Hadd as ->; by left].
  destruct (jwk_get_x5c_key_value jwk) as [x5c|]; [|discriminate]. rewrite res_bind_Ok in Hadd.
  destruct (jwk_get_key_id jwk) as [k|] eqn:Hk; [|discriminate]. rewrite res_bind_Ok in Hadd.
  destruct (convert_base64_der_to_pem x5c) as [pem|]; [|discriminate]. rewrite res_bind_Ok in Hadd.
  destruct (factory_create af pem) as [w|] eqn:Hc; [|discriminate]. rewrite res_bind_Ok in Hadd.
  apply create_Ok in Hc as [_ ->].
  destruct (m !! k) eqn:Hm; injection Hadd as <-; [by left|].
  rewrite lookup_insert in Hkid. case_decide as Heq; [|by left].
  subst. injection Hkid as <-. right. split; [first [exact Hk | reflexivity]|].
  exists alg. split; [first [exact Ha | reflexivity] | exact Hf].
Qed.

(** C19: every verifier [JwksTokenVerification::initialize] stores
    comes from a key of the set with that key id, whose ["alg"] names a
    factory of the registry, and is built by that factory; keys whose
    algorithm the registry does not know are skipped. *)
Theorem jwks_add_keys_sound m jwks m' :
  jwks_add_keys m jwks = Ok m' ->
  forall kid v, m' !! kid = Some v ->
  m !! kid = Some v \/
  exists jwk alg, jwk ∈ jwks /\ jwk_get_key_id jwk = Ok kid /\
    jwk_get_algorithm jwk = Ok alg /\ factory alg = Some (ver_alg v).
Proof.
  revert m. induction jwks as [|jwk jwks IH]; intros m Hadd kid v Hkid; simpl in Hadd.
  - injection Hadd as ->. by left.
  - res_simpl. destruct (IH _ Hadd kid v Hkid) as [Hm|(j & alg & Hin & Hj)].
    + destruct (jwks_add_key_sound _ _ _ Hc kid v Hm) as [Hm0|(Hk & alg & Ha & Hf)]; [by left|].
      right. exists jwk, alg. split; [left | exact (conj Hk (conj Ha Hf))].
    + right. exists j, alg. split; [by right | exact Hj].
Qed.

(** C36: a key of the set without an ["alg"] member makes
    [JwksTokenVerification::initialize] throw, although a key with an
    unknown algorithm is skipped. *)
Theorem jwks_add_keys_missing_alg m jwks jwk :
  jwk ∈ jwks -> find_first "alg" jwk = None -> is_ok (jwks_add_keys m jwks) = false.
Proof.
  revert m. induction jwks as [|j jwks IH]; intros m Hin Halg;
    [by apply not_elem_of_nil in Hin|]. simpl.
  apply elem_of_cons in Hin as [->|Hin].
  - unfold jwks_add_key, jwk_get_algorithm, jwk_claim. rewrite Halg. reflexivity.
  - destruct (jwks_add_key m j); [rewrite res_bind_Ok; by apply IH | reflexivity].
Qed.

Lemma jwks_add_key_keeps m jwk m' : jwks_add_key m jwk = Ok m' -> m ⊆ m'.
Proof.
  unfold jwks_add_key. intros Hadd.
  destruct (jwk_get_algorithm jwk) as [alg|]; [|discriminate]. rewrite res_bind_Ok in Hadd.
  destruct (factory alg) as [af|]; [|injection Hadd as ->; reflexivity].
  destruct (jwk_get_x5c_key_value jwk) as [x5c|]; [|discriminate]. rewrite res_bind_Ok in Hadd.
  destruct (jwk_get_key_id jwk) as [k|]; [|discriminate]. rewrite res_bind_Ok in Hadd.
  destruct (convert_base64_der_to_pem x5c) as [pem|]; [|discriminate]. rewrite res_bind_Ok in Hadd.
  destruct (factory_create af pem) as [w|]; [|discriminate]. rewrite res_bind_Ok in Hadd.
  destruct (m !! k) eqn:Hm; injection Hadd as <-; [reflexivity|]. by apply insert_subseteq.
Qed.

(** C20: [JwksTokenVerification::initialize] adds with [emplace], which
    keeps an entry already there: a verifier stored for a key id is
    never replaced, so of two keys of a set with the same key id the
    first one is used. *)
Theorem jwks_add_keys_keeps m jwks m' :
  jwks_add_keys m jwks = Ok m' -> forall kid v, m !! kid = Some v -> m' !! kid = Some v.
Proof.
  revert m. induction jwks as [|jwk jwks IH]; intros m Hadd kid v Hkid; simpl in Hadd.
  - injection Hadd as <-. exact Hkid.
  - res_simpl. apply (IH _ Hadd). exact (lookup_weaken _ _ _ _ Hkid (jwks_add_key_keeps _ _ _ Hc)).
Qed.

End VerifierTheorems.

Lemma simple_load_members_inv fs obj st st' :
  simple_load_members fs obj st = Ok st' ->
  _verifierFactory st' = _verifierFactory st /\ _verifier st' = _verifier st /\
  (_keyFile st' = _keyFile st \/ (is_absolute (_keyFile st') = true /\ is_Some (fs (_keyFile st')))).
Proof.
  revert st. induction obj as [|[key v] obj IH]; intros st H; simpl in H.
  - injection H as <-. auto.
  - destruct (String.eqb key "keyFile"); [|discriminate].
    destruct (asString v) as [kf|]; [|discriminate]. rewrite res_bind_Ok in H.
    destruct (String.eqb kf ""); [discriminate|].
    destruct (is_absolute kf) eqn:Habs; simpl in H; [|discriminate].
    destruct (fs kf) eqn:Hfs; [|discriminate].
    apply IH in H as (H1 & H2 & H3). simpl in H1, H2, H3.
    split; [done|]. split; [done|]. right.
    destruct H3 as [->|H3]; [rewrite Hfs; split; [exact Habs | by eexists] | exact H3].
Qed.

Lemma jwks_load_members_inv fs obj st st' :
  jwks_load_members fs obj st = Ok st' ->
  _verifiers st' = _verifiers st /\
  (_jwksFile st' = _jwksFile st \/ (is_absolute (_jwksFile st') = true /\ is_Some (fs (_jwksFile st')))).
Proof.
  revert st. induction obj as [|[key v] obj IH]; intros st H; simpl in H.
  - injection H as <-. auto.
  - destruct (String.eqb key "jwksFile"); [|discriminate].
    destruct (asString v) as [kf|]; [|discriminate]. rewrite res_bind_Ok in H.
    destruct (String.eqb kf ""); [discriminate|].
    destruct (is_absolute kf) eqn:Habs; simpl in H; [|discriminate].
    destruct (fs kf) eqn:Hfs; [|discriminate].
    apply IH in H as (H1 & H3). simpl in H1, H3. split; [done|]. right.
    destruct H3 as [->|H3]; [rewrite Hfs; split; [exact Habs | by eexists] | exact H3].
Qed.

Lemma load_members_Some fs obj x r :
  load_members fs obj (Some x) = Ok r -> obj = [] /\ r = Some x.
Proof. destruct obj as [|[] ?]; simpl; [intros [= <-]; done | discriminate]. Qed.

(** C37: [AbstractTokenVerification::load] succeeds only on a
    [verification] object with exactly one member: [@JWKS] with an
    absolute, existing [jwksFile] and an empty key set, or
    [@<algorithm>] naming a factory of the registry with an absolute,
    existing [keyFile] and no verifier yet. *)
Theorem load_Ok fs obj tv :
  load fs obj = Ok tv ->
  exists key v, obj = [(key, v)] /\
  match tv with
  | TVJwks j => key = "@JWKS" /\ _verifiers j = ∅ /\
                is_absolute (_jwksFile j) = true /\ is_Some (fs (_jwksFile j))
  | TVSimple s => factory (str_drop 1 key) = Some (_verifierFactory s) /\ _verifier s = None /\
                  is_absolute (_keyFile s) = true /\ is_Some (fs (_keyFile s))
  end.
Proof.
  unfold load. intros Hload.
  destruct (load_members fs obj None) as [[a|]|] eqn:Hl; [|discriminate|discriminate].
  injection Hload as ->.
  destruct obj as [|[key v] rest]; [discriminate|]. cbn -[factory String.eqb starts_with str_drop] in Hl.
  destruct (String.eqb_spec key "@JWKS") as [->|Hj].
  - destruct (asObject v) as [o|]; [|discriminate]. rewrite res_bind_Ok in Hl.
    destruct (jwks_loadConfig fs o newJwks) as [j|] eqn:Hjl; [|discriminate].
    rewrite res_bind_Ok in Hl. apply load_members_Some in Hl as [-> [= ->]].
    exists "@JWKS", v. split; [done|].
    unfold jwks_loadConfig in Hjl. destruct (jwks_load_members fs o newJwks) as [j0|] eqn:Hm;
      [|discriminate]. rewrite res_bind_Ok in Hjl.
    destruct (String.eqb_spec (_jwksFile j0) "") as [|Hne]; [discriminate|]. injection Hjl as <-.
    apply jwks_load_members_inv in Hm as (Hv & [Hf|Hf]); [done|]. done.
  - destruct (starts_with "@" key); [|discriminate].
    destruct (asObject v) as [o|]; [|discriminate]. rewrite res_bind_Ok in Hl.
    destruct (factory (str_drop 1 key)) as [alg|] eqn:Hf; [|discriminate].
    destruct (simple_loadConfig fs o (newSimple alg)) as [s|] eqn:Hsl; [|discriminate].
    rewrite res_bind_Ok in Hl. apply load_members_Some in Hl as [-> [= ->]].
    exists key, v. split; [done|].
    unfold simple_loadConfig in Hsl. destruct (simple_load_members fs o (newSimple alg)) as [s0|] eqn:Hm;
      [|discriminate]. rewrite res_bind_Ok in Hsl.
    destruct (String.eqb_spec (_keyFile s0) "") as [|Hne]; [discriminate|]. injection Hsl as <-.
    apply simple_load_members_inv in Hm as (H1 & H2 & [H3|H3]); [exfalso; apply Hne; exact H3|].
    rewrite H1, H2. split; [exact Hf|]. split; [done|]. exact H3.
Qed.

(** ** Examples *)

#[local] Instance ex_verification_lib : JwtLibrary := toy_jwt_with [] [].

Definition ex_vfs : filesystem :=
  fun path => if String.eqb path "/keys/secret" then Some "secret" else None.

(** A key set: an RSA key, an Ed25519 key (whose JOSE name ["EdDSA"]
    the registry does not know) and a key without ["alg"]. *)
Definition ex_jwk_rs : list (string * value) :=
  [("alg", VString "RS256"); ("kid", VString "k1"); ("x5c", VArray [VString "MIIB"])].
Definition ex_jwk_ed : list (string * value) :=
  [("alg", VString "EdDSA"); ("kid", VString "k2"); ("x5c", VArray [VString "MCow"])].
Definition ex_jwk_noalg : list (string * value) :=
  [("kid", VString "k3"); ("x5c", VArray [VString "MIIC"])].

Definition ex_keys : gmap string verifier :=
  match jwks_add_keys ∅ [ex_jwk_rs; ex_jwk_ed] with Ok m => m | Err _ => ∅ end.

Definition ex_jwks : JwksTokenVerification := mkJwks "/keys/jwks.json" ex_keys.

Definition ex_kid_token : token :=
  mkToken [("alg", VString "RS256"); ("kid", VString "k9")] [] "h" "p" ("MIIB" ++ "h.p").

(** The witness of [jwks_add_keys_sound]: the RSA key is stored, the
    Ed25519 key skipped. *)
Lemma jwks_add_keys_sound_witness :
  jwks_add_keys ∅ [ex_jwk_rs; ex_jwk_ed] = Ok ex_keys /\
  ex_keys !! "k1" = Some (mkVerifier RS256 "MIIB") /\ ex_keys !! "k2" = None /\
  ((∅ : gmap string verifier) !! "k1" = Some (mkVerifier RS256 "MIIB") \/
   exists jwk alg, jwk ∈ [ex_jwk_rs; ex_jwk_ed] /\ jwk_get_key_id jwk = Ok "k1" /\
     jwk_get_algorithm jwk = Ok alg /\ factory alg = Some (ver_alg (mkVerifier RS256 "MIIB"))).
Proof.
  assert (H : jwks_add_keys ∅ [ex_jwk_rs; ex_jwk_ed] = Ok ex_keys) by (vm_compute; reflexivity).
  assert (H1 : ex_keys !! "k1" = Some (mkVerifier RS256 "MIIB")) by (vm_compute; reflexivity).
  split; [exact H|]. split; [exact H1|]. split; [vm_compute; reflexivity|].
  exact (jwks_add_keys_sound _ _ _ H "k1" _ H1).
Defined.

(** The witness of [jwks_add_keys_missing_alg]: the key without
    ["alg"] makes the whole set fail. *)
Lemma jwks_add_keys_missing_alg_witness :
  ex_jwk_noalg ∈ [ex_jwk_rs; ex_jwk_noalg] /\ find_first "alg" ex_jwk_noalg = None /\
  is_ok (jwks_add_keys ∅ [ex_jwk_rs; ex_jwk_noalg]) = false.
Proof.
  assert (Hin : ex_jwk_noalg ∈ [ex_jwk_rs; ex_jwk_noalg]) by (apply list_elem_of_In; simpl; auto).
  assert (Hf : find_first "alg" ex_jwk_noalg = None) by reflexivity.
  split; [exact Hin|]. split; [exact Hf|]. exact (jwks_add_keys_missing_alg ∅ _ _ Hin Hf).
Defined.

(** The witness of [jwks_verify_unknown_kid]: a token signed with the
    stored RSA key but naming the key id ["k9"]. *)
Lemma jwks_verify_unknown_kid_witness :
  get_key_id ex_kid_token = Ok "k9" /\ _verifiers ex_jwks !! "k9" = None /\
  jwks_verify ex_jwks 1000 ex_kid_token = Err (StdErr "unknown key ID in token").
Proof.
  assert (Hk : get_key_id ex_kid_token = Ok "k9") by reflexivity.
  assert (Hv : _verifiers ex_jwks !! "k9" = None) by (vm_compute; reflexivity).
  split; [exact Hk|]. split; [exact Hv|]. exact (jwks_verify_unknown_kid _ _ _ _ Hk Hv).
Defined.

Definition ex_verification_object : list (string * value) :=
  [("@HS256", VObject [("keyFile", VString "/keys/secret")])].

Definition ex_loaded_verification : TokenVerification :=
  match load ex_vfs ex_verification_object with Ok tv => tv | Err _ => TVJwks newJwks end.

(** The witness of [load_Ok]: a simple verifier for [HS256]. *)
Lemma load_Ok_witness :
  load ex_vfs ex_verification_object = Ok ex_loaded_verification /\
  exists key v, ex_verification_object = [(key, v)].
Proof.
  assert (H : load ex_vfs ex_verification_object = Ok ex_loaded_verification) by (vm_compute; reflexivity).
  split; [exact H|]. destruct (load_Ok _ _ _ H) as (key & v & Hobj & _). exists key, v. exact Hobj.
Defined.

Definition ex_jwk_rs_dup : list (string * value) :=
  [("alg", VString "HS256"); ("kid", VString "k1"); ("x5c", VArray [VString "BBBB"])].

(** The witness of [jwks_add_keys_keeps]: a second key with the id
    ["k1"] leaves the first one in place. *)
Lemma jwks_add_keys_keeps_witness :
  jwks_add_keys ex_keys [ex_jwk_rs_dup] = Ok ex_keys /\
  ex_keys !! "k1" = Some (mkVerifier RS256 "MIIB") /\
  ex_keys !! "k1" = Some (mkVerifier RS256 "MIIB").
Proof.
  assert (H : jwks_add_keys ex_keys [ex_jwk_rs_dup] = Ok ex_keys) by (vm_compute; reflexivity).
  assert (H1 : ex_keys !! "k1" = Some (mkVerifier RS256 "MIIB")) by (vm_compute; reflexivity).
  split; [exact H|]. split; [exact H1|]. exact (jwks_add_keys_keeps _ _ _ H "k1" _ H1).
Defined.
