(* ===== verification/Provider.v ===== *)
(** * Provider: the OpenID authentication provider

    Models [src/src/OpenIdAuthenticationProvider.hpp] and the request
    path of [src/src/OpenIdAuthenticationProvider.cpp]: the provider's
    fields, [decodeJwt], [checkDate], [checkAudience], [checkIssuer],
    [checkSignature], [checkJwt] (the pipeline of these checks and
    [checkClaims], stopping at the first that throws) and
    [checkAuthentication] (the [Authorization] header). The provider is
    generic in its verifier through the [TokenVerifier] interface; the
    server instantiates it with the union [TokenVerification].

    A request is its headers in order, [(name, value)]. The current time
    [now] is the [int64] count of seconds [std::chrono::system_clock]
    gives; one value serves the whole request.

    [checkDate] keeps [nbf] and [exp] as [std::optional<std::uint64_t>]
    while [as_int()] returns an [int64], and compares them with the
    signed [now]: both conversions are reductions modulo 2^64
    ([to_uint64]). The theorems show that for values in [0, 2^63) this
    is the intended comparison, and that a negative [exp] never
    expires. *)

From Stdlib Require Import ZArith String Ascii.
From stdpp Require Import base list gmap strings.
From S2P Require Import Prelude Http Json JwtLib Registry Challenge Claims Verification.

Local Open Scope string_scope.

Record OpenIdAuthenticationProvider (V : Type) := mkProvider {
  _realm : option string;
  _issuer : string;
  _audience : string;
  _scopes : gset string;
  _claims : claim_map;
  _wwwAuthernicateHeader : string;
  _verification : option V
}.
Arguments mkProvider {V}.
Arguments _realm {V}.
Arguments _issuer {V}.
Arguments _audience {V}.
Arguments _scopes {V}.
Arguments _claims {V}.
Arguments _wwwAuthernicateHeader {V}.
Arguments _verification {V}.

(** The headers a request carries: name and value, in order. *)
Definition request := list (string * string).

Section Checks.
Context `{JwtLibrary} {V : Type} `{TokenVerifier V}.
Implicit Types (p : OpenIdAuthenticationProvider V) (t : token).

Definition hdr p : string := _wwwAuthernicateHeader p.

Definition http_error p (code message : string) : exn :=
  HttpErr (mkHttpError code message (hdr p)).

(** [decodeJwt]: any exception of [jwt::decode] becomes a 400. *)
Definition decodeJwt p (encodedToken : string) : res exn token :=
  match jwt_decode encodedToken with
  | Some t => Ok t
  | None => Err (http_error p "400 invalid token" "access denied")
  end.

(** The loop of [checkDate] over the payload: [nbf] and [exp] read with
    [as_int()] (which throws on a value that is not an integer) and
    stored as [std::uint64_t]. *)
Fixpoint date_claims (claims : list (string * value)) (notBefore expirationTime : option Z)
    : res exn (option Z * option Z) :=
  match claims with
  | [] => Ok (notBefore, expirationTime)
  | (key, v) :: claims' =>
      let* notBefore' :=
        (if String.eqb key "nbf" then let* z := as_int v in Ok (Some (to_uint64 z))
         else Ok notBefore) in
      let* expirationTime' :=
        (if String.eqb key "exp" then let* z := as_int v in Ok (Some (to_uint64 z))
         else Ok expirationTime) in
      date_claims claims' notBefore' expirationTime'
  end.

(** The two tests of [checkDate]: [now < notBefore] and
    [now > expirationTime] compare the [int64] [now] with a
    [std::uint64_t], converting [now]. *)
Definition check_notBefore p (now : Z) (notBefore : option Z) : res exn unit :=
  match notBefore with
  | Some nb => if (to_uint64 now <? nb)%Z
               then Err (http_error p "401 invalid token" "token not valid yet")
               else Ok tt
  | None => Ok tt
  end.

Definition check_expirationTime p (now : Z) (expirationTime : option Z) : res exn unit :=
  match expirationTime with
  | Some ex => if (to_uint64 now >? ex)%Z
               then Err (http_error p "401 invalid token" "token expired")
               else Ok tt
  | None => Ok tt
  end.

(** [checkDate]. *)
Definition checkDate p (now : Z) t : res exn unit :=
  let* dates := date_claims (get_payload_claims t) None None in
  let (notBefore, expirationTime) := dates in
  do* check_notBefore p now notBefore in
  check_expirationTime p now expirationTime.

(** [checkAudience]: the first ["aud"] claim, compared through
    [to_json().to_str()] with the configured audience. *)
Definition checkAudience p t : res exn unit :=
  match find_first "aud" (get_payload_claims t) with
  | Some v =>
      if String.eqb (to_str v) (_audience p) then Ok tt
      else Err (http_error p "403 invalid token" "incorrect audience")
  | None => Err (http_error p "400 invalid scope" "incorrect audience")
  end.

(** [checkIssuer]: the same for ["iss"]; both failures are one 403. *)
Definition checkIssuer p t : res exn unit :=
  match find_first "iss" (get_payload_claims t) with
  | Some v =>
      if String.eqb (to_str v) (_issuer p) then Ok tt
      else Err (http_error p "403 invalid scope" "access denied")
  | None => Err (http_error p "403 invalid scope" "access denied")
  end.

(** [checkSignature]: any exception of the verifier becomes a 401. A
    provider without a verifier (a null [_verification]) cannot come
    out of [loadConfig]; the model answers as the [catch] would. *)
Definition checkSignature p (now : Z) t : res exn unit :=
  match _verification p with
  | Some v =>
      match tv_verify v now t with
      | Ok _ => Ok tt
      | Err _ => Err (http_error p "401 invalid token" "Jwt verification failed")
      end
  | None => Err (http_error p "401 invalid token" "Jwt verification failed")
  end.

(** [checkJwt]: the checks in the order of the source. *)
Definition checkJwt p (now : Z) (encodedToken : string) : res exn unit :=
  let* t := decodeJwt p encodedToken in
  do* checkDate p now t in
  do* checkAudience p t in
  do* checkIssuer p t in
  do* checkSignature p now t in
  checkClaims (hdr p) (_claims p) t.

Definition invalid_request p (message : string) : exn :=
  HttpErr (mkHttpError "400 Bad Request" ""
    (hdr p ++ " error_code=" ++ dq ++ "invalid_request" ++ dq
       ++ " error_message=" ++ dq ++ message ++ dq)).

(** The header loop of [checkAuthentication]: a second [Authorization]
    header throws. *)
Fixpoint find_authorization p (headers : request) (authorization : option string)
    : res exn (option string) :=
  match headers with
  | [] => Ok authorization
  | (name, v) :: headers' =>
      if String.eqb name "Authorization" then
        match authorization with
        | Some _ => Err (invalid_request p "Duplicate Authorization header")
        | None => find_authorization p headers' (Some v)
        end
      else find_authorization p headers' authorization
  end.

Definition kTokenKey : string := "Bearer ".

(** [checkAuthentication]. *)
Definition checkAuthentication p (now : Z) (headers : request) : res exn unit :=
  let* authorization := find_authorization p headers None in
  match authorization with
  | None => Err (http_error p "401 Unauthorized" "Authentication required")
  | Some a =>
      if String.eqb a "" then Err (invalid_request p "Empty authentication field")
      else if negb (starts_with kTokenKey a) then
        Err (invalid_request p "Unsupported authentication method")
      else checkJwt p now (str_drop (String.length kTokenKey) a)
  end.

End Checks.

(** ** What each check accepts *)

(** The value a time claim gets in [checkDate]: absent, or the
    [std::uint64_t] of its integer; a claim that is not an integer
    throws [std::bad_cast]. *)
Definition time_claim (claims : list (string * value)) (name : string) (default : option Z)
    : res exn (option Z) :=
  match find_first name claims with
  | None => Ok default
  | Some v => let* z := as_int v in Ok (Some (to_uint64 z))
  end.

Lemma as_int_Err v e : as_int v = Err e -> e = bad_cast.
Proof. destruct v; simpl; congruence. Qed.

Lemma time_claim_Err claims name d e : time_claim claims name d = Err e -> e = bad_cast.
Proof.
  unfold time_claim. destruct (find_first _ _) as [v|]; [|discriminate].
  destruct (as_int v) eqn:Hv; simpl; [discriminate|]. intros [= <-]. by apply as_int_Err in Hv.
Qed.

Lemma time_claim_absent claims name d :
  name ∉ claims.*1 -> time_claim claims name d = Ok d.
Proof. intros Hn. unfold time_claim. by rewrite (proj2 (find_first_None _ _) Hn). Qed.

(** Over an object with distinct keys, the loop of [checkDate] reads
    ["nbf"] and then ["exp"], whatever their order in the object: both
    throw the same [std::bad_cast]. *)
Lemma date_claims_spec claims nb0 ex0 :
  NoDup claims.*1 ->
  date_claims claims nb0 ex0 =
    (let* nb := time_claim claims "nbf" nb0 in
     let* ex := time_claim claims "exp" ex0 in
     Ok (nb, ex)).
Proof.
  revert nb0 ex0. induction claims as [|[key v] claims IH]; intros nb0 ex0 Hnd; [done|].
  simpl in Hnd. apply NoDup_cons in Hnd as [Hkey Hnd].
  unfold time_claim. cbn [find_first date_claims]. fold (time_claim claims "nbf" nb0).
  fold (time_claim claims "exp" ex0).
  destruct (String.eqb_spec key "nbf") as [->|Hnbf].
  - rewrite (proj2 (String.eqb_neq "nbf" "exp")) by done. simpl.
    destruct (as_int v) as [z|]; simpl; [|done].
    rewrite IH, (time_claim_absent _ "nbf") by done. reflexivity.
  - destruct (String.eqb_spec key "exp") as [->|Hexp].
    + simpl. destruct (as_int v) as [z|] eqn:Hz; simpl.
      * rewrite IH, (time_claim_absent _ "exp") by done. reflexivity.
      * apply as_int_Err in Hz as ->.
        destruct (find_first "nbf" claims) as [w|]; simpl; [|done].
        destruct (as_int w) eqn:Hw; simpl; [done|]. by apply as_int_Err in Hw as ->.
    + simpl. by apply IH.
Qed.

Section Spec.
Context `{JwtLibrary} {V : Type} `{TokenVerifier V}.
Implicit Types (p : OpenIdAuthenticationProvider V) (t : token).

(** A time claim is absent or an integer whose [std::uint64_t] value
    satisfies [ok]. *)
Definition time_ok (claims : list (string * value)) (name : string) (ok : Z -> Prop) : Prop :=
  forall v, find_first name claims = Some v -> exists z, v = VInt64 z /\ ok (to_uint64 z).

(** The dates of a token are acceptable at [now]: not before [nbf], not
    after [exp], in the comparison the code makes. *)
Definition date_ok (now : Z) t : Prop :=
  time_ok (get_payload_claims t) "nbf" (fun nb => nb <= to_uint64 now)%Z /\
  time_ok (get_payload_claims t) "exp" (fun ex => to_uint64 now <= ex)%Z.

Definition claim_is (t : token) (name expected : string) : Prop :=
  exists v, find_first name (get_payload_claims t) = Some v /\ to_str v = expected.

Lemma time_claim_Ok_iff claims name (ok : Z -> Prop) r :
  time_claim claims name None = Ok r ->
  (match r with Some x => ok x | None => True end <-> time_ok claims name ok).
Proof.
  unfold time_claim, time_ok. destruct (find_first name claims) as [v|]; simpl.
  - destruct (as_int v) as [z|] eqn:Hz; simpl; [|discriminate]. intros [= <-].
    apply as_int_Ok in Hz as ->. split; [naive_solver|]. intros Hok.
    destruct (Hok (VInt64 z) eq_refl) as (z' & [= <-] & ?). done.
  - intros [= <-]. naive_solver.
Qed.

Lemma time_claim_Err_iff claims name (ok : Z -> Prop) e :
  time_claim claims name None = Err e -> ~ time_ok claims name ok.
Proof.
  unfold time_claim, time_ok. destruct (find_first name claims) as [v|]; [|discriminate].
  destruct (as_int v) as [z|] eqn:Hz; simpl; [discriminate|]. intros _ Hok.
  destruct (Hok v eq_refl) as (z & -> & _). discriminate.
Qed.

Lemma checkDate_Ok p now t :
  wf_token t -> checkDate p now t = Ok tt <-> date_ok now t.
Proof.
  intros [_ Hwf]. unfold checkDate, date_ok. rewrite date_claims_spec by done.
  destruct (time_claim _ "nbf" None) as [nb|e] eqn:Hnb; simpl.
  2: { split; [discriminate|]. intros [Hn _]. by eapply time_claim_Err_iff in Hn. }
  destruct (time_claim _ "exp" None) as [ex|e] eqn:Hex; simpl.
  2: { split; [discriminate|]. intros [_ Hx]. by eapply time_claim_Err_iff in Hx. }
  rewrite <- (time_claim_Ok_iff _ _ (fun nb => nb <= to_uint64 now)%Z _ Hnb).
  rewrite <- (time_claim_Ok_iff _ _ (fun ex => to_uint64 now <= ex)%Z _ Hex).
  destruct nb as [nb|], ex as [ex|]; simpl;
    repeat match goal with
    | |- context [(?a <? ?b)%Z] => destruct (Z.ltb_spec a b)
    | |- context [(?a >? ?b)%Z] => destruct (Z.gtb_spec a b)
    end; simpl; split; intros Hc; try discriminate; try destruct Hc; try split; try done; lia.
Qed.

Lemma checkAudience_Ok p t :
  checkAudience p t = Ok tt <-> claim_is t "aud" (_audience p).
Proof.
  unfold checkAudience, claim_is.
  destruct (find_first "aud" _) as [v|]; [|naive_solver].
  destruct (String.eqb_spec (to_str v) (_audience p)); naive_solver.
Qed.

Lemma checkIssuer_Ok p t :
  checkIssuer p t = Ok tt <-> claim_is t "iss" (_issuer p).
Proof.
  unfold checkIssuer, claim_is.
  destruct (find_first "iss" _) as [v|]; [|naive_solver].
  destruct (String.eqb_spec (to_str v) (_issuer p)); naive_solver.
Qed.

Lemma checkSignature_Ok p now t :
  checkSignature p now t = Ok tt <->
  exists v, _verification p = Some v /\ tv_verify v now t = Ok tt.
Proof.
  unfold checkSignature. destruct (_verification p) as [v|].
  - destruct (tv_verify v now t) as [[]|e] eqn:Hv; split; intros Hc; eauto.
    + discriminate Hc.
    + destruct Hc as (v' & [= <-] & Hv'). congruence.
  - split; [discriminate | intros (v' & Hv' & _); discriminate].
Qed.

Lemma decodeJwt_Ok p s t : decodeJwt p s = Ok t <-> jwt_decode s = Some t.
Proof. unfold decodeJwt. destruct (jwt_decode s); naive_solver. Qed.

(** The values of the [Authorization] headers of a request, in order. *)
Definition authorization_values (headers : request) : list string :=
  map snd (List.filter (fun h => String.eqb h.1 "Authorization") headers).

Lemma find_authorization_spec p headers acc :
  find_authorization p headers acc =
    match acc, authorization_values headers with
    | _, [] => Ok acc
    | None, [a] => Ok (Some a)
    | _, _ => Err (invalid_request p "Duplicate Authorization header")
    end.
Proof.
  revert acc. induction headers as [|[name v] headers IH]; intros acc; simpl.
  - by destruct acc.
  - unfold authorization_values. simpl.
    destruct (String.eqb_spec name "Authorization") as [->|Hne]; simpl.
    + destruct acc; [done|]. rewrite IH.
      fold (authorization_values headers). by destruct (authorization_values headers) as [|? []].
    + by rewrite IH.
Qed.

(** ** The order of the header fields

    The header loop keeps the [Authorization] values in the order of the
    request, but what it decides depends only on how many there are and,
    for one, on its value: a reordering of the header fields changes
    nothing. *)

Lemma authorization_values_perm hs1 hs2 :
  hs1 ≡ₚ hs2 -> authorization_values hs1 ≡ₚ authorization_values hs2.
Proof.
  unfold authorization_values. induction 1 as [|h hs1 hs2 _ IH|h1 h2 hs|hs1 hs2 hs3 _ IH1 _ IH2]; simpl.
  - done.
  - destruct (String.eqb h.1 _); simpl; [by f_equiv | exact IH].
  - destruct (String.eqb h1.1 _), (String.eqb h2.1 _); simpl; [apply perm_swap|done..].
  - by etrans.
Qed.

#[export] Instance checkAuthentication_perm p now :
  Proper ((≡ₚ) ==> eq) (checkAuthentication p now).
Proof.
  intros hs1 hs2 Hp%authorization_values_perm. unfold checkAuthentication. rewrite !find_authorization_spec.
  destruct (authorization_values hs1) as [|a [|b l]], (authorization_values hs2) as [|a' [|b' l']];
    try reflexivity; apply Permutation_length in Hp as Hlen; simpl in Hlen; try lia.
  by apply Permutation_length_1 in Hp as ->.
Qed.

End Spec.

(** ** Every exception a check throws can be answered

    The exceptions of [checkAuthentication] are the [std::bad_cast] of
    a non-integer date or an [HttpError] with one of the literal codes
    of the source; none has a CR in its code. *)

Ltac exn_ok_tac :=
  repeat match goal with
  | H : res_bind _ _ = Err _ |- _ => apply res_bind_Err_inv in H as [H|(? & ? & H)]
  | H : (if ?b then _ else _) = Err _ |- _ => destruct b
  | H : match ?x with _ => _ end = Err _ |- _ => destruct x
  | H : Err _ = Err _ |- _ => injection H as <-
  | H : Ok _ = Err _ |- _ => discriminate H
  | H : as_int _ = Err _ |- _ => apply as_int_Err in H as ->
  | |- exn_ok (http_error _ _ _) => reflexivity
  | |- exn_ok (invalid_request _ _) => reflexivity
  | |- exn_ok (access_denied _) => reflexivity
  | |- exn_ok bad_cast => exact I
  end.

Section Errors.
Context `{JwtLibrary} {V : Type} `{TokenVerifier V}.
Implicit Types (p : OpenIdAuthenticationProvider V).

Lemma date_claims_exn_ok claims nb ex e : date_claims claims nb ex = Err e -> exn_ok e.
Proof.
  revert nb ex. induction claims as [|[key v] claims IH]; intros nb ex Hd; simpl in Hd;
    exn_ok_tac; eauto.
Qed.

Lemma checkJwt_exn_ok p now enc e : checkJwt p now enc = Err e -> exn_ok e.
Proof.
  unfold checkJwt, decodeJwt, checkDate, check_notBefore, check_expirationTime,
    checkAudience, checkIssuer, checkSignature, checkClaims.
  intros Hj. exn_ok_tac; eauto using date_claims_exn_ok.
Qed.

Lemma find_authorization_exn_ok p hs acc e : find_authorization p hs acc = Err e -> exn_ok e.
Proof.
  revert acc. induction hs as [|[name v] hs IH]; intros acc Hf; simpl in Hf; exn_ok_tac; eauto.
Qed.

Lemma checkAuthentication_exn_ok p now hs e : checkAuthentication p now hs = Err e -> exn_ok e.
Proof.
  unfold checkAuthentication. intros Hc. exn_ok_tac;
    eauto using find_authorization_exn_ok, checkJwt_exn_ok.
Qed.

End Errors.

Section Theorems.
Context `{JwtLibrary} {V : Type} `{TokenVerifier V}.
Implicit Types (p : OpenIdAuthenticationProvider V) (t : token).

(** The abstract contract of the provider: a request is accepted when
    it carries exactly one [Authorization] header, of the form
    ["Bearer "] followed by a token that decodes, whose dates hold at
    [now], whose ["aud"] and ["iss"] are the configured audience and
    issuer, that the verifier accepts, and that meets the claim
    constraints. *)
Definition accepted p (now : Z) (headers : request) : Prop :=
  exists encodedToken t,
    authorization_values headers = [kTokenKey ++ encodedToken] /\
    jwt_decode encodedToken = Some t /\
    date_ok now t /\
    claim_is t "aud" (_audience p) /\
    claim_is t "iss" (_issuer p) /\
    (exists v, _verification p = Some v /\ tv_verify v now t = Ok tt) /\
    claims_match (_claims p) t.

Lemma checkJwt_Ok p now encodedToken :
  checkJwt p now encodedToken = Ok tt <->
  exists t, jwt_decode encodedToken = Some t /\ date_ok now t /\
    claim_is t "aud" (_audience p) /\ claim_is t "iss" (_issuer p) /\
    (exists v, _verification p = Some v /\ tv_verify v now t = Ok tt) /\
    claims_match (_claims p) t.
Proof.
  unfold checkJwt. rewrite res_bind_Ok_iff. repeat setoid_rewrite res_seq_Ok_iff.
  split.
  - intros (t & Hd%decodeJwt_Ok & Hdate & Haud & Hiss & Hsig & Hcl).
    pose proof (jwt_decode_wf _ _ Hd) as Hwf. exists t.
    split; [done|]. split; [by apply checkDate_Ok in Hdate|].
    split; [by apply checkAudience_Ok|]. split; [by apply checkIssuer_Ok|].
    split; [by apply checkSignature_Ok|]. exact (proj1 (checkClaims_Ok_iff _ _ _) Hcl).
  - intros (t & Hd & Hdate & Haud & Hiss & Hsig & Hcl).
    pose proof (jwt_decode_wf _ _ Hd) as Hwf. exists t.
    split; [by apply decodeJwt_Ok|]. split; [by apply checkDate_Ok|].
    split; [by apply checkAudience_Ok|]. split; [by apply checkIssuer_Ok|].
    split; [by apply checkSignature_Ok|]. exact (proj2 (checkClaims_Ok_iff (hdr p) _ _) Hcl).
Qed.

Lemma kTokenKey_prefix a :
  String.eqb a "" = false -> starts_with kTokenKey a = true ->
  a = kTokenKey ++ str_drop (String.length kTokenKey) a.
Proof.
  intros _ Hs. apply starts_with_spec in Hs as [r ->]. by rewrite str_drop_app.
Qed.

Lemma checkAuthentication_Ok_iff p now headers :
  checkAuthentication p now headers = Ok tt <-> accepted p now headers.
Proof.
  unfold checkAuthentication, accepted. rewrite find_authorization_spec.
  destruct (authorization_values headers) as [|a [|b l]]; cbn -[checkJwt starts_with String.eqb kTokenKey].
  - split; [discriminate | intros (? & ? & Hv & _); discriminate Hv].
  - destruct (String.eqb_spec a "") as [->|Hne]; cbn -[checkJwt starts_with String.eqb kTokenKey].
    { split; [discriminate | intros (enc & ? & Hv & _)]. injection Hv as Hv.
      apply (f_equal String.length) in Hv. rewrite length_append in Hv. simpl in Hv. lia. }
    destruct (starts_with kTokenKey a) eqn:Hs; cbn -[checkJwt starts_with String.eqb kTokenKey].
    + rewrite checkJwt_Ok. apply kTokenKey_prefix in Hs as Ha; [|by apply String.eqb_neq].
      split.
      * intros (t & Ht). exists (str_drop (String.length kTokenKey) a), t.
        rewrite <- Ha. split; [done | exact Ht].
      * intros (enc & t & [= ->] & Ht). rewrite str_drop_app. by exists t.
    + split; [discriminate|]. intros (enc & ? & [= ->] & _).
      by rewrite starts_with_app in Hs.
  - split; [discriminate | intros (? & ? & Hv & _); discriminate Hv].
Qed.

(** C1: [checkAuthentication] refines its contract: it returns normally
    exactly when the request is [accepted]; every other request throws. *)
Theorem checkAuthentication_accepts p now headers :
  checkAuthentication p now headers = Ok tt <-> accepted p now headers.
Proof. apply checkAuthentication_Ok_iff. Qed.

Lemma checkDate_eq p now t :
  wf_token t ->
  checkDate p now t =
    (let* nb := time_claim (get_payload_claims t) "nbf" None in
     let* ex := time_claim (get_payload_claims t) "exp" None in
     do* check_notBefore p now nb in
     check_expirationTime p now ex).
Proof.
  intros [_ Hwf]. unfold checkDate. rewrite date_claims_spec by done.
  destruct (time_claim _ "nbf" None), (time_claim _ "exp" None); reflexivity.
Qed.

Lemma time_ok_claim claims name (ok : Z -> Prop) :
  time_ok claims name ok ->
  exists r, time_claim claims name None = Ok r /\ match r with Some x => ok x | None => True end.
Proof.
  unfold time_ok, time_claim. destruct (find_first name claims) as [v|]; intros Hok.
  - destruct (Hok v eq_refl) as (z & -> & Hz). by exists (Some (to_uint64 z)).
  - by exists None.
Qed.

Lemma checkJwt_date p now encodedToken t :
  jwt_decode encodedToken = Some t ->
  checkJwt p now encodedToken =
    (do* checkDate p now t in
     do* checkAudience p t in
     do* checkIssuer p t in
     do* checkSignature p now t in
     checkClaims (hdr p) (_claims p) t).
Proof. intros Hd. unfold checkJwt. by rewrite (proj2 (decodeJwt_Ok p _ _) Hd). Qed.

(** C2: a request that [checkAuthentication] accepts carries a single
    [Bearer] token that decodes and that the configured verifier
    trusts: for the two verifiers, the token names the algorithm of the
    configured key (of the key set's key for the token's key id), and
    its signature verifies with that key, unless the algorithm reports
    a failed signature with the value of [token_expired], which the
    verifiers let through. *)
Theorem checkAuthentication_trusted p now headers :
  checkAuthentication p now headers = Ok tt ->
  exists encodedToken t v,
    authorization_values headers = [kTokenKey ++ encodedToken] /\
    jwt_decode encodedToken = Some t /\
    _verification p = Some v /\ tv_trusted v t.
Proof.
  intros Hok. apply checkAuthentication_Ok_iff in Hok
    as (enc & t & Hh & Hd & _ & _ & _ & (v & Hv & Hver) & _).
  exists enc, t, v. repeat split; try done. by eapply tv_verify_sound.
Qed.

(** C8: the header loop of [checkAuthentication] decides on the list of
    [Authorization] values: none is a 401, more than one a 400, an
    empty one or one that does not start with ["Bearer "] a 400, and
    otherwise the rest of the value is checked as a token. *)
Theorem checkAuthentication_header_values p now headers :
  checkAuthentication p now headers =
    match authorization_values headers with
    | [] => Err (http_error p "401 Unauthorized" "Authentication required")
    | [a] =>
        if String.eqb a "" then Err (invalid_request p "Empty authentication field")
        else if negb (starts_with kTokenKey a) then
          Err (invalid_request p "Unsupported authentication method")
        else checkJwt p now (str_drop (String.length kTokenKey) a)
    | _ => Err (invalid_request p "Duplicate Authorization header")
    end.
Proof.
  unfold checkAuthentication. rewrite find_authorization_spec.
  by destruct (authorization_values headers) as [|a [|b l]].
Qed.

(** C9: a token that decodes, is already valid and whose integer [exp]
    lies before [now] is rejected as ["token expired"] (401), whatever
    its audience, issuer, signature and claims. *)
Theorem checkJwt_expired p now encodedToken t e :
  jwt_decode encodedToken = Some t ->
  time_ok (get_payload_claims t) "nbf" (fun nb => nb <= to_uint64 now)%Z ->
  find_first "exp" (get_payload_claims t) = Some (VInt64 e) ->
  (to_uint64 e < to_uint64 now)%Z ->
  checkJwt p now encodedToken = Err (http_error p "401 invalid token" "token expired").
Proof.
  intros Hd Hnbf Hexp Hlt. rewrite (checkJwt_date _ _ _ t) by done.
  rewrite checkDate_eq by eauto using jwt_decode_wf.
  destruct (time_ok_claim _ _ _ Hnbf) as (nb & -> & Hnb). simpl.
  unfold time_claim at 1. rewrite Hexp. simpl.
  unfold check_notBefore, check_expirationTime.
  destruct nb as [nb|]; [destruct (Z.ltb_spec (to_uint64 now) nb); [lia|]|]; simpl;
    destruct (Z.gtb_spec (to_uint64 now) (to_uint64 e)); try lia; reflexivity.
Qed.

(** C10: a token whose integer [nbf] lies after [now] is rejected as
    ["token not valid yet"] (401) before any other check, provided its
    [exp], if present, is an integer (otherwise [as_int] throws first). *)
Theorem checkJwt_not_yet_valid p now encodedToken t n :
  jwt_decode encodedToken = Some t ->
  find_first "nbf" (get_payload_claims t) = Some (VInt64 n) ->
  (to_uint64 now < to_uint64 n)%Z ->
  time_ok (get_payload_claims t) "exp" (fun _ => True) ->
  checkJwt p now encodedToken = Err (http_error p "401 invalid token" "token not valid yet").
Proof.
  intros Hd Hnbf Hlt Hexp. rewrite (checkJwt_date _ _ _ t) by done.
  rewrite checkDate_eq by eauto using jwt_decode_wf.
  unfold time_claim at 1. rewrite Hnbf. simpl.
  destruct (time_ok_claim _ _ _ Hexp) as (ex & -> & _). simpl.
  unfold check_notBefore. destruct (Z.ltb_spec (to_uint64 now) (to_uint64 n)); [done | lia].
Qed.

(** C21: once the dates hold, a token without ["aud"] is rejected with
    the 400 ["incorrect audience"], and one whose ["aud"] differs from
    the configured audience with the 403 ["incorrect audience"]. *)
Theorem checkJwt_audience_errors p now encodedToken t :
  jwt_decode encodedToken = Some t -> date_ok now t ->
  (find_first "aud" (get_payload_claims t) = None ->
   checkJwt p now encodedToken = Err (http_error p "400 invalid scope" "incorrect audience")) /\
  (forall v, find_first "aud" (get_payload_claims t) = Some v -> to_str v <> _audience p ->
   checkJwt p now encodedToken = Err (http_error p "403 invalid token" "incorrect audience")).
Proof.
  intros Hd Hdate. rewrite (checkJwt_date _ _ _ t) by done.
  rewrite (proj2 (checkDate_Ok p now t (jwt_decode_wf _ _ Hd)) Hdate). simpl.
  unfold checkAudience. split.
  - intros ->. reflexivity.
  - intros v -> Hne. by rewrite (proj2 (String.eqb_neq _ _) Hne).
Qed.

(** C22: [checkAudience] compares the text [to_str()] gives the ["aud"]
    value: an array ["aud"] (which RFC 7519 allows) is never the
    configured audience, unless the audience is configured as the word
    ["array"], in which case every array passes. *)
Theorem checkAudience_array p t l :
  find_first "aud" (get_payload_claims t) = Some (VArray l) ->
  checkAudience p t =
    if String.eqb (_audience p) "array" then Ok tt
    else Err (http_error p "403 invalid token" "incorrect audience").
Proof.
  intros Haud. unfold checkAudience. rewrite Haud. change (to_str (VArray l)) with "array".
  destruct (String.eqb_spec "array" (_audience p)), (String.eqb_spec (_audience p) "array");
    congruence.
Qed.

(** C23: [exp] is stored as a [std::uint64_t]: at any time [now] since
    the epoch, a token whose [exp] is a negative [int64] (which lies
    before the epoch) is never reported as expired. *)
Theorem checkDate_negative_exp p now t e :
  wf_token t -> (0 <= now < two63)%Z -> in_int64 e -> (e < 0)%Z ->
  find_first "nbf" (get_payload_claims t) = None ->
  find_first "exp" (get_payload_claims t) = Some (VInt64 e) ->
  checkDate p now t = Ok tt.
Proof.
  intros Hwf Hnow He Hneg Hnbf Hexp. apply checkDate_Ok; [done|]. split.
  - intros v Hv. congruence.
  - intros v Hv. rewrite Hexp in Hv. injection Hv as <-. exists e. split; [done|].
    rewrite (to_uint64_neg e), (to_uint64_nonneg now) by (done || (unfold in_uint64, two63, two64 in *; lia)).
    unfold in_int64, two63, two64 in *. lia.
Qed.

(** C24: for a time [now] and [nbf]/[exp] values in [0, 2^63) (all dates
    since the epoch), [checkDate] accepts exactly when
    [nbf <= now <= exp], a missing claim imposing nothing. *)
Theorem checkDate_nonneg p now t :
  wf_token t -> (0 <= now < two63)%Z ->
  (forall name z, find_first name (get_payload_claims t) = Some (VInt64 z) ->
     name = "nbf" \/ name = "exp" -> (0 <= z < two63)%Z) ->
  checkDate p now t = Ok tt <->
  time_ok (get_payload_claims t) "nbf" (fun nb => nb <= to_uint64 now)%Z /\
  time_ok (get_payload_claims t) "exp" (fun ex => to_uint64 now <= ex)%Z /\
  (forall nb ex, find_first "nbf" (get_payload_claims t) = Some (VInt64 nb) ->
                 find_first "exp" (get_payload_claims t) = Some (VInt64 ex) ->
                 (nb <= now <= ex)%Z).
Proof.
  intros Hwf Hnow Hrange. rewrite checkDate_Ok by done. unfold date_ok.
  assert (Hu : forall z, (0 <= z < two63)%Z -> to_uint64 z = z)
    by (intros; apply to_uint64_nonneg; unfold in_uint64, two63, two64 in *; lia).
  split; [|intros (? & ? & _); done].
  intros [Hnb Hex]. split; [done|]. split; [done|].
  intros nb ex Hn Hx.
  destruct (Hnb _ Hn) as (z1 & [= <-] & H1). destruct (Hex _ Hx) as (z2 & [= <-] & H2).
  rewrite !Hu in H1, H2 by eauto. lia.
Qed.

End Theorems.

(** ** Witnesses

    The scenario of the specification: issuer ["acme"], audience
    ["api"], an HS256 key ["secret"] read from ["/k"]; tokens are looked
    up by their compact text in the toy library. *)

Definition ex_header : list (string * value) := [("alg", VString "HS256"); ("kid", VString "k1")].

Definition ex_token (payload : list (string * value)) : token :=
  mkToken ex_header payload "h" "p" ("secret" ++ "h.p").

Definition ex_ok := ex_token [("aud", VString "api"); ("iss", VString "acme");
                               ("nbf", VInt64 500); ("exp", VInt64 2000)].
Definition ex_expired := ex_token [("aud", VString "api"); ("exp", VInt64 500)].
Definition ex_early := ex_token [("nbf", VInt64 5000)].
Definition ex_no_aud := ex_token [("iss", VString "acme")].
Definition ex_aud_array := ex_token [("aud", VArray [VString "api"])].
Definition ex_negative_exp := ex_token [("aud", VString "api"); ("exp", VInt64 (-1))].

#[local] Instance ex_lib : JwtLibrary :=
  toy_jwt_with [("tok.ok", ex_ok); ("tok.expired", ex_expired); ("tok.early", ex_early);
                ("tok.noaud", ex_no_aud)] [].

Definition ex_verification : TokenVerification :=
  TVSimple (mkSimple "/k" HS256 (Some (mkVerifier HS256 "secret"))).

Definition ex_provider : OpenIdAuthenticationProvider TokenVerification :=
  mkProvider None "acme" "api" ∅ ∅ (buildAuthenticationHeader None []) (Some ex_verification).

Definition ex_now : Z := 1000.

Lemma checkAuthentication_trusted_witness :
  checkAuthentication ex_provider ex_now [("Host", "x"); ("Authorization", "Bearer tok.ok")] = Ok tt /\
  exists encodedToken t v,
    authorization_values [("Host", "x"); ("Authorization", "Bearer tok.ok")]
      = [kTokenKey ++ encodedToken] /\
    jwt_decode encodedToken = Some t /\ _verification ex_provider = Some v /\ tv_trusted v t.
Proof.
  assert (H : checkAuthentication ex_provider ex_now
                [("Host", "x"); ("Authorization", "Bearer tok.ok")] = Ok tt)
    by (vm_compute; reflexivity).
  split; [exact H | exact (checkAuthentication_trusted _ _ _ H)].
Defined.

Lemma checkJwt_expired_witness :
  checkJwt ex_provider ex_now "tok.expired"
    = Err (http_error ex_provider "401 invalid token" "token expired").
Proof.
  apply (checkJwt_expired ex_provider ex_now "tok.expired" ex_expired 500).
  - reflexivity.
  - intros v Hv. discriminate Hv.
  - reflexivity.
  - vm_compute. reflexivity.
Defined.

Lemma checkJwt_not_yet_valid_witness :
  checkJwt ex_provider ex_now "tok.early"
    = Err (http_error ex_provider "401 invalid token" "token not valid yet").
Proof.
  apply (checkJwt_not_yet_valid ex_provider ex_now "tok.early" ex_early 5000).
  - reflexivity.
  - reflexivity.
  - vm_compute. reflexivity.
  - intros v Hv. discriminate Hv.
Defined.

Lemma checkJwt_audience_errors_witness :
  checkJwt ex_provider ex_now "tok.noaud"
    = Err (http_error ex_provider "400 invalid scope" "incorrect audience").
Proof.
  apply (checkJwt_audience_errors ex_provider ex_now "tok.noaud" ex_no_aud).
  - reflexivity.
  - split; intros v Hv; discriminate Hv.
  - reflexivity.
Defined.

Lemma checkAudience_array_witness :
  checkAudience ex_provider ex_aud_array
    = Err (http_error ex_provider "403 invalid token" "incorrect audience").
Proof. apply (checkAudience_array ex_provider ex_aud_array [VString "api"]). reflexivity. Defined.

Lemma checkDate_negative_exp_witness :
  checkDate ex_provider ex_now ex_negative_exp = Ok tt.
Proof.
  apply (checkDate_negative_exp ex_provider ex_now ex_negative_exp (-1)).
  - split; vm_compute; repeat constructor; set_solver.
  - vm_compute. split; congruence.
  - vm_compute. split; congruence.
  - lia.
  - reflexivity.
  - reflexivity.
Defined.

Lemma checkDate_nonneg_witness :
  checkDate ex_provider ex_now ex_ok = Ok tt.
Proof.
  apply (checkDate_nonneg ex_provider ex_now ex_ok).
  - split; vm_compute; repeat constructor; set_solver.
  - vm_compute. split; congruence.
  - intros name z Hf [-> | ->]; vm_compute in Hf; injection Hf as <-; vm_compute; split; congruence.
  - split; [|split].
    + intros v Hv. vm_compute in Hv. injection Hv as <-. exists 500%Z. split; [done|]. vm_compute. congruence.
    + intros v Hv. vm_compute in Hv. injection Hv as <-. exists 2000%Z. split; [done|]. vm_compute. congruence.
    + intros nb ex Hn Hx. vm_compute in Hn, Hx. injection Hn as <-. injection Hx as <-. unfold ex_now. lia.
Defined.
