(* ===== verification/Config.v ===== *)
(** * Config: loading and initializing the OpenID provider

    Models [OpenIdAuthenticationProvider::loadConfig] (the
    [authentication] block's [@OpenID] object: [realm], [scopes],
    [issuer], [audience], [claims], [verification]) and
    [OpenIdAuthenticationProvider::initialize] (initializing the
    verifier, then building the [WWW-Authenticate] header) from
    [src/src/OpenIdAuthenticationProvider.cpp] and
    [src/src/OpenIdAuthenticationProvider.hpp]. The provider starts
    from its default-constructed fields, [provider_init].

    The theorems state the configuration invariant a loaded provider
    has (non-empty issuer and audience, a verifier, valid realm and
    scopes), which member of a name the loop keeps when a name is
    given twice (the last, against the reference [last_member]), and
    that the header an initialized provider sends reads back to its
    configured realm and scopes. *)

From Stdlib Require Import ZArith String Ascii.
From stdpp Require Import base list gmap strings.
From S2P Require Import Prelude Http Json JwtLib Registry Challenge Claims Verification Provider.

Local Open Scope string_scope.

Abbreviation provider := (OpenIdAuthenticationProvider TokenVerification).

(** The fields of a default-constructed provider. *)
Definition provider_init : provider := mkProvider None "" "" ∅ ∅ "" None.

Definition msg_realm_error (m : string) : config_error := "error found in the realm : " ++ m.
Definition msg_scope_error (m : string) : config_error := "error found in a scope : " ++ m.
Definition msg_empty_issuer : config_error := "empty issuer , issuer can not be empty ".
Definition msg_empty_audience : config_error := "empty audience , audience can not be empty".

(** The [scopes] loop: every element a string accepted by
    [getScopeError], added to the set. *)
Fixpoint load_scopes (scopes : list value) (acc : gset string) : res config_error (gset string) :=
  match scopes with
  | [] => Ok acc
  | scope :: scopes' =>
      let* scopeName := asString scope in
      match getScopeError scopeName with
      | Some m => Err (msg_scope_error m)
      | None => load_scopes scopes' ({[scopeName]} ∪ acc)
      end
  end.

(** The loop of [OpenIdAuthenticationProvider::loadConfig]; a member
    given twice is loaded twice (the later [realm], [issuer],
    [audience] or [verification] replaces the earlier, [scopes] and
    [claims] add to the earlier). *)
Fixpoint provider_load_members (fs : filesystem) (jsonObject : list (string * value))
    (p : provider) : res config_error provider :=
  match jsonObject with
  | [] => Ok p
  | (key, v) :: members =>
      let '(mkProvider realm issuer audience scopes claims header verification) := p in
      if String.eqb key "realm" then
        let* r := asString v in
        match getRealmError r with
        | Some m => Err (msg_realm_error m)
        | None => provider_load_members fs members
                    (mkProvider (Some (makeRealm r)) issuer audience scopes claims header verification)
        end
      else if String.eqb key "scopes" then
        let* a := asArray v in
        let* scopes' := load_scopes a scopes in
        provider_load_members fs members
          (mkProvider realm issuer audience scopes' claims header verification)
      else if String.eqb key "issuer" then
        let* i := asString v in
        if String.eqb i "" then Err msg_empty_issuer
        else provider_load_members fs members
               (mkProvider realm i audience scopes claims header verification)
      else if String.eqb key "audience" then
        let* a := asString v in
        if String.eqb a "" then Err msg_empty_audience
        else provider_load_members fs members
               (mkProvider realm issuer a scopes claims header verification)
      else if String.eqb key "claims" then
        let* o := asObject v in
        let* claims' := loadClaims o claims in
        provider_load_members fs members
          (mkProvider realm issuer audience scopes claims' header verification)
      else if String.eqb key "verification" then
        let* o := asObject v in
        let* tv := load fs o in
        provider_load_members fs members
          (mkProvider realm issuer audience scopes claims header (Some tv))
      else Err (unknownParameterError key)
  end.

(** [OpenIdAuthenticationProvider::loadConfig]. *)
Definition provider_loadConfig (fs : filesystem) (jsonObject : list (string * value))
    (p : provider) : res config_error provider :=
  let* p' := provider_load_members fs jsonObject p in
  if String.eqb (_issuer p') "" then Err "missing issuer"
  else if String.eqb (_audience p') "" then Err "missing audience"
  else match _verification p' with
       | None => Err "missing verification"
       | Some _ => Ok p'
       end.

Section Initialize.
Context `{JwtLibrary}.

(** [OpenIdAuthenticationProvider::initialize]: initialize the verifier,
    then build the header from the realm and the scopes in the set's
    iteration order. A null [_verification] cannot come out of
    [loadConfig]. *)
Definition provider_initialize (fs : filesystem) (p : provider) : res exn provider :=
  match _verification p with
  | None => Err (StdErr "verification not loaded")
  | Some v =>
      let* v' := tv_initialize fs v in
      Ok (mkProvider (_realm p) (_issuer p) (_audience p) (_scopes p) (_claims p)
            (buildAuthenticationHeader (_realm p) (elements (_scopes p))) (Some v'))
  end.

End Initialize.

(** ** Invariant of a loaded provider *)

(** The realm is stored escaped, from a raw realm [getRealmError]
    accepts; every scope is accepted by [getScopeError]. *)
Definition realm_wf (realm : option string) : Prop :=
  match realm with
  | None => True
  | Some r' => exists r, r' = makeRealm r /\ getRealmError r = None
  end.

Definition provider_wf (p : provider) : Prop :=
  realm_wf (_realm p) /\ set_Forall (fun s => getScopeError s = None) (_scopes p).

Lemma load_scopes_Ok a acc s :
  load_scopes a acc = Ok s ->
  (forall x, x ∈ s <-> x ∈ acc \/ VString x ∈ a) /\
  forall x, VString x ∈ a -> getScopeError x = None.
Proof.
  revert acc. induction a as [|v a IH]; intros acc Hl; simpl in Hl.
  - injection Hl as <-. setoid_rewrite elem_of_nil. naive_solver.
  - res_simpl. destruct v; try discriminate. injection Hc as <-.
    destruct (getScopeError _) eqn:He; [discriminate|].
    apply IH in Hl as [Hs Hok]. setoid_rewrite elem_of_cons. split.
    + intros x. rewrite Hs. set_solver.
    + intros x [Hx|Hx]; [injection Hx as ->; done | auto].
Qed.

Lemma load_scopes_wf a acc s :
  set_Forall (fun s => getScopeError s = None) acc ->
  load_scopes a acc = Ok s -> set_Forall (fun s => getScopeError s = None) s.
Proof.
  intros Hacc (Hs & Hok)%load_scopes_Ok x Hx. apply Hs in Hx as [Hx|Hx]; auto.
Qed.

Lemma provider_load_members_wf fs obj p p' :
  provider_wf p -> provider_load_members fs obj p = Ok p' ->
  provider_wf p' /\ (_issuer p <> "" -> _issuer p' <> "") /\
  (_audience p <> "" -> _audience p' <> "") /\
  (_verification p <> None -> _verification p' <> None).
Proof.
  revert p. induction obj as [|[key v] obj IH]; intros [realm issuer audience scopes claims header verif] [Hr Hs] Hl;
    simpl in Hl; [injection Hl as <-; done|].
  destruct (String.eqb key "realm").
  { res_simpl. destruct (getRealmError _) eqn:He; [discriminate|].
    apply IH in Hl; [exact Hl|]. split; [|exact Hs]. simpl. eauto. }
  destruct (String.eqb key "scopes").
  { res_simpl. apply IH in Hl; [exact Hl|]. split; [exact Hr|]. simpl.
    eapply load_scopes_wf; [exact Hs | exact Hc0]. }
  destruct (String.eqb key "issuer").
  { res_simpl. destruct (String.eqb_spec a "") as [|Hne]; [discriminate|].
    apply IH in Hl as (Hw & Hi & Ha & Hv); [|split; assumption]. simpl in *. auto. }
  destruct (String.eqb key "audience").
  { res_simpl. destruct (String.eqb_spec a "") as [|Hne]; [discriminate|].
    apply IH in Hl as (Hw & Hi & Ha & Hv); [|split; assumption]. simpl in *. auto. }
  destruct (String.eqb key "claims").
  { res_simpl. apply IH in Hl; [exact Hl|]. split; assumption. }
  destruct (String.eqb key "verification"); [|discriminate].
  res_simpl. apply IH in Hl as (Hw & Hi & Ha & Hv); [|split; assumption]. simpl in *.
  split; [done|]. split; [done|]. split; [done|]. intros _. apply Hv. discriminate.
Qed.

(** What [loadConfig] guarantees of the provider it loads: a
    non-empty issuer and audience, a verifier, and the invariant. *)
Definition provider_loaded (p : provider) : Prop :=
  _issuer p <> "" /\ _audience p <> "" /\ (exists tv, _verification p = Some tv) /\ provider_wf p.

(** A provider loaded from its default-constructed fields by
    [loadConfig] has a non-empty issuer and audience and a verifier,
    its stored realm is the escaped form of a realm [getRealmError]
    accepts, and each of its scopes is accepted by [getScopeError]. *)
Lemma provider_loadConfig_Ok fs obj p :
  provider_loadConfig fs obj provider_init = Ok p -> provider_loaded p.
Proof.
  unfold provider_loadConfig. intros Hl. res_simpl.
  apply provider_load_members_wf in Hc as (Hw & _); [|split; [exact I | apply set_Forall_empty]].
  destruct (String.eqb_spec (_issuer a) "") as [|Hi]; [discriminate|].
  destruct (String.eqb_spec (_audience a) "") as [|Ha]; [discriminate|].
  destruct (_verification a) as [tv|] eqn:Hv; [|discriminate]. injection Hl as <-.
  split; [exact Hi|]. split; [exact Ha|]. split; [eauto | exact Hw].
Qed.

(** ** Members given twice

    The loop of [loadConfig] handles every member it meets, so a member
    named twice is read twice: a later [realm], [issuer], [audience] or
    [verification] replaces what an earlier one stored. *)

(** The value of the last member named [key] of an object. *)
Fixpoint last_member (key : string) (obj : list (string * value)) : option value :=
  match obj with
  | [] => None
  | (k, v) :: obj' =>
      match last_member key obj' with
      | Some v' => Some v'
      | None => if String.eqb k key then Some v else None
      end
  end.

(** A field after the loop: what [read] makes of the last member named
    [key], or the field before the loop if the object has none. *)
Definition last_wins {A} (key : string) (obj : list (string * value))
    (read : value -> res config_error A) (before after : A) : Prop :=
  match last_member key obj with
  | Some v => read v = Ok after
  | None => after = before
  end.

Lemma last_wins_cons {A} key k v obj (read : value -> res config_error A) before mid after :
  last_wins key obj read mid after ->
  (k = key -> read v = Ok mid) -> (k <> key -> mid = before) ->
  last_wins key ((k, v) :: obj) read before after.
Proof.
  unfold last_wins. simpl. destruct (last_member key obj); [done|].
  destruct (String.eqb_spec k key); intros Hw Hs Ho; subst; auto.
Qed.

Ltac last_wins_step :=
  eapply last_wins_cons;
    [eassumption
    | intros Heq; first [discriminate Heq
                        | cbv beta;
                          repeat (match goal with H : ?x = Ok _ |- context [?x] => rewrite H end;
                                  cbn [res_bind]);
                          reflexivity]
    | intros Hne; first [reflexivity | congruence]].

(** ** The challenge line

    [buildAuthenticationHeader] writes one line, ended by CRLF; a
    configured realm and configured scopes hold no CR, so the line is
    the text up to the first CRLF. *)

#[local] Arguments String.append : simpl nomatch.

Definition challenge_line (realm : option string) (scopes : list string) : string :=
  "WWW-Authenticate: Bearer"
    ++ (match realm with Some r => " realm=" ++ dq ++ r ++ dq | None => "" end)
    ++ " scope=" ++ dq ++ "openid" ++ dq ++ scopes_text scopes.

Lemma buildAuthenticationHeader_line realm scopes :
  buildAuthenticationHeader realm scopes = challenge_line realm scopes ++ crlf.
Proof. unfold buildAuthenticationHeader, challenge_line. by rewrite <- !append_assoc. Qed.

Lemma no_cr_code s : Forall (fun c => code c <> 13%nat) (list_ascii_of_string s) -> no_cr s = true.
Proof.
  induction s as [|c s IH]; simpl; [done|]. intros [Hc Hs]%Forall_cons.
  rewrite IH by exact Hs. destruct (Ascii.eqb_spec c cr_chr) as [->|]; [done | reflexivity].
Qed.

Lemma no_cr_escape s : no_cr s = true -> no_cr (escape s) = true.
Proof.
  induction s as [|c s IH]; simpl; [done|]. intros [Hc Hs]%andb_prop.
  destruct (needs_escape c); simpl; rewrite Hc, IH by exact Hs; reflexivity.
Qed.

Lemma realm_no_cr r : getRealmError r = None -> no_cr (makeRealm r) = true.
Proof.
  unfold getRealmError. rewrite first_error_None, makeRealm_eq_escape. intros Hr.
  apply no_cr_escape, no_cr_code. eapply Forall_impl; [exact Hr|].
  intros c Hc%realm_char_error_None. unfold realm_char_ok in Hc. lia.
Qed.

Lemma scope_no_cr s : getScopeError s = None -> no_cr s = true.
Proof.
  unfold getScopeError. destruct (String.eqb s ""); [discriminate|]. rewrite first_error_None.
  intros Hs. apply no_cr_code. eapply Forall_impl; [exact Hs|].
  intros c Hc%scope_char_error_None. unfold scope_char_ok in Hc. lia.
Qed.

Lemma challenge_line_no_cr p :
  provider_wf p -> no_cr (challenge_line (_realm p) (elements (_scopes p))) = true.
Proof.
  intros [Hr Hs].
  assert (Hrealm : no_cr (match _realm p with Some r => " realm=" ++ dq ++ r ++ dq | None => "" end) = true).
  { destruct (_realm p) as [r'|]; [|reflexivity]. destruct Hr as (r & -> & Hr).
    rewrite !no_cr_app, (realm_no_cr r Hr). reflexivity. }
  assert (Hsc : no_cr (scopes_text (elements (_scopes p))) = true).
  { assert (Hel : Forall (fun s => getScopeError s = None) (elements (_scopes p))).
    { apply Forall_forall. intros x Hx. apply (Hs x), elem_of_elements, Hx. }
    induction Hel as [|x l Hx _ IH]; [reflexivity|]. simpl. rewrite !no_cr_app, (scope_no_cr x Hx). exact IH. }
  unfold challenge_line. rewrite !no_cr_app, Hrealm, Hsc. reflexivity.
Qed.

(** C28: a member given twice is loaded twice and the last one wins:
    after the loop of [loadConfig], the realm, issuer, audience and
    verifier are those read from the last member of their name (the
    realm escaped, the verifier built by
    [AbstractTokenVerification::load]), or unchanged if there is none.
    Unlike the server's [authentication] member and the members of a
    [verification] object, a second [verification] member is not an
    error: the verifier of the first is dropped. *)
Theorem provider_load_members_last_wins fs obj p p' :
  provider_load_members fs obj p = Ok p' ->
  last_wins "realm" obj (fun v => let* r := asString v in Ok (Some (makeRealm r))) (_realm p) (_realm p') /\
  last_wins "issuer" obj asString (_issuer p) (_issuer p') /\
  last_wins "audience" obj asString (_audience p) (_audience p') /\
  last_wins "verification" obj (fun v => let* o := asObject v in let* tv := load fs o in Ok (Some tv))
    (_verification p) (_verification p').
Proof.
  revert p. induction obj as [|[key v] obj IH]; intros [realm issuer audience scopes claims header verif] Hl;
    simpl in Hl.
  { injection Hl as <-. unfold last_wins. simpl. auto. }
  destruct (String.eqb_spec key "realm") as [->|_].
  { res_simpl. destruct (getRealmError _); [discriminate|].
    apply IH in Hl as (H1 & H2 & H3 & H4). repeat split; last_wins_step. }
  destruct (String.eqb_spec key "scopes") as [->|_].
  { res_simpl. apply IH in Hl as (H1 & H2 & H3 & H4). repeat split; last_wins_step. }
  destruct (String.eqb_spec key "issuer") as [->|_].
  { res_simpl. destruct (String.eqb a ""); [discriminate|].
    apply IH in Hl as (H1 & H2 & H3 & H4). repeat split; last_wins_step. }
  destruct (String.eqb_spec key "audience") as [->|_].
  { res_simpl. destruct (String.eqb a ""); [discriminate|].
    apply IH in Hl as (H1 & H2 & H3 & H4). repeat split; last_wins_step. }
  destruct (String.eqb_spec key "claims") as [->|_].
  { res_simpl. apply IH in Hl as (H1 & H2 & H3 & H4). repeat split; last_wins_step. }
  destruct (String.eqb_spec key "verification") as [->|_]; [|discriminate].
  res_simpl. apply IH in Hl as (H1 & H2 & H3 & H4). repeat split; last_wins_step.
Qed.

Section HeaderTheorems.
Context `{JwtLibrary}.

(** C27: after [initialize], the provider's [WWW-Authenticate] header
    reads back, by [parse_challenge], to the raw realm the configuration
    gave and to the configured scopes in the set's iteration order; the
    rest of the provider is the loaded one with its verifier
    initialized. *)
Theorem provider_initialize_header fs p p' :
  provider_wf p -> provider_initialize fs p = Ok p' ->
  (exists raw, option_map makeRealm raw = _realm p /\
     parse_challenge (_wwwAuthernicateHeader p') = Some (raw, elements (_scopes p))) /\
  (exists v v', _verification p = Some v /\ tv_initialize fs v = Ok v' /\
     _verification p' = Some v') /\
  _realm p' = _realm p /\ _issuer p' = _issuer p /\ _audience p' = _audience p /\
  _scopes p' = _scopes p /\ _claims p' = _claims p.
Proof.
  intros [Hr Hs]. unfold provider_initialize.
  destruct (_verification p) as [v|] eqn:Hv; [|discriminate]. intros Hi. res_simpl.
  subst p'. simpl. split; [|split; [eauto | done]].
  assert (Hel : Forall (fun s => getScopeError s = None) (elements (_scopes p))).
  { apply Forall_forall. intros x Hx. apply (Hs x), elem_of_elements, Hx. }
  destruct (_realm p) as [r'|] eqn:Hrealm.
  - destruct Hr as (r & -> & _). exists (Some r). split; [done|].
    exact (challenge_roundtrip (Some r) _ Hel).
  - exists None. split; [done|]. exact (challenge_roundtrip None _ Hel).
Qed.

End HeaderTheorems.

(** ** A configuration as the sample's config file writes it *)

Definition ex_fs : filesystem :=
  fun path => if String.eqb path "/keys/secret" then Some "secret" else None.

Definition ex_config : list (string * value) :=
  [("realm", VString ("Xentara " ++ dq ++ "web" ++ dq));
   ("scopes", VArray [VString "read"; VString "write"]);
   ("issuer", VString "acme"); ("audience", VString "api");
   ("verification", VObject [("@HS256", VObject [("keyFile", VString "/keys/secret")])])].

Definition ex_loaded : provider :=
  match provider_loadConfig ex_fs ex_config provider_init with Ok p => p | Err _ => provider_init end.

#[local] Instance ex_config_lib : JwtLibrary := toy_jwt_with [] [].

Definition ex_initialized : provider :=
  match provider_initialize ex_fs ex_loaded with Ok p => p | Err _ => ex_loaded end.

Lemma ex_loaded_wf : provider_wf ex_loaded.
Proof.
  split.
  - vm_compute. exists ("Xentara " ++ dq ++ "web" ++ dq). split; vm_compute; reflexivity.
  - apply (bool_decide_unpack _). vm_compute. reflexivity.
Qed.

(** The witness of [provider_initialize_header]: the escaped realm
    [Xentara \"web\"] reads back unescaped. *)
Lemma provider_initialize_header_witness :
  provider_initialize ex_fs ex_loaded = Ok ex_initialized /\
  (exists raw, option_map makeRealm raw = _realm ex_loaded /\
     parse_challenge (_wwwAuthernicateHeader ex_initialized) = Some (raw, elements (_scopes ex_loaded))) /\
  parse_challenge (_wwwAuthernicateHeader ex_initialized)
    = Some (Some ("Xentara " ++ dq ++ "web" ++ dq), elements (_scopes ex_loaded)).
Proof.
  assert (H : provider_initialize ex_fs ex_loaded = Ok ex_initialized) by (vm_compute; reflexivity).
  split; [exact H|]. split; [exact (proj1 (provider_initialize_header _ _ _ ex_loaded_wf H))|].
  vm_compute. reflexivity.
Defined.

(** The witness of [provider_load_members_last_wins]: the sample
    configuration followed by a second issuer and a second
    [verification] (an [HS512] key at the same path); the provider
    keeps the second issuer and the [HS512] verifier. *)
Definition ex_twice : list (string * value) :=
  ex_config ++ [("issuer", VString "other");
                ("verification", VObject [("@HS512", VObject [("keyFile", VString "/keys/secret")])])].

Definition ex_twice_loaded : provider :=
  match provider_load_members ex_fs ex_twice provider_init with Ok p => p | Err _ => provider_init end.

Lemma provider_load_members_last_wins_witness :
  provider_load_members ex_fs ex_twice provider_init = Ok ex_twice_loaded /\
  last_wins "issuer" ex_twice asString (_issuer provider_init) (_issuer ex_twice_loaded) /\
  _issuer ex_twice_loaded = "other" /\
  _verification ex_twice_loaded = Some (TVSimple (mkSimple "/keys/secret" HS512 None)).
Proof.
  assert (H : provider_load_members ex_fs ex_twice provider_init = Ok ex_twice_loaded)
    by (vm_compute; reflexivity).
  split; [exact H|]. split; [exact (proj1 (proj2 (provider_load_members_last_wins _ _ _ _ H)))|].
  split; vm_compute; reflexivity.
Defined.
