(* ===== verification/AuthProvider.v ===== *)
(** * AuthProvider: the interface [AbstractAuthenticationProvider]

    Models [src/src/AbstractAuthenticationProvider.hpp]: the abstract
    class the server holds its provider through
    ([std::unique_ptr<AbstractAuthenticationProvider> _authentication]),
    with its three pure virtual methods [loadConfig], [initialize] and
    [checkAuthentication]. The class [AbstractAuthenticationProvider]
    lists the methods; [AuthenticationProviderLaws] states what the
    server relies on of any implementation: [checkAuthentication]
    returns exactly on the requests the implementation accepts, and an
    exception it throws can be written as a response. The one
    implementation, [OpenIdAuthenticationProvider]
    ([src/src/OpenIdAuthenticationProvider.hpp], its [final] overrides),
    is the instance [openid_provider], and [openid_provider_laws]
    discharges the laws with the theorems of [Provider].

    The server's request handler is proved against the interface in
    [Server]; what is proved there of the OpenID provider follows from
    this instance. The clock ([now]) and the file system are inputs of
    the methods, as the C++ reads them behind the call. *)

From Stdlib Require Import ZArith String.
From stdpp Require Import base list gmap strings.
From S2P Require Import Prelude Http Json JwtLib Verification Provider Config.

Local Open Scope string_scope.

(** [AbstractAuthenticationProvider]: [loadConfig] reads the provider's
    configuration object (and throws a configuration error),
    [initialize] prepares it for requests, [checkAuthentication] returns
    on a request it accepts and throws otherwise. *)
Class AbstractAuthenticationProvider (P : Type) := {
  ap_loadConfig : filesystem -> list (string * value) -> P -> res config_error P;
  ap_initialize : filesystem -> P -> res exn P;
  ap_checkAuthentication : P -> Z -> request -> res exn unit
}.

(** The contract of an implementation: a predicate [ap_accepted] that
    [checkAuthentication] decides, and exceptions whose response code
    is one line (so that [Server::sendResponse] writes a status line). *)
Class AuthenticationProviderLaws (P : Type) `{!AbstractAuthenticationProvider P} := {
  ap_accepted : P -> Z -> request -> Prop;
  ap_checkAuthentication_Ok p now headers :
    ap_checkAuthentication p now headers = Ok tt <-> ap_accepted p now headers;
  ap_checkAuthentication_exn_ok p now headers e :
    ap_checkAuthentication p now headers = Err e -> exn_ok e
}.

Section Laws.
Context {P : Type} `{AuthenticationProviderLaws P}.

Lemma ap_checkAuthentication_Err p now headers :
  ~ ap_accepted p now headers ->
  exists e, ap_checkAuthentication p now headers = Err e /\ exn_ok e.
Proof.
  intros Hna. destruct (ap_checkAuthentication p now headers) as [[]|e] eqn:Hc.
  - exfalso. by apply Hna, ap_checkAuthentication_Ok.
  - exists e. split; [reflexivity|]. exact (ap_checkAuthentication_exn_ok _ _ _ _ Hc).
Qed.

End Laws.

(** ** The OpenID provider *)

Section OpenId.
Context `{JwtLibrary}.

(** [class OpenIdAuthenticationProvider final : public
    AbstractAuthenticationProvider]: its overrides are
    [OpenIdAuthenticationProvider::loadConfig], the inline
    [initialize] and [checkAuthentication]. *)
#[export] Instance openid_provider : AbstractAuthenticationProvider provider := {
  ap_loadConfig := provider_loadConfig;
  ap_initialize := provider_initialize;
  ap_checkAuthentication := checkAuthentication
}.

#[export] Instance openid_provider_laws : AuthenticationProviderLaws provider := {
  ap_accepted := accepted;
  ap_checkAuthentication_Ok := checkAuthentication_Ok_iff;
  ap_checkAuthentication_exn_ok := checkAuthentication_exn_ok
}.

(** The virtual calls on the OpenID provider are its overrides. *)
Lemma openid_loadConfig fs obj p : ap_loadConfig fs obj p = provider_loadConfig fs obj p.
Proof. reflexivity. Qed.

Lemma openid_initialize fs p : ap_initialize fs p = provider_initialize fs p.
Proof. reflexivity. Qed.

Lemma openid_checkAuthentication p now headers :
  ap_checkAuthentication p now headers = checkAuthentication p now headers.
Proof. reflexivity. Qed.

End OpenId.

#[export] Hint Rewrite @openid_loadConfig @openid_initialize @openid_checkAuthentication : jwt_rw.
