(* ===== verification/Server.v ===== *)
(** * Server: the web service microservice

    Models [src/src/Server.cpp] and [src/src/Server.hpp]: the
    configuration of the [Server] element ([loadConfig] and
    [loadAuthenticationProvider]), its start ([prepare]), the request
    handler [beginRequestHandler] (authentication first, then the
    method check, the exceptions turned into responses by its [catch]
    clauses), and [cleanup]. The provider is called through the
    interface of [AuthProvider] ([ap_loadConfig], [ap_initialize],
    [ap_checkAuthentication]), as the C++ calls it through its
    [AbstractAuthenticationProvider] pointer; the request handler is
    proved for any provider that keeps the interface's laws. The life
    cycle Xentara drives (load, prepare, requests, cleanup) is the step
    relation [step], modelled from the specification since the runtime
    is not in [src/]; the theorems show what holds of a server that
    serves requests, and which configurations [loadConfig] accepts. *)

From Stdlib Require Import ZArith String Ascii Relations.
From stdpp Require Import base list gmap strings.
From S2P Require Import Prelude Http Json JwtLib Registry Challenge Claims Verification Provider Config AuthProvider.

Local Open Scope string_scope.

(** The fields of [Server]. [_context] is [httplib_start]'s context,
    non-null ([true]) once started. *)
Record Server := mkServer {
  _portNumber : Z;
  _authentication : option provider;
  _serverCertificatePath : string;
  _context : bool
}.

(** A server as constructed: [_portNumber] has no initializer, so its
    value is whatever the construction leaves there, [port0]. *)
Definition newServer (port0 : Z) : Server := mkServer port0 None "" false.

(** [value.asNumber<utils::network::PortNumber>()]: an integer in the
    range of [std::uint16_t]. *)
Definition asPortNumber (v : value) : res config_error Z :=
  match v with
  | VInt64 z => if (0 <=? z)%Z && (z <? 65536)%Z then Ok z else Err "number out of range"
  | _ => Err "expected a number"
  end.

Definition msg_empty_port : config_error := "empty portNumber for webService Server".
Definition msg_empty_certificate : config_error := "empty serverCertificate for WebService Server".
Definition msg_relative_certificate : config_error :=
  "invalid Certificate path : set absolute path for the Web Service Server Certificate".
Definition msg_certificate_not_found : config_error := "missing serverCertificate".
Definition msg_missing_port : config_error := "missing portNumber for webService Server".
Definition msg_missing_authentication : config_error := "missing Authentication for webService Server".
Definition msg_missing_certificate : config_error := "missing serverCertificate for webService Server".
Definition msg_duplicate_provider : config_error :=
  "duplicate authentication provider for authentication in web service server".
Definition msg_missing_provider_server : config_error :=
  "missing authentication provider for authentication in web service server".

(** ** Configuration *)

Section Loading.
Context `{JwtLibrary}.

(** The loop of [loadAuthenticationProvider], with its flag
    [readAuthentication]: an [@OpenID] member creates the provider
    ([std::make_unique<OpenIdAuthenticationProvider>()], its fields as
    constructed) and loads it through the interface, unless one exists
    already. *)
Fixpoint auth_load_members (fs : filesystem) (jsonObject : list (string * value))
    (authentication : option provider) (readAuthentication : bool)
    : res config_error (option provider * bool) :=
  match jsonObject with
  | [] => Ok (authentication, readAuthentication)
  | (key, v) :: members =>
      if String.eqb key "@OpenID" then
        match authentication with
        | Some _ => Err msg_duplicate_provider
        | None =>
            let* openId := asObject v in
            let* p := ap_loadConfig fs openId provider_init in
            auth_load_members fs members (Some p) true
        end
      else Err (unknownParameterError key)
  end.

(** [Server::loadAuthenticationProvider]. *)
Definition loadAuthenticationProvider (fs : filesystem) (jsonObject : list (string * value))
    (s : Server) : res config_error Server :=
  let* r := auth_load_members fs jsonObject (_authentication s) false in
  let '(authentication, readAuthentication) := r in
  if negb readAuthentication then Err msg_missing_provider_server
  else Ok (mkServer (_portNumber s) authentication (_serverCertificatePath s) (_context s)).

(** The [fallbackHandler] Xentara passes for the members the server
    does not know (the microservice's common parameters). *)
Variable fallbackHandler : string -> value -> res config_error unit.

(** The loop of [Server::loadConfig], with its flag
    [readAuthentication]. *)
Fixpoint server_load_members (fs : filesystem) (jsonObject : list (string * value))
    (s : Server) (readAuthentication : bool) : res config_error (Server * bool) :=
  match jsonObject with
  | [] => Ok (s, readAuthentication)
  | (key, v) :: members =>
      if String.eqb key "portNumber" then
        let* portNumber := asPortNumber v in
        if (portNumber =? 0)%Z then Err msg_empty_port
        else server_load_members fs members
               (mkServer portNumber (_authentication s) (_serverCertificatePath s) (_context s))
               readAuthentication
      else if String.eqb key "authentication" then
        let* authentication := asObject v in
        let* s' := loadAuthenticationProvider fs authentication s in
        server_load_members fs members s' true
      else if String.eqb key "serverCertificate" then
        let* serverCertificate := asString v in
        if String.eqb serverCertificate "" then Err msg_empty_certificate
        else if negb (is_absolute serverCertificate) then Err msg_relative_certificate
        else match fs serverCertificate with
             | None => Err msg_certificate_not_found
             | Some _ =>
                 server_load_members fs members
                   (mkServer (_portNumber s) (_authentication s) serverCertificate (_context s))
                   readAuthentication
             end
      else
        do* fallbackHandler key v in
        server_load_members fs members s readAuthentication
  end.

(** [Server::loadConfig]. *)
Definition server_loadConfig (fs : filesystem) (jsonObject : list (string * value))
    (s : Server) : res config_error Server :=
  let* r := server_load_members fs jsonObject s false in
  let '(s', readAuthentication) := r in
  if (_portNumber s' =? 0)%Z then Err msg_missing_port
  else if negb readAuthentication then Err msg_missing_authentication
  else if String.eqb (_serverCertificatePath s') "" then Err msg_missing_certificate
  else Ok s'.

End Loading.

(** ** Start, requests and stop *)

(** What the handler reads of [httplib_get_request_info]: the method
    and the header fields. *)
Record http_request := mkRequest {
  request_method : string;
  request_headers : request
}.

Definition method_not_allowed : exn :=
  HttpErr (mkHttpError "405 Method Not Allowed" ("only " ++ dq ++ "GET" ++ dq ++ " method is accepted") "").

Definition kHello : string := "Hello from Xentara!".

(** The [try] block of [Server::beginRequestHandler]: authentication
    through the interface, then the method, then the greeting. *)
Definition handle_request {P} `{!AbstractAuthenticationProvider P} (p : P) (now : Z)
    (req : http_request) : res exn string :=
  do* ap_checkAuthentication p now (request_headers req) in
  if negb (String.eqb (request_method req) "GET") then Err method_not_allowed
  else Ok (sendResponse "200 OK" kHello "").

Section Running.
Context `{JwtLibrary}.

(** [httplib_start] with the listening port and the certificate path:
    whether it returns a context. *)
Variable httplib_start : string -> string -> bool.

(** [Server::prepare]: initialize the provider, then start the server
    on the port followed by ["s"] (TLS). A null [_authentication] cannot
    come out of [loadConfig]. *)
Definition prepare (fs : filesystem) (s : Server) : res exn Server :=
  match _authentication s with
  | None => Err (StdErr "authentication not loaded")
  | Some p =>
      let* p' := ap_initialize fs p in
      let portNumberString := dec_of_Z (_portNumber s) ++ "s" in
      if httplib_start portNumberString (_serverCertificatePath s)
      then Ok (mkServer (_portNumber s) (Some p') (_serverCertificatePath s) true)
      else Err (StdErr "Could not initialize the web Service Server")
  end.


(** [Server::beginRequestHandler]: the response written to the
    connection, the exceptions answered by the [catch] clauses. *)
Definition beginRequestHandler (s : Server) (now : Z) (req : http_request) : string :=
  match _authentication s with
  | None => respond_exn (StdErr "authentication not loaded")
  | Some p =>
      match handle_request p now req with
      | Ok response => response
      | Err e => respond_exn e
      end
  end.

(** [Server::cleanup]: [httplib_stop]. *)
Definition cleanup (s : Server) : Server :=
  mkServer (_portNumber s) (_authentication s) (_serverCertificatePath s) false.

(** [Server::logMessageHandler]: the message is printed as a line on
    [std::cout]; [1] marks it handled. [staticLogMessageHandler] finds the
    server in the context's user data and calls it. *)
Definition logMessageHandler (cout : list string) (message : string) : list string * Z :=
  ((cout ++ [message])%list, 1%Z).

Definition staticLogMessageHandler (cout : list string) (message : string) : list string * Z :=
  logMessageHandler cout message.

(** [staticBeginRequestHandler]: the server of the context answers the
    connection; [1] marks the request processed. *)
Definition staticBeginRequestHandler (s : Server) (now : Z) (req : http_request) : Z * string :=
  (1%Z, beginRequestHandler s now req).

(** ** Life cycle *)

Inductive phase := Constructed | Loaded | Running | Stopped.

Record server_state := mkState { st_server : Server; st_phase : phase }.

Inductive event :=
  | ELoad (jsonObject : list (string * value))
  | EPrepare
  | ERequest (now : Z) (req : http_request) (response : string)
  | ECleanup.

Variable fs : filesystem.
Variable fallbackHandler : string -> value -> res config_error unit.

(** The order in which Xentara calls the element: [loadConfig] once,
    [prepare] once, the request handler any number of times, then
    [cleanup]; a call that throws stops the element. *)
Inductive step : server_state -> event -> server_state -> Prop :=
  | step_load s obj s' :
      server_loadConfig fallbackHandler fs obj s = Ok s' ->
      step (mkState s Constructed) (ELoad obj) (mkState s' Loaded)
  | step_prepare s s' :
      prepare fs s = Ok s' ->
      step (mkState s Loaded) EPrepare (mkState s' Running)
  | step_request s now req :
      step (mkState s Running) (ERequest now req (beginRequestHandler s now req)) (mkState s Running)
  | step_cleanup s :
      step (mkState s Running) ECleanup (mkState (cleanup s) Stopped).

(** The states reachable from a constructed server by a trace of
    events. *)
Inductive reachable (port0 : Z) : server_state -> list event -> Prop :=
  | reach_init : reachable port0 (mkState (newServer port0) Constructed) []
  | reach_step st evs e st' :
      reachable port0 st evs -> step st e st' -> reachable port0 st' (evs ++ [e])%list.

End Running.

(** ** Invariants *)

Definition auth_ok (authentication : option provider) : Prop :=
  match authentication with None => True | Some p => provider_loaded p end.

(** A verifier that [verify] can use: a simple verifier holds its
    [jwt::verifier] after [initialize]. *)
Definition verifier_ready (tv : TokenVerification) : Prop :=
  match tv with TVSimple st => _verifier st <> None | TVJwks _ => True end.

(** The fields [loadConfig] leaves that the running server keeps: a
    non-zero port, either configured in range or the constructed value
    [port0]; an absolute certificate path to an existing file. *)
Definition config_ok (fs : filesystem) (port0 : Z) (s : Server) : Prop :=
  _portNumber s <> 0%Z /\ (_portNumber s = port0 \/ (0 < _portNumber s < 65536)%Z) /\
  _serverCertificatePath s <> "" /\ is_absolute (_serverCertificatePath s) = true /\
  fs (_serverCertificatePath s) <> None.

Definition loaded_inv (fs : filesystem) (port0 : Z) (s : Server) : Prop :=
  (exists p, _authentication s = Some p /\ provider_loaded p) /\
  config_ok fs port0 s /\ _context s = false.

Definition running_inv (fs : filesystem) (port0 : Z) (s : Server) : Prop :=
  (exists p tv, _authentication s = Some p /\ provider_loaded p /\
     _verification p = Some tv /\ verifier_ready tv /\
     _wwwAuthernicateHeader p = buildAuthenticationHeader (_realm p) (elements (_scopes p))) /\
  config_ok fs port0 s /\ _context s = true.

Lemma auth_load_members_inv `{JwtLibrary} fs obj a b a' b' :
  auth_ok a -> (b = true -> a <> None) ->
  auth_load_members fs obj a b = Ok (a', b') ->
  auth_ok a' /\ (b' = true -> a' <> None).
Proof.
  revert a b. induction obj as [|[key v] obj IH]; intros a b Ha Hb Hl; simpl in Hl.
  - injection Hl as <- <-. auto.
  - destruct (String.eqb key "@OpenID"); [|discriminate].
    destruct a; try discriminate; res_simpl;
      (apply IH in Hl; [exact Hl | exact (provider_loadConfig_Ok _ _ _ Hc0) | discriminate]).
Qed.

Lemma loadAuthenticationProvider_inv `{JwtLibrary} fs obj s s' :
  auth_ok (_authentication s) -> loadAuthenticationProvider fs obj s = Ok s' ->
  auth_ok (_authentication s') /\ _authentication s' <> None /\
  _portNumber s' = _portNumber s /\ _serverCertificatePath s' = _serverCertificatePath s /\
  _context s' = _context s.
Proof.
  unfold loadAuthenticationProvider. intros Ha Hl. res_simpl. destruct a as [a' b'].
  apply auth_load_members_inv in Hc as [Ha' Hb']; [|exact Ha | discriminate].
  destruct b'; [|discriminate]. injection Hl as <-. simpl. auto.
Qed.

Section LoadInvariant.
Context `{JwtLibrary}.
Variable fallbackHandler : string -> value -> res config_error unit.
Variable fs : filesystem.
Variable port0 : Z.

(** What the loop of [loadConfig] keeps. *)
Definition members_inv (s : Server) (readAuthentication : bool) : Prop :=
  auth_ok (_authentication s) /\ (readAuthentication = true -> _authentication s <> None) /\
  (_portNumber s = port0 \/ (0 < _portNumber s < 65536)%Z) /\
  (_serverCertificatePath s = "" \/
   (is_absolute (_serverCertificatePath s) = true /\ fs (_serverCertificatePath s) <> None)) /\
  _context s = false.

Lemma asPortNumber_Ok v z : asPortNumber v = Ok z -> (0 <= z < 65536)%Z.
Proof.
  destruct v; try discriminate. simpl.
  destruct (Z.leb_spec 0 z0), (Z.ltb_spec z0 65536); try discriminate. intros [= <-]. lia.
Qed.

Lemma server_load_members_inv obj s b s' b' :
  members_inv s b -> server_load_members fallbackHandler fs obj s b = Ok (s', b') ->
  members_inv s' b'.
Proof.
  revert s b. induction obj as [|[key v] obj IH]; intros s b Hinv Hl; simpl in Hl.
  { injection Hl as <- <-. exact Hinv. }
  destruct Hinv as (Ha & Hb & Hport & Hcert & Hctx).
  destruct (String.eqb key "portNumber").
  { res_simpl. destruct (Z.eqb_spec a 0) as [|Hne]; [discriminate|].
    apply asPortNumber_Ok in Hc. apply IH in Hl; [exact Hl|].
    repeat split; simpl; auto. right. lia. }
  destruct (String.eqb key "authentication").
  { res_simpl. apply loadAuthenticationProvider_inv in Hc0 as (Ha' & Hn & Hp & Hc' & Hx); [|exact Ha].
    apply IH in Hl; [exact Hl|]. split; [exact Ha'|]. split; [intros _; exact Hn|].
    rewrite Hp, Hc', Hx. auto. }
  destruct (String.eqb key "serverCertificate").
  { res_simpl. destruct (String.eqb_spec a "") as [|Hne]; [discriminate|].
    destruct (is_absolute a) eqn:Habs; [|discriminate]. simpl in Hl.
    destruct (fs a) eqn:Hfs; [|discriminate].
    apply IH in Hl; [exact Hl|]. repeat split; simpl; auto.
    right. split; [done | congruence]. }
  res_simpl. apply IH in Hl; [exact Hl|]. repeat split; auto.
Qed.

Lemma server_loadConfig_inv s s' obj :
  members_inv s false -> server_loadConfig fallbackHandler fs obj s = Ok s' ->
  loaded_inv fs port0 s'.
Proof.
  unfold server_loadConfig. intros Hinv Hl. res_simpl. destruct a as [s1 b].
  apply server_load_members_inv in Hc as (Ha & Hb & Hport & Hcert & Hctx); [|exact Hinv].
  destruct (Z.eqb_spec (_portNumber s1) 0) as [|Hp]; [discriminate|].
  destruct b; [|discriminate]. simpl in Hl.
  destruct (String.eqb_spec (_serverCertificatePath s1) "") as [|Hc]; [discriminate|].
  injection Hl as <-.
  destruct (_authentication s1) as [p|] eqn:Hauth; [|by destruct Hb].
  split; [by exists p|]. split; [|exact Hctx].
  destruct Hcert as [|[Habs Hfs]]; [done|]. repeat split; auto.
Qed.

End LoadInvariant.

Section Lifecycle.
Context `{JwtLibrary}.
Variable httplib_start : string -> string -> bool.
Variable fs : filesystem.
Variable fallbackHandler : string -> value -> res config_error unit.
Variable port0 : Z.

Lemma tv_initialize_ready tv tv' :
  tv_union_initialize fs tv = Ok tv' -> verifier_ready tv'.
Proof.
  destruct tv as [st|j]; simpl; intros Hi; res_simpl; subst tv'; [|exact I].
  unfold simple_initialize in Hc. res_simpl. subst. simpl. discriminate.
Qed.

Lemma provider_initialize_inv p p' :
  provider_loaded p -> provider_initialize fs p = Ok p' ->
  provider_loaded p' /\ (exists tv, _verification p' = Some tv /\ verifier_ready tv) /\
  _wwwAuthernicateHeader p' = buildAuthenticationHeader (_realm p') (elements (_scopes p')).
Proof.
  intros (Hi & Ha & _ & Hwf). unfold provider_initialize.
  destruct (_verification p) as [v|] eqn:Hv; [|discriminate]. intros Hl. res_simpl.
  pose proof (tv_initialize_ready _ _ Hc) as Hr. subst p'. simpl.
  split; [|split].
  - split; [exact Hi|]. split; [exact Ha|]. split; [eauto | exact Hwf].
  - eauto.
  - reflexivity.
Qed.

Lemma prepare_inv s s' :
  loaded_inv fs port0 s -> prepare httplib_start fs s = Ok s' -> running_inv fs port0 s'.
Proof.
  intros ((p & Hp & Hl) & Hcfg & _). unfold prepare. rewrite Hp. intros Hprep. res_simpl.
  destruct (httplib_start _ _); [|discriminate]. injection Hprep as <-.
  apply provider_initialize_inv in Hc as (Hl' & (tv & Hv & Hr) & Hh); [|exact Hl].
  split; [exists a, tv; auto|]. split; [exact Hcfg | done].
Qed.

(** The invariant of each phase. *)
Definition phase_inv (st : server_state) : Prop :=
  match st_phase st with
  | Constructed => st_server st = newServer port0
  | Loaded => loaded_inv fs port0 (st_server st)
  | Running => running_inv fs port0 (st_server st)
  | Stopped => config_ok fs port0 (st_server st) /\ _context (st_server st) = false
  end.

Lemma step_inv st e st' :
  phase_inv st -> step httplib_start fs fallbackHandler st e st' -> phase_inv st'.
Proof.
  intros Hinv Hstep. destruct Hstep as [s obj s' Hl|s s' Hp|s now req|s]; unfold phase_inv in *; simpl in *.
  - subst s. eapply server_loadConfig_inv; [|exact Hl].
    repeat split; simpl; auto.
  - exact (prepare_inv _ _ Hinv Hp).
  - exact Hinv.
  - destruct Hinv as (_ & Hcfg & _). split; [exact Hcfg | done].
Qed.

Lemma reachable_inv st evs :
  reachable httplib_start fs fallbackHandler port0 st evs -> phase_inv st.
Proof.
  induction 1 as [|st evs e st' _ IH Hstep]; [reflexivity|].
  exact (step_inv _ _ _ IH Hstep).
Qed.

End Lifecycle.

(** ** The request handler against the interface *)

Section Interface.
Context {P : Type} `{AuthenticationProviderLaws P}.
Implicit Types (p : P).

Lemma handle_request_accepted p now req :
  ap_accepted p now (request_headers req) ->
  handle_request p now req =
    if String.eqb (request_method req) "GET" then Ok (sendResponse "200 OK" kHello "")
    else Err method_not_allowed.
Proof.
  intros Ha%ap_checkAuthentication_Ok. unfold handle_request. rewrite Ha. simpl.
  by destruct (String.eqb _ _).
Qed.

Lemma handle_request_rejected p now req :
  ~ ap_accepted p now (request_headers req) ->
  exists e, ap_checkAuthentication p now (request_headers req) = Err e /\ exn_ok e /\
            handle_request p now req = Err e.
Proof.
  intros (e & He & Hok)%ap_checkAuthentication_Err. exists e. unfold handle_request. by rewrite He.
Qed.

(** What the [catch] clauses of [beginRequestHandler] write for the
    outcome of the [try] block is a well-formed response. *)
Lemma handle_request_wf p now req :
  wf_response (match handle_request p now req with Ok r => r | Err e => respond_exn e end).
Proof.
  destruct (ap_checkAuthentication p now (request_headers req)) as [[]|e] eqn:Hc.
  - apply ap_checkAuthentication_Ok in Hc. rewrite (handle_request_accepted _ _ _ Hc).
    destruct (String.eqb _ _); [apply sendResponse_wf | apply respond_exn_wf]; reflexivity.
  - unfold handle_request. rewrite Hc. apply respond_exn_wf.
    exact (ap_checkAuthentication_exn_ok _ _ _ _ Hc).
Qed.

(** C7: proved against the interface [AbstractAuthenticationProvider]
    alone, for any provider that keeps its laws: the [try] block of
    [beginRequestHandler] returns the greeting exactly for the [GET]
    requests the provider accepts, throws ["405 Method Not Allowed"]
    for the other requests it accepts, and rethrows, for a request it
    rejects, the provider's exception, which the [catch] clauses write
    as a well-formed response. *)
Theorem handle_request_contract p now req :
  (handle_request p now req = Ok (sendResponse "200 OK" kHello "") <->
     ap_accepted p now (request_headers req) /\ request_method req = "GET") /\
  (ap_accepted p now (request_headers req) -> request_method req <> "GET" ->
     handle_request p now req = Err method_not_allowed) /\
  (~ ap_accepted p now (request_headers req) -> exists e,
     ap_checkAuthentication p now (request_headers req) = Err e /\
     handle_request p now req = Err e /\ wf_response (respond_exn e)).
Proof.
  split; [split|split].
  - unfold handle_request. destruct (ap_checkAuthentication p now _) as [[]|e] eqn:Hc; [|discriminate].
    apply ap_checkAuthentication_Ok in Hc. simpl.
    destruct (String.eqb_spec (request_method req) "GET"); [auto | discriminate].
  - intros [Ha Hget]. rewrite handle_request_accepted, Hget by exact Ha. reflexivity.
  - intros Ha Hget. rewrite handle_request_accepted by exact Ha.
    by destruct (String.eqb_spec (request_method req) "GET").
  - intros (e & He & Hok & Hh)%handle_request_rejected. exists e.
    split; [exact He|]. split; [exact Hh|]. by apply respond_exn_wf.
Qed.

End Interface.

(** ** Theorems *)

Section ServerTheorems.
Context `{JwtLibrary}.
Variable httplib_start : string -> string -> bool.
Variable fs : filesystem.
Variable fallbackHandler : string -> value -> res config_error unit.
Variable port0 : Z.

Lemma checkAuthentication_Err p now headers :
  ~ accepted p now headers -> exists e, checkAuthentication p now headers = Err e.
Proof.
  intros Hna. destruct (checkAuthentication p now headers) as [[]|e] eqn:Hc; [|eauto].
  exfalso. apply Hna, checkAuthentication_Ok_iff, Hc.
Qed.

(** C4: in every reachable state in which the server serves requests,
    it holds a loaded provider whose verifier is initialized (a simple
    verifier holds its key) and whose [WWW-Authenticate] header is
    built from its realm and scopes, its issuer and audience are not
    empty, its port is non-zero and its certificate path absolute and
    present; so the null and empty [std::optional] dereferences of
    [beginRequestHandler] and [SimpleTokenVerification::verify] do not
    happen. *)
Theorem server_running_inv st evs :
  reachable httplib_start fs fallbackHandler port0 st evs -> st_phase st = Running ->
  running_inv fs port0 (st_server st).
Proof.
  intros Hr Hph. pose proof (reachable_inv _ _ _ _ _ _ Hr) as Hinv.
  unfold phase_inv in Hinv. rewrite Hph in Hinv. exact Hinv.
Qed.

(** C3: a running server answers a request whose authentication its
    provider accepts with the greeting if the method is [GET] and with
    ["405 Method Not Allowed"] otherwise, and any other request, whatever
    its method, with the exception [checkAuthentication] throws:
    authentication is checked before the method. *)
Theorem server_request_behaviour st evs :
  reachable httplib_start fs fallbackHandler port0 st evs -> st_phase st = Running ->
  exists p, _authentication (st_server st) = Some p /\
  forall now req,
    (accepted p now (request_headers req) -> request_method req = "GET" ->
       beginRequestHandler (st_server st) now req = sendResponse "200 OK" kHello "") /\
    (accepted p now (request_headers req) -> request_method req <> "GET" ->
       beginRequestHandler (st_server st) now req = respond_exn method_not_allowed) /\
    (~ accepted p now (request_headers req) -> exists e,
       checkAuthentication p now (request_headers req) = Err e /\
       beginRequestHandler (st_server st) now req = respond_exn e).
Proof.
  intros Hr Hph. pose proof (reachable_inv _ _ _ _ _ _ Hr) as Hinv.
  unfold phase_inv in Hinv. rewrite Hph in Hinv.
  destruct Hinv as ((p & tv & Hp & _) & _). exists p. split; [exact Hp|].
  intros now req. unfold beginRequestHandler. rewrite Hp.
  split; [|split].
  - intros Ha Hget. rewrite handle_request_accepted, Hget by exact Ha. reflexivity.
  - intros Ha Hget. rewrite handle_request_accepted by exact Ha.
    destruct (String.eqb_spec (request_method req) "GET"); [contradiction | reflexivity].
  - intros Hna. edestruct (handle_request_rejected (P:=provider) p now req) as (e & He & _ & ->);
      [exact Hna|]. exists e. split; [exact He | reflexivity].
Qed.

(** C25: a running server answers a request without an
    [Authorization] header with a ["401 Unauthorized"] response whose
    only header fields are [Content-Length] and [Content-Type]: the
    [WWW-Authenticate] challenge the provider built is written into the
    body, after ["Authentication required"], not among the header
    fields. *)
Theorem server_challenge_in_body st evs now req :
  reachable httplib_start fs fallbackHandler port0 st evs -> st_phase st = Running ->
  authorization_values (request_headers req) = [] ->
  exists p len, _authentication (st_server st) = Some p /\
    parse_response (beginRequestHandler (st_server st) now req)
      = Some ("401 Unauthorized", [("Content-Length", len); ("Content-Type", "text/plain")],
              "Authentication required" ++ " " ++ crlf ++
              buildAuthenticationHeader (_realm p) (elements (_scopes p)) ++ crlf).
Proof.
  intros Hr Hph Hnone. pose proof (reachable_inv _ _ _ _ _ _ Hr) as Hinv.
  unfold phase_inv in Hinv. rewrite Hph in Hinv.
  destruct Hinv as ((p & tv & Hp & _ & _ & _ & Hhdr) & _).
  exists p, (dec_of_nat (String.length ("Authentication required" ++ " " ++ crlf ++ hdr p ++ crlf))).
  split; [exact Hp|].
  unfold beginRequestHandler, handle_request. rewrite Hp, openid_checkAuthentication.
  unfold checkAuthentication. rewrite find_authorization_spec, Hnone.
  rewrite !res_bind_Ok, res_bind_Err. unfold respond_exn, http_error.
  rewrite parse_sendResponse by reflexivity. unfold hdr. rewrite Hhdr. reflexivity.
Qed.

(** C26: the [400 Bad Request] answers of [checkAuthentication]
    (duplicate, empty or non-Bearer [Authorization]) are written by the
    [catch] of [beginRequestHandler] with no header field but
    [Content-Length] and [Content-Type]: the [WWW-Authenticate] text
    and the [error_code] and [error_message] parameters are in the
    body, after the empty message, and the parameters stand on a line of
    their own after the challenge line, not inside the challenge as
    RFC 6750 places them. *)
Theorem invalid_request_parameters_outside_challenge st evs msg :
  reachable httplib_start fs fallbackHandler port0 st evs -> st_phase st = Running ->
  exists p, _authentication (st_server st) = Some p /\
    no_cr (challenge_line (_realm p) (elements (_scopes p))) = true /\
    let body := " " ++ crlf ++ challenge_line (_realm p) (elements (_scopes p)) ++ crlf ++
                " error_code=" ++ dq ++ "invalid_request" ++ dq ++
                " error_message=" ++ dq ++ msg ++ dq ++ crlf in
    parse_response (respond_exn (invalid_request p msg)) =
      Some ("400 Bad Request",
            [("Content-Length", dec_of_nat (String.length body)); ("Content-Type", "text/plain")], body).
Proof.
  intros Hr Hph. pose proof (reachable_inv _ _ _ _ _ _ Hr) as Hinv.
  unfold phase_inv in Hinv. rewrite Hph in Hinv.
  destruct Hinv as ((p & tv & Hp & (_ & _ & _ & Hwf) & _ & _ & Hhdr) & _).
  exists p. split; [exact Hp|]. split; [exact (challenge_line_no_cr p Hwf)|].
  unfold respond_exn, invalid_request, mkHttpError, responseCode, responseData, hdr.
  cbn [_responseCode _responseData]. rewrite parse_sendResponse by reflexivity.
  rewrite Hhdr, buildAuthenticationHeader_line, <- !append_assoc. reflexivity.
Qed.

(** ** Starting *)

(** The key material of a verifier loads: the key file holds a key
    its factory accepts, or the key set file parses and every key of it
    can be added. *)
Definition verifier_loadable (tv : TokenVerification) : Prop :=
  match tv with
  | TVSimple st => exists key, fs (_keyFile st) = Some key /\ key_valid (_verifierFactory st) key = true
  | TVJwks j => exists text jwks m, fs (_jwksFile j) = Some text /\ parse_jwks text = Ok jwks /\
                  jwks_add_keys (_verifiers j) jwks = Ok m
  end.

Lemma verifier_loadable_iff tv :
  verifier_loadable tv <-> exists tv', tv_union_initialize fs tv = Ok tv'.
Proof.
  destruct tv as [st|j]; simpl; unfold simple_initialize, jwks_initialize, readFile;
    cbn [factory_create ConcreteTokenVerifierFactory]; unfold create.
  - destruct (fs (_keyFile st)) as [key|]; simpl; [|split; [intros (? & [=] & _) | intros (? & [=])]].
    destruct (key_valid (_verifierFactory st) key) eqn:Hv; simpl.
    + split; [intros _; eexists; reflexivity | intros _; exists key; split; [reflexivity | exact Hv]].
    + split; [intros (k & Hk & Hf); simplify_eq; congruence | intros (? & [=])].
  - destruct (fs (_jwksFile j)) as [text|]; simpl; [|split; [intros (? & ? & ? & [=] & _) | intros (? & [=])]].
    destruct (parse_jwks text) as [jwks|e] eqn:Hpj; simpl;
      [|split; [intros (t' & js & m' & Ht & Hj & _); simplify_eq; congruence | intros (? & [=])]].
    destruct (jwks_add_keys (_verifiers j) jwks) as [m|e] eqn:Hm; simpl.
    + split; [intros _; eexists; reflexivity | intros _; exists text, jwks, m; repeat split; first [reflexivity | assumption]].
    + split; [intros (t' & js & m' & Ht & Hj & Hm'); simplify_eq; congruence | intros (? & [=])].
Qed.

Lemma reachable_nil st : reachable httplib_start fs fallbackHandler port0 st [] -> st = mkState (newServer port0) Constructed.
Proof.
  intros Hr. remember [] as l eqn:Hl. destruct Hr as [|st0 evs0 e0 st' _ _]; [reflexivity|].
  by destruct evs0.
Qed.

Lemma reachable_snoc st evs e :
  reachable httplib_start fs fallbackHandler port0 st (evs ++ [e])%list ->
  exists st0, reachable httplib_start fs fallbackHandler port0 st0 evs /\
              step httplib_start fs fallbackHandler st0 e st.
Proof.
  intros Hr. remember (evs ++ [e])%list as l eqn:Hl.
  destruct Hr as [|st0 evs0 e0 st' Hr Hs]; [by destruct evs|].
  apply app_inj_tail in Hl as [-> ->]. eauto.
Qed.

(** C6: a server whose configuration loads starts serving, by one
    [prepare], exactly when the key material of its verifier loads and
    [httplib_start] opens the port ([portNumber] followed by ["s"]) with
    the configured certificate. *)
Theorem server_starts obj s :
  server_loadConfig fallbackHandler fs obj (newServer port0) = Ok s ->
  (exists s', reachable httplib_start fs fallbackHandler port0 (mkState s' Running) [ELoad obj; EPrepare]) <->
  (forall p tv, _authentication s = Some p -> _verification p = Some tv -> verifier_loadable tv) /\
  httplib_start (dec_of_Z (_portNumber s) ++ "s") (_serverCertificatePath s) = true.
Proof.
  intros Hl. pose proof Hl as Hinv.
  apply (server_loadConfig_inv fallbackHandler fs port0) in Hinv as ((p & Hp & (_ & _ & (tv & Htv) & _)) & _);
    [|repeat split; simpl; auto].
  split.
  - intros (s' & Hr). apply (reachable_snoc _ [ELoad obj] EPrepare) in Hr as (st1 & Hr1 & Hs1).
    apply (reachable_snoc _ [] (ELoad obj)) in Hr1 as (st0 & Hr0%reachable_nil & Hs0). subst st0.
    inversion Hs0 as [? ? s1 Hl1| | |]; subst. rewrite Hl in Hl1. injection Hl1 as <-.
    inversion Hs1 as [|? ? Hprep| |]; subst.
    unfold prepare in Hprep. rewrite Hp, openid_initialize in Hprep.
    unfold provider_initialize in Hprep. rewrite Htv in Hprep. res_simpl.
    split.
    + intros p' tv' Hp' Htv'. rewrite Hp in Hp'. injection Hp' as <-. rewrite Htv in Htv'.
      injection Htv' as <-. apply verifier_loadable_iff. eauto.
    + by destruct (httplib_start _ _).
  - intros [Hload Hstart]. destruct (proj1 (verifier_loadable_iff tv) (Hload p tv Hp Htv)) as (tv' & Hi).
    eexists. apply (reach_step _ _ _ _ (mkState s Loaded) [ELoad obj] EPrepare).
    + apply (reach_step _ _ _ _ (mkState (newServer port0) Constructed) [] (ELoad obj)).
      * apply reach_init.
      * by apply step_load.
    + apply step_prepare. unfold prepare. rewrite Hp, openid_initialize.
      unfold provider_initialize. rewrite Htv.
      change (tv_initialize fs tv) with (tv_union_initialize fs tv). rewrite Hi.
      cbn. rewrite Hstart. reflexivity.
Qed.

(** The members named ["authentication"] of a configuration object. *)
Definition authentication_members (obj : list (string * value)) : nat :=
  length (List.filter (fun m => String.eqb m.1 "authentication") obj).

Lemma loadAuthenticationProvider_existing obj s p :
  _authentication s = Some p -> forall s', loadAuthenticationProvider fs obj s <> Ok s'.
Proof.
  intros Hp s'. unfold loadAuthenticationProvider. rewrite Hp.
  destruct obj as [|[key v] obj]; simpl; [discriminate|].
  by destruct (String.eqb key "@OpenID").
Qed.

(** The loop of [loadConfig] reads at most one ["authentication"]
    member once a provider exists, and sets its flag exactly when it
    reads one. *)
Lemma server_load_members_authentication obj s b s' b' :
  (b = true <-> _authentication s <> None) ->
  server_load_members fallbackHandler fs obj s b = Ok (s', b') ->
  (authentication_members obj <= if b then 0 else 1)%nat /\
  (b' = true <-> b = true \/ authentication_members obj = 1%nat).
Proof.
  unfold authentication_members.
  revert s b. induction obj as [|[key v] obj IH]; intros s b Hb Hl; simpl in Hl.
  { injection Hl as <- <-. simpl. split; [destruct b; lia|]. split; [auto | intros [?|?]; [done | lia]]. }
  simpl. destruct (String.eqb_spec key "portNumber") as [->|_].
  { res_simpl. destruct (Z.eqb _ 0); [discriminate|]. simpl. (eapply IH; [|exact Hl]; exact Hb). }
  destruct (String.eqb_spec key "authentication") as [->|Hna].
  { simpl. res_simpl. destruct (_authentication s) as [p|] eqn:Hp.
    { by apply (loadAuthenticationProvider_existing _ _ p) in Hc0. }
    apply loadAuthenticationProvider_inv in Hc0 as (_ & Hn & _); [|by rewrite Hp].
    apply IH in Hl as [Hle Hb']; [|split; [intros _; exact Hn | reflexivity]].
    destruct b; [by destruct (proj1 Hb eq_refl)|]. simpl in *. split; [lia|].
    rewrite Hb'. split; [intros _; right; lia | tauto]. }
  destruct (String.eqb key "serverCertificate").
  { res_simpl. destruct (String.eqb a ""); [discriminate|].
    destruct (negb (is_absolute a)); [discriminate|]. destruct (fs a); [|discriminate].
    (eapply IH; [|exact Hl]; exact Hb). }
  res_simpl. (eapply IH; [|exact Hl]; exact Hb).
Qed.

(** C15: [loadConfig] accepts a configuration only if it has exactly
    one member ["authentication"]: none is ["missing Authentication"],
    and a second one meets the provider the first created, so that
    [loadAuthenticationProvider] throws (["duplicate authentication
    provider"] for a second [@OpenID], or the error of its member
    loop). *)
Theorem server_loadConfig_one_authentication obj s :
  server_loadConfig fallbackHandler fs obj (newServer port0) = Ok s ->
  authentication_members obj = 1%nat.
Proof.
  unfold server_loadConfig. intros Hl. res_simpl. destruct a as [s1 b].
  apply server_load_members_authentication in Hc as [_ Hb]; [|simpl; split; [discriminate | tauto]].
  destruct (Z.eqb _ 0); [discriminate|]. destruct b; [|discriminate].
  destruct (proj1 Hb eq_refl) as [|H1]; [discriminate | exact H1].
Qed.

End ServerTheorems.

(** C5: whatever the server's state and the request, the bytes
    [beginRequestHandler] writes are a well-formed HTTP response: a
    status line, exactly the header fields [Content-Length] and
    [Content-Type], and a body of the announced length; every exception
    of the handler, [std::bad_cast] included, is answered this way. *)
Theorem beginRequestHandler_wf_response `{JwtLibrary} s now req :
  wf_response (beginRequestHandler s now req).
Proof.
  unfold beginRequestHandler.
  destruct (_authentication s) as [p|]; [apply handle_request_wf | apply respond_exn_wf; exact I].
Qed.

(** C16: the bytes [beginRequestHandler] writes do not depend on the
    order of the request's header fields: only the multiset of
    [Authorization] values matters to the header loop of
    [checkAuthentication], and a second one is rejected wherever it
    stands. *)
Theorem beginRequestHandler_header_order `{JwtLibrary} s now method hs1 hs2 :
  hs1 ≡ₚ hs2 ->
  beginRequestHandler s now (mkRequest method hs1) = beginRequestHandler s now (mkRequest method hs2).
Proof.
  intros Hp. unfold beginRequestHandler, handle_request. destruct (_authentication s) as [p|]; [|reflexivity].
  rewrite !openid_checkAuthentication. cbn [request_headers]. by rewrite Hp.
Qed.

(** ** A server configured as the sample's model file writes it *)

Definition ex_server_fs : filesystem :=
  fun path => if String.eqb path "/certs/server.pem" then Some "certificate" else ex_fs path.

Definition ex_server_config : list (string * value) :=
  [("portNumber", VInt64 8443);
   ("authentication", VObject [("@OpenID", VObject ex_config)]);
   ("serverCertificate", VString "/certs/server.pem")].

Definition ex_start (port certificate : string) : bool := true.
Definition ex_fallback (key : string) (v : value) : res config_error unit := Ok tt.

#[local] Instance ex_server_lib : JwtLibrary := toy_jwt_with [] [].

Definition ex_loaded_server : Server :=
  match server_loadConfig ex_fallback ex_server_fs ex_server_config (newServer 0) with
  | Ok s => s | Err _ => newServer 0
  end.

Definition ex_running_server : Server :=
  match prepare ex_start ex_server_fs ex_loaded_server with
  | Ok s => s | Err _ => ex_loaded_server
  end.

Definition ex_running : server_state := mkState ex_running_server Running.

Lemma ex_reachable :
  reachable ex_start ex_server_fs ex_fallback 0 ex_running
    [ELoad ex_server_config; EPrepare].
Proof.
  apply (reach_step _ _ _ _ (mkState ex_loaded_server Loaded) [ELoad ex_server_config] EPrepare).
  - apply (reach_step _ _ _ _ (mkState (newServer 0) Constructed) [] (ELoad ex_server_config)).
    + apply reach_init.
    + apply step_load. vm_compute. reflexivity.
  - apply step_prepare. vm_compute. reflexivity.
Defined.

(** The witness of [server_running_inv]. *)
Lemma server_running_inv_witness :
  st_phase ex_running = Running /\ running_inv ex_server_fs 0 (st_server ex_running).
Proof.
  split; [reflexivity|].
  exact (server_running_inv ex_start ex_server_fs ex_fallback 0 ex_running _ ex_reachable eq_refl).
Defined.

(** The witness of [server_request_behaviour]. *)
Lemma server_request_behaviour_witness :
  exists p, _authentication (st_server ex_running) = Some p.
Proof.
  destruct (server_request_behaviour ex_start ex_server_fs ex_fallback 0 ex_running _ ex_reachable eq_refl)
    as (p & Hp & _).
  exists p. exact Hp.
Defined.

(** The witness of [server_challenge_in_body]: a request without
    header fields. *)
Lemma server_challenge_in_body_witness :
  exists p len, _authentication (st_server ex_running) = Some p /\
    parse_response (beginRequestHandler (st_server ex_running) 1000 (mkRequest "GET" []))
      = Some ("401 Unauthorized", [("Content-Length", len); ("Content-Type", "text/plain")],
              "Authentication required" ++ " " ++ crlf ++
              buildAuthenticationHeader (_realm p) (elements (_scopes p)) ++ crlf).
Proof.
  exact (server_challenge_in_body ex_start ex_server_fs ex_fallback 0 ex_running _ 1000 (mkRequest "GET" [])
           ex_reachable eq_refl eq_refl).
Defined.

(** The witness of [server_starts]: the example configuration, whose
    key file holds a non-empty key. *)
Lemma server_starts_witness :
  server_loadConfig ex_fallback ex_server_fs ex_server_config (newServer 0) = Ok ex_loaded_server /\
  exists s', reachable ex_start ex_server_fs ex_fallback 0 (mkState s' Running)
               [ELoad ex_server_config; EPrepare].
Proof.
  assert (Hl : server_loadConfig ex_fallback ex_server_fs ex_server_config (newServer 0) = Ok ex_loaded_server)
    by (vm_compute; reflexivity).
  split; [exact Hl|]. apply (proj2 (server_starts ex_start ex_server_fs ex_fallback 0 _ _ Hl)). split.
  - intros p tv Hp Htv. vm_compute in Hp. injection Hp as <-. vm_compute in Htv. injection Htv as <-.
    exists "secret". split; vm_compute; reflexivity.
  - reflexivity.
Defined.

(** The witness of [invalid_request_parameters_outside_challenge]. *)
Lemma invalid_request_parameters_outside_challenge_witness :
  exists p, _authentication (st_server ex_running) = Some p /\
    no_cr (challenge_line (_realm p) (elements (_scopes p))) = true /\
    let body := " " ++ crlf ++ challenge_line (_realm p) (elements (_scopes p)) ++ crlf ++
                " error_code=" ++ dq ++ "invalid_request" ++ dq ++
                " error_message=" ++ dq ++ "Duplicate Authorization header" ++ dq ++ crlf in
    parse_response (respond_exn (invalid_request p "Duplicate Authorization header")) =
      Some ("400 Bad Request",
            [("Content-Length", dec_of_nat (String.length body)); ("Content-Type", "text/plain")], body).
Proof.
  exact (invalid_request_parameters_outside_challenge ex_start ex_server_fs ex_fallback 0 ex_running _
           "Duplicate Authorization header" ex_reachable eq_refl).
Defined.

(** The witness of [server_loadConfig_one_authentication]. *)
Lemma server_loadConfig_one_authentication_witness :
  server_loadConfig ex_fallback ex_server_fs ex_server_config (newServer 0) = Ok ex_loaded_server /\
  authentication_members ex_server_config = 1%nat.
Proof.
  assert (Hl : server_loadConfig ex_fallback ex_server_fs ex_server_config (newServer 0) = Ok ex_loaded_server)
    by (vm_compute; reflexivity).
  split; [exact Hl | exact (server_loadConfig_one_authentication ex_server_fs ex_fallback 0 _ _ Hl)].
Defined.

(** The witness of [beginRequestHandler_header_order]: the two header
    fields of a request in either order. *)
Lemma beginRequestHandler_header_order_witness :
  beginRequestHandler (st_server ex_running) 1000
    (mkRequest "GET" [("Host", "example"); ("Authorization", "Bearer tok")]) =
  beginRequestHandler (st_server ex_running) 1000
    (mkRequest "GET" [("Authorization", "Bearer tok"); ("Host", "example")]).
Proof. apply beginRequestHandler_header_order. apply perm_swap. Defined.
