(* ===== verification/Plugin.v ===== *)
(** * Plugin: registration with the Xentara runtime

    Models [src/src/Plugin.hpp], [src/src/ServiceProvider.hpp],
    [src/src/ServiceProvider.cpp] and the class object of
    [src/src/Server.hpp]: the plugin registers one service provider,
    the service provider registers one element class, [Server::Class],
    and its runtime environment creates a [Server] for that class and
    throws for any other.

    The runtime compares class objects by address; each class is one
    static object, so a class object is identified here by its fields,
    and equality of [MicroserviceClass] values stands for identity. The
    theorem shows that the environment creates exactly the elements of
    the classes the service provider registers, each a freshly
    constructed [Server], the first state of the life cycle of
    [Server.v]. *)

From Stdlib Require Import ZArith String.
From stdpp Require Import base list strings.
From S2P Require Import Prelude Http Json JwtLib Server.

Local Open Scope string_scope.

(** An element class as the runtime sees it: [name()] and [uuid()]. *)
Record MicroserviceClass := mkClass {
  mc_name : string;
  mc_uuid : string
}.

#[export] Instance MicroserviceClass_eq_dec : EqDecision MicroserviceClass.
Proof. solve_decision. Defined.

(** [Server::Class::instance()]. *)
Definition Server_Class : MicroserviceClass :=
  mkClass "Server" "1990b329-a079-43bb-98d4-a28db23a5e2b".

(** The service provider object: [name()], [uuid()] and the classes
    [registerObjects] adds to the registry. *)
Record ServiceProviderInfo := mkServiceProvider {
  sp_name : string;
  sp_uuid : string;
  sp_classes : list MicroserviceClass
}.

Definition ServiceProvider : ServiceProviderInfo :=
  mkServiceProvider "SimpleWebService" "62f9e307-1e4b-4034-a17a-7986172c74b2" [Server_Class].

(** [Plugin::registerObjects]: the one service provider. *)
Definition Plugin_registerObjects : list ServiceProviderInfo := [ServiceProvider].

Definition msg_unsupported (c : MicroserviceClass) : string :=
  "WebServer does not support microservices of type " ++ dq ++ mc_name c ++ dq.

(** [ServiceProvider::Environment::createMicroservice]: a new [Server]
    ([factory.makeShared<Server>()], whose port field holds [port0]) for
    [Server::Class], an exception for any other class. *)
Definition createMicroservice (port0 : Z) (c : MicroserviceClass) : res exn Server :=
  if decide (c = Server_Class) then Ok (newServer port0)
  else Err (StdErr (msg_unsupported c)).

(** The element classes the runtime knows from this plugin: those of
    each service provider it registers. *)
Definition registered_classes : list MicroserviceClass :=
  concat (map sp_classes Plugin_registerObjects).

(** C40: the environment creates an element exactly for the classes
    the plugin registers, and what it creates is a freshly constructed
    [Server]; for any other class it throws ["WebServer does not support
    microservices of type ..."]. *)
Theorem createMicroservice_registered port0 c :
  createMicroservice port0 c =
    if decide (c ∈ registered_classes) then Ok (newServer port0)
    else Err (StdErr (msg_unsupported c)).
Proof.
  unfold createMicroservice, registered_classes. simpl.
  destruct (decide (c = Server_Class)) as [->|Hne].
  - rewrite decide_True; [reflexivity | left].
  - rewrite decide_False; [reflexivity|]. by intros ->%list_elem_of_singleton.
Qed.
