(* ===== verification/Scenario.v ===== *)
(** * Scenario: the provider from configuration to answer

    Composes [Config] ([OpenIdAuthenticationProvider::loadConfig] and
    [initialize]), [Verification] ([AbstractTokenVerification::load],
    the [SimpleTokenVerification] with the [HS256] factory of
    [Registry]) and [Provider] ([checkAuthentication]), called through
    the interface of [AuthProvider] as [Server] calls them, on the
    configuration of the specification's scenarios: issuer ["acme"],
    audience ["api"], an [HS256] key read from ["/k"].

    The theorems hold for every jwt-cpp satisfying [JwtLibrary] and
    every file system holding a well-formed key at ["/k"]: the
    configuration loads and initializes to [scenario_provider]; a
    token whose audience and issuer are ["api"] and ["acme"], without
    dates, signed with the key, is accepted; the same token not signed
    with the key is answered ["401 invalid token"] / ["Jwt verification
    failed"] (an [HS256] failure reports [invalid_signature], whose
    value is not [token_expired]'s). The same configuration with an
    [RS256] key ([alg_config "RS256"]) accepts a token that is not
    signed with the key whenever jwt-cpp reports the failed RSA check as
    [verifyfinal_failed], as its RSA algorithms do. *)

From Stdlib Require Import ZArith String.
From stdpp Require Import base list gmap strings.
From S2P Require Import Prelude Http Json JwtLib Registry Challenge Claims Verification Provider Config AuthProvider.

Local Open Scope string_scope.

(** The [authentication] object of the scenarios, for the factory name
    [name]: issuer ["acme"], audience ["api"], a key read from ["/k"]. *)
Definition alg_config (name : string) : list (string * value) :=
  [("issuer", VString "acme"); ("audience", VString "api");
   ("verification", VObject [("@" ++ name, VObject [("keyFile", VString "/k")])])].

(** The provider [loadConfig] leaves: no realm, scope or claim
    constraint, a simple verifier for the factory of [a] without its
    verifier. *)
Definition alg_loaded (a : algorithm) : provider :=
  mkProvider None "acme" "api" ∅ ∅ "" (Some (TVSimple (mkSimple "/k" a None))).

(** ... and the provider [initialize] leaves, for the key [key]. *)
Definition alg_provider (a : algorithm) (key : string) : provider :=
  mkProvider None "acme" "api" ∅ ∅ (buildAuthenticationHeader None [])
    (Some (TVSimple (mkSimple "/k" a (Some (mkVerifier a key))))).

(** A compact token [enc] that decodes to [t], names the algorithm
    [name] and carries exactly the audience ["api"] and the issuer
    ["acme"]. *)
Definition alg_token `{JwtLibrary} (name enc : string) (t : token) : Prop :=
  jwt_decode enc = Some t /\ get_algorithm t = Ok name /\
  get_payload_claims t = [("aud", VString "api"); ("iss", VString "acme")].

(** The scenarios of the specification use [HS256]. *)
Definition scenario_config := alg_config "HS256".
Definition scenario_loaded := alg_loaded HS256.
Definition scenario_provider := alg_provider HS256.
Definition scenario_token `{JwtLibrary} := alg_token "HS256".

Section Scenario.
Context `{JwtLibrary}.
Variable fs : filesystem.
Variable key : string.

Lemma scenario_start :
  fs "/k" = Some key -> key_valid HS256 key = true ->
  ap_loadConfig fs scenario_config provider_init = Ok scenario_loaded /\
  ap_initialize fs scenario_loaded = Ok (scenario_provider key).
Proof.
  intros Hk Hv. split.
  - vm_compute. rewrite Hk. vm_compute. reflexivity.
  - cbv -[key_valid]. rewrite Hk. cbv -[key_valid]. rewrite Hv. reflexivity.
Qed.

Lemma rs256_start :
  fs "/k" = Some key -> key_valid RS256 key = true ->
  ap_loadConfig fs (alg_config "RS256") provider_init = Ok (alg_loaded RS256) /\
  ap_initialize fs (alg_loaded RS256) = Ok (alg_provider RS256 key).
Proof.
  intros Hk Hv. split.
  - vm_compute. rewrite Hk. vm_compute. reflexivity.
  - cbv -[key_valid]. rewrite Hk. cbv -[key_valid]. rewrite Hv. reflexivity.
Qed.

(** The checks before the signature pass on a scenario token. *)
Lemma scenario_checkJwt a name now enc t :
  alg_token name enc t ->
  checkJwt (alg_provider a key) now enc = checkSignature (alg_provider a key) now t.
Proof.
  intros (Hd & _ & Hp). rewrite (checkJwt_date _ _ _ t) by exact Hd.
  pose proof (jwt_decode_wf _ _ Hd) as Hwf.
  rewrite (proj2 (checkDate_Ok _ now t Hwf)) by (unfold date_ok, time_ok; rewrite Hp; split; discriminate).
  rewrite (proj2 (checkAudience_Ok _ t)) by (exists (VString "api"); by rewrite Hp).
  rewrite (proj2 (checkIssuer_Ok _ t)) by (exists (VString "acme"); by rewrite Hp).
  simpl. destruct (checkSignature _ now t) as [[]|e]; reflexivity.
Qed.

Lemma scenario_header a now enc :
  checkAuthentication (alg_provider a key) now [("Authorization", "Bearer " ++ enc)] =
  checkJwt (alg_provider a key) now enc.
Proof.
  unfold checkAuthentication. rewrite find_authorization_spec.
  change (authorization_values _) with [kTokenKey ++ enc]. cbv beta iota. rewrite res_bind_Ok.
  assert (Hne : String.eqb (kTokenKey ++ enc) "" = false) by reflexivity.
  rewrite Hne, starts_with_app, str_drop_app. reflexivity.
Qed.

(** A scenario token reaches [SimpleTokenVerification::verify] with the
    configured algorithm and key. *)
Lemma scenario_verify a name now enc t :
  alg_token name enc t ->
  ap_checkAuthentication (alg_provider a key) now [("Authorization", "Bearer " ++ enc)] = Ok tt <->
  simple_verify (mkSimple "/k" a (Some (mkVerifier a key))) now t = Ok tt.
Proof.
  intros Ht. rewrite openid_checkAuthentication, scenario_header, (scenario_checkJwt a name now enc t Ht).
  rewrite checkSignature_Ok. split; [intros (v & [= <-] & Hv); exact Hv | intros Hv; eexists; split; [reflexivity | exact Hv]].
Qed.

(** C13: the scenario of the specification "a token signed with
    the key at [/k], [aud] ["api"], [iss] ["acme"], no [exp] is
    accepted": the configuration loads and initializes, and the request
    carrying the token as [Bearer] credentials passes
    [checkAuthentication], provided jwt-cpp's own time checks can read
    the token. *)
Theorem scenario_accept now enc t :
  fs "/k" = Some key -> key_valid HS256 key = true ->
  scenario_token enc t ->
  signature_valid HS256 key (signed_data t) (tok_signature t) = true ->
  is_ok (time_claims_check now t) = true ->
  ap_loadConfig fs scenario_config provider_init = Ok scenario_loaded /\
  ap_initialize fs scenario_loaded = Ok (scenario_provider key) /\
  ap_checkAuthentication (scenario_provider key) now [("Authorization", "Bearer " ++ enc)] = Ok tt.
Proof.
  intros Hk Hv Ht Hs Htime. destruct (scenario_start Hk Hv) as [Hl Hi].
  split; [exact Hl|]. split; [exact Hi|].
  apply (scenario_verify HS256 "HS256" now enc t Ht), simple_verify_Ok.
  eexists. split; [reflexivity|]. destruct Ht as (_ & Ha & _).
  split; [exact Ha|]. left. split; [exact Hs | exact Htime].
Qed.

(** C14: the scenario "same configuration, a token signed with a
    different key": a scenario token that the key at [/k] does not
    verify is answered ["401 invalid token"] with the message ["Jwt
    verification failed"] and the provider's [WWW-Authenticate]
    header. *)
Theorem scenario_wrong_key now enc t :
  fs "/k" = Some key -> key_valid HS256 key = true ->
  scenario_token enc t ->
  signature_valid HS256 key (signed_data t) (tok_signature t) = false ->
  ap_loadConfig fs scenario_config provider_init = Ok scenario_loaded /\
  ap_initialize fs scenario_loaded = Ok (scenario_provider key) /\
  ap_checkAuthentication (scenario_provider key) now [("Authorization", "Bearer " ++ enc)] =
    Err (HttpErr (mkHttpError "401 invalid token" "Jwt verification failed"
                   (buildAuthenticationHeader None []))).
Proof.
  intros Hk Hv Ht Hs. destruct (scenario_start Hk Hv) as [Hl Hi].
  split; [exact Hl|]. split; [exact Hi|].
  unfold scenario_provider.
  rewrite openid_checkAuthentication, scenario_header, (scenario_checkJwt HS256 "HS256" now enc t Ht).
  unfold checkSignature. cbn -[simple_verify buildAuthenticationHeader].
  destruct (simple_verify (mkSimple "/k" HS256 (Some (mkVerifier HS256 key))) now t) as [[]|e] eqn:Hver;
    [|reflexivity].
  apply simple_verify_Ok in Hver as (v & [= <-] & _ & [[Hs' _] | [_ He]]); simpl in *; [congruence|].
  rewrite signature_error_hmac in He by auto. discriminate He.
Qed.

(** C12: a token naming [RS256] whose signature the configured RSA key
    does not verify is accepted when jwt-cpp reports the failure as
    [signature_verification_error::verifyfinal_failed]: its value [14]
    is the value of [token_verification_error::token_expired], and
    [SimpleTokenVerification::verify] compares the values only. With
    the configuration of the scenarios and an [RS256] key, a request
    carrying such a forged token passes [checkAuthentication]. *)
Theorem scenario_forged_rs256 now enc t :
  fs "/k" = Some key -> key_valid RS256 key = true ->
  alg_token "RS256" enc t ->
  signature_valid RS256 key (signed_data t) (tok_signature t) = false ->
  signature_error RS256 = sve_verifyfinal_failed ->
  ap_loadConfig fs (alg_config "RS256") provider_init = Ok (alg_loaded RS256) /\
  ap_initialize fs (alg_loaded RS256) = Ok (alg_provider RS256 key) /\
  ap_checkAuthentication (alg_provider RS256 key) now [("Authorization", "Bearer " ++ enc)] = Ok tt.
Proof.
  intros Hk Hv Ht Hs He. destruct (rs256_start Hk Hv) as [Hl Hi].
  split; [exact Hl|]. split; [exact Hi|].
  apply (scenario_verify RS256 "RS256" now enc t Ht), simple_verify_Ok.
  eexists. split; [reflexivity|]. destruct Ht as (_ & Ha & _).
  split; [exact Ha|]. right. split; [exact Hs | exact He].
Qed.

End Scenario.

(** ** Witnesses

    The toy jwt-cpp of [JwtLib] with two tokens: ["tok.key"] signed with
    the key ["secret"], ["tok.other"] with the key ["other"]. *)

Definition scenario_payload : list (string * value) :=
  [("aud", VString "api"); ("iss", VString "acme")].

Definition scenario_signed (k : string) : token :=
  mkToken [("alg", VString "HS256")] scenario_payload "h" "p" (k ++ "h.p").

#[local] Instance scenario_lib : JwtLibrary :=
  toy_jwt_with [("tok.key", scenario_signed "secret"); ("tok.other", scenario_signed "other")] [].

Definition scenario_fs : filesystem :=
  fun path => if String.eqb path "/k" then Some "secret" else None.

(** The witness of [scenario_accept]. *)
Lemma scenario_accept_witness :
  ap_checkAuthentication (scenario_provider "secret") 1000 [("Authorization", "Bearer " ++ "tok.key")] = Ok tt.
Proof.
  refine (proj2 (proj2 (scenario_accept scenario_fs "secret" 1000 "tok.key" (scenario_signed "secret")
                           _ _ _ _ _)));
    [reflexivity | reflexivity | split; [|split]; reflexivity | reflexivity | reflexivity].
Defined.

(** The witness of [scenario_wrong_key]. *)
Lemma scenario_wrong_key_witness :
  ap_checkAuthentication (scenario_provider "secret") 1000 [("Authorization", "Bearer " ++ "tok.other")] =
    Err (HttpErr (mkHttpError "401 invalid token" "Jwt verification failed"
                   (buildAuthenticationHeader None []))).
Proof.
  refine (proj2 (proj2 (scenario_wrong_key scenario_fs "secret" 1000 "tok.other" (scenario_signed "other")
                           _ _ _ _)));
    [reflexivity | reflexivity | split; [|split]; reflexivity | reflexivity].
Defined.

(** A token naming [RS256] whose signature is not made with the key. *)
Definition forged_rs256 : token :=
  mkToken [("alg", VString "RS256")] scenario_payload "h" "p" "forged".

#[local] Instance forged_lib : JwtLibrary :=
  toy_jwt_with [("tok.forged", forged_rs256)] [].

(** The witness of [scenario_forged_rs256]. *)
Lemma scenario_forged_rs256_witness :
  ap_checkAuthentication (alg_provider RS256 "secret") 1000 [("Authorization", "Bearer " ++ "tok.forged")] = Ok tt.
Proof.
  refine (proj2 (proj2 (scenario_forged_rs256 scenario_fs "secret" 1000 "tok.forged" forged_rs256
                           _ _ _ _ _)));
    [reflexivity | reflexivity | split; [|split]; reflexivity | reflexivity | reflexivity].
Defined.
